(** * Pro-Driver-Assist: keyboard shaping pipeline and device arbitration

    A shallow embedding of [keyboard_processor.py], [input_device_manager.py]
    and the keyboard part of [input_manager.py], with the properties the
    specification states about them.

    Modelling conventions.
    - Python floats are idealised as real numbers ([R]); [math.exp] is [exp],
      [math.pow] is [math_pow] below, and overflow is not modelled. Where a
      property depends on rounding (the range of the hold curve, the
      convergence of smoothing), the function is modelled again in module
      [rounded], with every operation rounded to binary64
      ([binary64.round]).
    - Configuration dictionaries are JSON-like Python values ([pyval]); a
      dictionary is a [gmap string pyval].
    - A method is a computation in the monad [M]: it threads the object it
      mutates and may raise a Python exception; the state reached when an
      exception propagates is kept, as in Python.
    - [time.time()] is an oracle [clk : nat -> R]: the n-th call made by the
      program returns [clk n]; the world counts the calls made so far.
    - Locks are not modelled: every method body runs atomically. *)

From Stdlib Require Import Reals Lra Lia String List.
From stdpp Require Import gmap strings.

#[local] Open Scope R_scope.
#[local] Set Warnings "-register-all".

(** ** Python values, exceptions and the method monad *)

Module Py.

Inductive pyval :=
| PNone
| PBool (b : bool)
| PNum (x : R)
| PStr (s : string)
| PList (l : list pyval)
| PDict (d : gmap string pyval).

Inductive exn :=
| AttributeError
| TypeError
| ValueError
| Exception (msg : string).

Inductive res (A : Type) :=
| Ok (a : A)
| Raise (e : exn).
Arguments Ok {A} a.
Arguments Raise {A} e.

(** Truth value of a Python object, as [if v:] tests it. *)
Definition truthy (v : pyval) : bool :=
  match v with
  | PNone => false
  | PBool b => b
  | PNum x => if Req_dec_T x 0 then false else true
  | PStr s => if decide (s = EmptyString) then false else true
  | PList l => match l with nil => false | _ => true end
  | PDict d => match map_to_list d with nil => false | _ => true end
  end.

(** [x] used where a float is expected ([1.0 - x], [math.pow(x, _)]). *)
Definition as_float (v : pyval) : res R :=
  match v with
  | PNum x => Ok x
  | PBool b => Ok (if b then 1 else 0)
  | _ => Raise TypeError
  end.

(** [d.get(key, default)] on a dictionary. *)
Definition dict_get (d : gmap string pyval) (key : string) (default : pyval) : pyval :=
  match d !! key with
  | Some v => v
  | None => default
  end.

(** [v.get(key, default)] on an arbitrary value: only dictionaries have [get]. *)
Definition py_get (v : pyval) (key : string) (default : pyval) : res pyval :=
  match v with
  | PDict d => Ok (dict_get d key default)
  | _ => Raise AttributeError
  end.

(** [math.pow(x, y)] on reals. *)
Definition math_pow (x y : R) : res R :=
  if Rlt_dec 0 x then Ok (Rpower x y)
  else if Req_dec_T x 0 then
    if Rlt_dec y 0 then Raise ValueError
    else if Req_dec_T y 0 then Ok 1 else Ok 0
  else
    if Req_dec_T y (IZR (Int_part y)) then Ok (powerRZ x (Int_part y))
    else Raise ValueError.

(** State and exception monad. *)
Definition M (S A : Type) : Type := S -> res A * S.

Definition ret {S A} (a : A) : M S A := fun s => (Ok a, s).

Definition bind {S A B} (m : M S A) (k : A -> M S B) : M S B :=
  fun s =>
    match m s with
    | (Ok a, s') => k a s'
    | (Raise e, s') => (Raise e, s')
    end.

Definition raise {S A} (e : exn) : M S A := fun s => (Raise e, s).

Definition lift {S A} (r : res A) : M S A := fun s => (r, s).

Definition get {S} : M S S := fun s => (Ok s, s).

Definition modify {S} (f : S -> S) : M S unit := fun s => (Ok tt, f s).

(** [try: m except Exception as e: h e]. *)
Definition try_except {S A} (m : M S A) (h : exn -> M S A) : M S A :=
  fun s =>
    match m s with
    | (Ok a, s') => (Ok a, s')
    | (Raise e, s') => h e s'
    end.

(** [for x in l: body x]; an exception leaving the body ends the loop. *)
Fixpoint for_each {S A} (l : list A) (body : A -> M S unit) : M S unit :=
  match l with
  | nil => ret tt
  | x :: l' => bind (body x) (fun _ => for_each l' body)
  end.

(** The world a method runs in: the object, the number of [time.time()]
    calls made so far, and what was logged or called back. *)
Record World (O Ev : Type) := mkWorld {
  self : O;
  reads : nat;
  trace : list Ev
}.
Arguments mkWorld {O Ev} _ _ _.
Arguments self {O Ev} _.
Arguments reads {O Ev} _.
Arguments trace {O Ev} _.

Definition get_self {O Ev} : M (World O Ev) O :=
  fun w => (Ok (self w), w).

Definition set_self {O Ev} (f : O -> O) : M (World O Ev) unit :=
  modify (fun w => mkWorld (f (self w)) (reads w) (trace w)).

Definition emit {O Ev} (e : Ev) : M (World O Ev) unit :=
  modify (fun w => mkWorld (self w) (reads w) (trace w ++ e :: nil)).

(** [time.time()]. *)
Definition time_time {O Ev} (clk : nat -> R) : M (World O Ev) R :=
  fun w => (Ok (clk (reads w)), mkWorld (self w) (S (reads w)) (trace w)).

Inductive log_entry :=
| LogInfo (msg : string)
| LogWarning (msg : string)
| LogError (msg : string) (e : exn).

End Py.

Import Py.

Notation "'let!' x ':=' m 'in' k" := (bind m (fun x => k))
  (at level 10, x pattern, m at level 100, k at level 200).
Notation "m '>>' k" := (bind m (fun _ => k))
  (at level 100, k at level 200, right associativity).

(** ** keyboard_processor.py *)

Module keyboard_processor.

Record KeyState := mkKeyState {
  pressed : bool;
  press_time : R;
  release_time : R;
  hold_duration : R;
  value : R
}.

(** [KeyState()] *)
Definition KeyState0 : KeyState := mkKeyState false 0 0 0 0.

Record KeyboardProcessor := mkKeyboardProcessor {
  config : gmap string pyval;
  key_states : gmap string KeyState;
  steering_value : R;
  throttle_value : R;
  brake_value : R;
  steering_smoothing : R;
  pedal_smoothing : R
}.

Definition W : Type := World KeyboardProcessor log_entry.

Definition set_key_states (ks : gmap string KeyState) (p : KeyboardProcessor) :=
  mkKeyboardProcessor (config p) ks (steering_value p) (throttle_value p)
    (brake_value p) (steering_smoothing p) (pedal_smoothing p).

Definition set_steering_value (v : R) (p : KeyboardProcessor) :=
  mkKeyboardProcessor (config p) (key_states p) v (throttle_value p)
    (brake_value p) (steering_smoothing p) (pedal_smoothing p).

Definition set_throttle_value (v : R) (p : KeyboardProcessor) :=
  mkKeyboardProcessor (config p) (key_states p) (steering_value p) v
    (brake_value p) (steering_smoothing p) (pedal_smoothing p).

Definition set_brake_value (v : R) (p : KeyboardProcessor) :=
  mkKeyboardProcessor (config p) (key_states p) (steering_value p)
    (throttle_value p) v (steering_smoothing p) (pedal_smoothing p).

(** A key name as the key-state table ([Dict[str, KeyState]]) takes it: key
    names are strings; a binding of another type is outside the model and
    construction is modelled as raising on it. *)
Definition key_name (v : pyval) : res string :=
  match v with
  | PStr s => Ok s
  | _ => Raise TypeError
  end.

(** [_init_key_states], returning the table it assigns. *)
Definition _init_key_states (cfg : gmap string pyval) : res (gmap string KeyState) :=
  let steering := dict_get cfg "steering" (PDict ∅) in
  let acceleration := dict_get cfg "acceleration" (PDict ∅) in
  match py_get steering "left_key" (PStr "a") with
  | Raise e => Raise e
  | Ok k1 =>
  match py_get steering "right_key" (PStr "d") with
  | Raise e => Raise e
  | Ok k2 =>
  match py_get acceleration "accelerate_key" (PStr "w") with
  | Raise e => Raise e
  | Ok k3 =>
  match py_get acceleration "brake_key" (PStr "s") with
  | Raise e => Raise e
  | Ok k4 =>
  match key_name k1, key_name k2, key_name k3, key_name k4 with
  | Ok n1, Ok n2, Ok n3, Ok n4 =>
      Ok (<[n4 := KeyState0]> (<[n3 := KeyState0]>
           (<[n2 := KeyState0]> (<[n1 := KeyState0]> ∅))))
  | _, _, _, _ => Raise TypeError
  end end end end end.

(** [KeyboardProcessor(config)]. The hooks installed by [_setup_key_handlers]
    deliver the events that [_key_pressed] and [_key_released] handle. *)
Definition __init__ (config : gmap string pyval) : res KeyboardProcessor :=
  match dict_get config "keyboard_controls" (PDict ∅) with
  | PDict cfg =>
      match _init_key_states cfg with
      | Ok ks => Ok (mkKeyboardProcessor cfg ks 0 0 0 0.8 0.7)
      | Raise e => Raise e
      end
  | _ => Raise AttributeError
  end.

(** [self.key_states.get(key)] for the value a binding holds. *)
Definition key_states_get (ks : gmap string KeyState) (key : pyval)
  : res (option KeyState) :=
  match key with
  | PStr s => Ok (ks !! s)
  | PList _ | PDict _ => Raise TypeError
  | _ => Ok None
  end.

(** The progressive curve applied to the hold time. *)
Definition hold_curve (hold_time : R) : R :=
  let curve := 1 - exp (- hold_time * 2) in
  Rmin 1 curve.

(** [_smooth_value(current, target, smoothing, delta_time)] *)
Definition _smooth_value (current target : R) (smoothing : pyval) (delta_time : R)
  : res R :=
  if Rlt_dec (Rabs (target - current)) 0.001 then Ok target
  else
    match as_float smoothing with
    | Raise e => Raise e
    | Ok s =>
        match math_pow s (delta_time * 60) with
        | Raise e => Raise e
        | Ok pw =>
            let rate := 1 - pw in
            Ok (current + (target - current) * rate)
        end
    end.

Section WithClock.

Variable clk : nat -> R.

Definition _key_pressed (key : string) : M W unit :=
  let! p := get_self in
  match key_states p !! key with
  | None => ret tt
  | Some state =>
      let! current_time := time_time clk in
      if pressed state then ret tt
      else
        set_self (set_key_states
          (<[key := mkKeyState true current_time (release_time state) 0 (value state)]>
             (key_states p)))
  end.

Definition _key_released (key : string) : M W unit :=
  let! p := get_self in
  match key_states p !! key with
  | None => ret tt
  | Some state =>
      let! current_time := time_time clk in
      set_self (set_key_states
        (<[key := mkKeyState false (press_time state) current_time
                    (current_time - press_time state) (value state)]>
           (key_states p)))
  end.

Definition _calculate_key_value (key : pyval) : M W R :=
  let! p := get_self in
  let! state := lift (key_states_get (key_states p) key) in
  match state with
  | None => ret 0
  | Some state =>
      if pressed state then
        let! current_time := time_time clk in
        let hold_time := current_time - press_time state in
        ret (hold_curve hold_time)
      else ret 0
  end.

(** Lines 95-102 of [_update_steering]: the two key values. *)
Definition steering_key_values (steering : pyval) : M W (R * R) :=
  let! left_key := lift (py_get steering "left_key" (PStr "a")) in
  let! right_key := lift (py_get steering "right_key" (PStr "d")) in
  let! left_value := _calculate_key_value left_key in
  let! right_value := _calculate_key_value right_key in
  ret (left_value, right_value).

Definition _update_steering (delta_time : R) : M W unit :=
  let! p := get_self in
  let steering := dict_get (config p) "steering" (PDict ∅) in
  let! (left_value, right_value) := steering_key_values steering in
  let target_steering := right_value - left_value in
  let! gradual_turn := lift (py_get steering "gradual_turn" (PBool true)) in
  (if truthy gradual_turn then
     let! v := lift (_smooth_value (steering_value p) target_steering
                       (PNum (steering_smoothing p)) delta_time) in
     set_self (set_steering_value v)
   else set_self (set_steering_value target_steering)) >>
  let! return_to_center := lift (py_get steering "return_to_center" (PBool true)) in
  if truthy return_to_center
     && (if Req_dec_T left_value 0 then
           if Req_dec_T right_value 0 then true else false
         else false)
  then
    let! center_speed := lift (py_get steering "center_speed" (PNum 0.3)) in
    let! p' := get_self in
    let! v := lift (_smooth_value (steering_value p') 0 center_speed delta_time) in
    set_self (set_steering_value v)
  else ret tt.

Definition _update_pedals (delta_time : R) : M W unit :=
  let! p := get_self in
  let acceleration := dict_get (config p) "acceleration" (PDict ∅) in
  let! accelerate_key := lift (py_get acceleration "accelerate_key" (PStr "w")) in
  let! brake_key := lift (py_get acceleration "brake_key" (PStr "s")) in
  let! target_throttle := _calculate_key_value accelerate_key in
  let! target_brake := _calculate_key_value brake_key in
  let! progressive := lift (py_get acceleration "progressive_acceleration" (PBool true)) in
  if truthy progressive then
    let! t := lift (_smooth_value (throttle_value p) target_throttle
                      (PNum (pedal_smoothing p)) delta_time) in
    set_self (set_throttle_value t) >>
    let! b := lift (_smooth_value (brake_value p) target_brake
                      (PNum (pedal_smoothing p)) delta_time) in
    set_self (set_brake_value b)
  else
    set_self (set_throttle_value target_throttle) >>
    set_self (set_brake_value target_brake).

Definition _apply_counter_steer : M W unit :=
  let! p := get_self in
  if Rlt_dec 0.8 (Rabs (steering_value p)) then
    if Rlt_dec 0.7 (throttle_value p) then
      let! strength :=
        lift (py_get (dict_get (config p) "assists" (PDict ∅))
                "counter_steer_strength" (PNum 0.5)) in
      let! s := lift (as_float strength) in
      set_self (set_steering_value (steering_value p * (1 - s)))
    else ret tt
  else ret tt.

Definition _apply_anti_spin : M W unit :=
  let! p := get_self in
  if Rlt_dec 0.6 (Rabs (steering_value p)) then
    if Rlt_dec 0.8 (throttle_value p) then
      let! strength :=
        lift (py_get (dict_get (config p) "assists" (PDict ∅))
                "spin_prevention" (PNum 0.6)) in
      let! s := lift (as_float strength) in
      set_self (set_throttle_value (throttle_value p * (1 - s)))
    else ret tt
  else ret tt.

Definition _apply_assists : M W unit :=
  let! p := get_self in
  let assists := dict_get (config p) "assists" (PDict ∅) in
  let! counter_steer_assist := lift (py_get assists "counter_steer_assist" (PBool true)) in
  (if truthy counter_steer_assist then _apply_counter_steer else ret tt) >>
  let! anti_spin_assist := lift (py_get assists "anti_spin_assist" (PBool true)) in
  if truthy anti_spin_assist then _apply_anti_spin else ret tt.

Definition update (delta_time : R) : M W unit :=
  _update_steering delta_time >>
  _update_pedals delta_time >>
  _apply_assists.

End WithClock.

(** [get_inputs]: the (steering, throttle, brake) triple. *)
Definition get_inputs (p : KeyboardProcessor) : R * R * R :=
  (steering_value p, throttle_value p, brake_value p).

End keyboard_processor.

(** ** input_device_manager.py *)

Module input_device_manager.

Inductive InputDevice :=
| KEYBOARD
| STEERING_WHEEL
| UNKNOWN.

#[global] Instance InputDevice_eq_dec : EqDecision InputDevice.
Proof. solve_decision. Defined.

(** [InputDevice.value] *)
Definition device_value (d : InputDevice) : string :=
  match d with
  | KEYBOARD => "keyboard"
  | STEERING_WHEEL => "steering_wheel"
  | UNKNOWN => "unknown"
  end.

(** A registered listener: a name that identifies it in the trace, and what
    calling it with a device does, return or raise. A listener has no
    reference to the manager; exceptions outside [Exception] (a
    [KeyboardInterrupt], say) are not modelled. *)
Record Callback := mkCallback {
  cb_name : string;
  cb_call : InputDevice -> res unit
}.

Inductive event :=
| Log (l : log_entry)
| Invoked (listener : string) (d : InputDevice).

Record InputDeviceManager := mkInputDeviceManager {
  current_device : InputDevice;
  device_changed_callbacks : list Callback;
  last_keyboard_time : R;
  last_wheel_time : R;
  detection_threshold : R;
  keyboard_config : pyval;
  running : bool
}.

Definition W : Type := World InputDeviceManager event.

Definition set_current_device (d : InputDevice) (m : InputDeviceManager) :=
  mkInputDeviceManager d (device_changed_callbacks m) (last_keyboard_time m)
    (last_wheel_time m) (detection_threshold m) (keyboard_config m) (running m).

Definition set_callbacks (l : list Callback) (m : InputDeviceManager) :=
  mkInputDeviceManager (current_device m) l (last_keyboard_time m)
    (last_wheel_time m) (detection_threshold m) (keyboard_config m) (running m).

Definition set_last_keyboard_time (t : R) (m : InputDeviceManager) :=
  mkInputDeviceManager (current_device m) (device_changed_callbacks m) t
    (last_wheel_time m) (detection_threshold m) (keyboard_config m) (running m).

Definition set_last_wheel_time (t : R) (m : InputDeviceManager) :=
  mkInputDeviceManager (current_device m) (device_changed_callbacks m)
    (last_keyboard_time m) t (detection_threshold m) (keyboard_config m) (running m).

Definition _get_default_keyboard_config : pyval :=
  PDict {[ "keyboard_controls" :=
    PDict (<["steering" :=
             PDict (<["left_key" := PStr "a"]> (<["right_key" := PStr "d"]>
                   (<["gradual_turn" := PBool true]> {[ "turn_speed" := PNum 0.5 ]})))]>
           {[ "acceleration" :=
             PDict (<["accelerate_key" := PStr "w"]> (<["brake_key" := PStr "s"]>
                   {[ "progressive_acceleration" := PBool true ]})) ]}) ]}.

(** What reading [keyboard_config_template.json] gives. *)
Inductive config_file :=
| Missing
| Loaded (v : pyval)
| Unreadable (e : exn).

Definition _load_keyboard_config (f : config_file) : pyval * list event :=
  match f with
  | Loaded v => (v, nil)
  | Missing =>
      (_get_default_keyboard_config,
       Log (LogWarning "Keyboard config not found, using defaults") :: nil)
  | Unreadable e =>
      (_get_default_keyboard_config,
       Log (LogError "Error loading keyboard config" e) :: nil)
  end.

(** [InputDeviceManager()], before its detection thread takes a sample. *)
Definition __init__ (f : config_file) : W :=
  let (cfg, logged) := _load_keyboard_config f in
  mkWorld (mkInputDeviceManager UNKNOWN nil 0 0 0.5 cfg true) 0 logged.

Definition register_device_changed_callback (callback : Callback) : M W unit :=
  set_self (fun m => set_callbacks (device_changed_callbacks m ++ callback :: nil) m).

Definition _notify_device_changed : M W unit :=
  let! m := get_self in
  for_each (device_changed_callbacks m) (fun callback =>
    try_except
      (let! m' := get_self in
       emit (Invoked (cb_name callback) (current_device m')) >>
       lift (cb_call callback (current_device m')))
      (fun e => emit (Log (LogError "Error in device change callback" e)))).

Definition _check_wheel_activity : bool := false.

(** [any(keyboard.is_pressed(key) for key in keys)] *)
Fixpoint any_pressed (is_pressed : string -> res bool) (keys : list string)
  : res bool :=
  match keys with
  | nil => Ok false
  | key :: keys' =>
      match is_pressed key with
      | Raise e => Raise e
      | Ok true => Ok true
      | Ok false => any_pressed is_pressed keys'
      end
  end.

(** The keys the detection loop polls. *)
Definition monitored : list string := "w" :: "a" :: "s" :: "d" :: "space" :: nil.

(** The device the sampling step computes from the two activity flags. *)
Definition new_device_of (keyboard_active wheel_active : bool) : InputDevice :=
  if keyboard_active && negb wheel_active then KEYBOARD
  else if wheel_active && negb keyboard_active then STEERING_WHEEL
  else UNKNOWN.

Section WithClock.

Variable clk : nat -> R.

(** One pass of the body of [_device_detection_loop]; [is_pressed] is what
    [keyboard.is_pressed] answers during this pass. *)
Definition detection_step (is_pressed : string -> res bool) : M W unit :=
  try_except
    (let! any_key :=
       lift (any_pressed is_pressed monitored) in
     (if any_key then
        let! t := time_time clk in set_self (set_last_keyboard_time t)
      else ret tt) >>
     let wheel_active := _check_wheel_activity in
     (if wheel_active then
        let! t := time_time clk in set_self (set_last_wheel_time t)
      else ret tt) >>
     let! current_time := time_time clk in
     let! m := get_self in
     let keyboard_active :=
       if Rlt_dec (current_time - last_keyboard_time m) (detection_threshold m)
       then true else false in
     let wheel_active :=
       if Rlt_dec (current_time - last_wheel_time m) (detection_threshold m)
       then true else false in
     let new_device := new_device_of keyboard_active wheel_active in
     if decide (new_device = current_device m) then ret tt
     else
       set_self (set_current_device new_device) >>
       _notify_device_changed >>
       emit (Log (LogInfo ("Input device changed to: " ++ device_value new_device))))
    (fun e => emit (Log (LogError "Error in device detection loop" e))).

(** [_device_detection_loop] over the samples taken while the thread runs. *)
Fixpoint _device_detection_loop (samples : list (string -> res bool)) : M W unit :=
  match samples with
  | nil => ret tt
  | is_pressed :: samples' =>
      let! m := get_self in
      if running m then
        detection_step is_pressed >> _device_detection_loop samples'
      else ret tt
  end.

End WithClock.

Definition get_current_device : M W InputDevice :=
  let! m := get_self in ret (current_device m).

End input_device_manager.

(** ** input_manager.py (keyboard support) *)

Module input_manager.

Record InputManager := mkInputManager {
  config : gmap string pyval;
  keyboard_processor : option keyboard_processor.KeyboardProcessor;
  running : bool
}.

Definition W : Type := World InputManager log_entry.

Definition set_keyboard_processor
  (kp : option keyboard_processor.KeyboardProcessor) (im : InputManager) :=
  mkInputManager (config im) kp (running im).

Definition set_config_field (cfg : gmap string pyval) (im : InputManager) :=
  mkInputManager cfg (keyboard_processor im) (running im).

Definition default_bindings : gmap string pyval :=
  <["steer_left" := PStr "a"]> (<["steer_right" := PStr "d"]>
  (<["throttle" := PStr "w"]> (<["brake" := PStr "s"]>
  (<["gear_up" := PStr "shift"]> (<["gear_down" := PStr "ctrl"]>
  (<["clutch" := PStr "space"]> {[ "handbrake" := PStr "alt" ]})))))).

(** The dictionary [_init_keyboard_support] hands to [KeyboardProcessor]. *)
Definition keyboard_config_of (cfg : gmap string pyval) : res (gmap string pyval) :=
  let key_bindings := dict_get cfg "key_bindings" (PDict default_bindings) in
  match py_get key_bindings "steer_left" (PStr "a") with
  | Raise e => Raise e
  | Ok steer_left =>
  match py_get key_bindings "steer_right" (PStr "d") with
  | Raise e => Raise e
  | Ok steer_right =>
  match py_get key_bindings "throttle" (PStr "w") with
  | Raise e => Raise e
  | Ok throttle =>
  match py_get key_bindings "brake" (PStr "s") with
  | Raise e => Raise e
  | Ok brake =>
      Ok (<["steering_keys" := PDict (<["left" := steer_left]> {[ "right" := steer_right ]})]>
         (<["throttle_key" := throttle]>
         (<["brake_key" := brake]>
         (<["sensitivity" :=
             PDict (<["steering" := dict_get cfg "response_speed" (PNum 1)]>
                   (<["throttle" := PNum 1]> {[ "brake" := PNum 1 ]}))]>
         {[ "smoothing" :=
             PDict (<["steering" := PNum 0.3]>
                   (<["throttle" := PNum 0.2]> {[ "brake" := PNum 0.2 ]})) ]}))))
  end end end end.

Definition _init_keyboard_support : M W unit :=
  try_except
    (let! im := get_self in
     let! keyboard_config := lift (keyboard_config_of (config im)) in
     let! kp := lift (keyboard_processor.__init__ keyboard_config) in
     set_self (set_keyboard_processor (Some kp)) >>
     emit (LogInfo "Keyboard input processor initialized"))
    (fun e => emit (LogError "Failed to initialize keyboard support" e)).

Definition set_config (cfg : gmap string pyval) : M W unit :=
  set_self (set_config_field cfg) >>
  _init_keyboard_support.

Definition update_key_bindings (key_bindings : pyval) : M W unit :=
  try_except
    (set_self (fun im => set_config_field (<["key_bindings" := key_bindings]> (config im)) im) >>
     _init_keyboard_support >>
     emit (LogInfo "Updated key bindings in input manager"))
    (fun e => emit (LogError "Error updating key bindings" e)).

(** [InputManager(config)], as far as keyboard support goes. *)
Definition __init__ (cfg : gmap string pyval) : W :=
  snd (_init_keyboard_support (mkWorld (mkInputManager cfg None true) 0%nat nil)).

End input_manager.

(** ** Scenarios: repeated ticks and runs *)

Module scenario.

Import keyboard_processor.

(** The table and the processor [KeyboardProcessor({})] builds. *)
Definition default_key_states : gmap string KeyState :=
  <["s" := KeyState0]> (<["w" := KeyState0]>
  (<["d" := KeyState0]> (<["a" := KeyState0]> ∅))).

Definition default_processor : KeyboardProcessor :=
  mkKeyboardProcessor ∅ default_key_states 0 0 0 0.8 0.7.

(** A processor with the default configuration whose shaped steering is
    0.9 and whose shaped throttle is 0.85, about to run its assists. *)
Definition committed_world : W :=
  mkWorld (mkKeyboardProcessor ∅ default_key_states 0.9 0.85 0 0.8 0.7) 0 nil.

(** The same axes with [counter_steer_strength] configured as 0.2. *)
Definition mild_counter_steer_world : W :=
  mkWorld
    (mkKeyboardProcessor
       {[ "assists" := PDict {[ "counter_steer_strength" := PNum 0.2 ]} ]}
       default_key_states 0.9 0.85 0 0.8 0.7) 0 nil.

(** A freshly built processor, no key touched yet. *)
Definition fresh_world : W := mkWorld default_processor 0 nil.

(** A clock that always reads [t]. *)
Definition clock_at (t : R) : nat -> R := fun _ => t.

(** A value that can be looked up in a dictionary (lists and dictionaries
    are unhashable). *)
Definition hashable (v : pyval) : Prop :=
  match v with
  | PList _ | PDict _ => False
  | _ => True
  end.

(** A configuration as the bounds claim takes it: the three sections are
    dictionaries (or absent), the four bindings can be looked up, the
    return-to-center smoothing factor is in (0,1) and the two assist
    strengths are in [0,1]. *)
Definition config_in_range (cfg : gmap string pyval) : Prop :=
  exists (steering acceleration assists : gmap string pyval) (center_speed cs sp : R),
    dict_get cfg "steering" (PDict ∅) = PDict steering
    /\ dict_get cfg "acceleration" (PDict ∅) = PDict acceleration
    /\ dict_get cfg "assists" (PDict ∅) = PDict assists
    /\ hashable (dict_get steering "left_key" (PStr "a"))
    /\ hashable (dict_get steering "right_key" (PStr "d"))
    /\ hashable (dict_get acceleration "accelerate_key" (PStr "w"))
    /\ hashable (dict_get acceleration "brake_key" (PStr "s"))
    /\ dict_get steering "center_speed" (PNum 0.3) = PNum center_speed
    /\ 0 < center_speed < 1
    /\ dict_get assists "counter_steer_strength" (PNum 0.5) = PNum cs
    /\ 0 <= cs <= 1
    /\ dict_get assists "spin_prevention" (PNum 0.6) = PNum sp
    /\ 0 <= sp <= 1.

Definition smoothing_in_range (p : KeyboardProcessor) : Prop :=
  0 < steering_smoothing p < 1 /\ 0 < pedal_smoothing p < 1.

Definition axes_in_bounds (p : KeyboardProcessor) : Prop :=
  -1 <= steering_value p <= 1
  /\ 0 <= throttle_value p <= 1
  /\ 0 <= brake_value p <= 1.

(** No key that is held was pressed later than a reading the clock gives
    from now on. *)
Definition presses_before (clk : nat -> R) (w : W) : Prop :=
  forall key state n,
    key_states (self w) !! key = Some state ->
    pressed state = true ->
    (reads w <= n)%nat ->
    press_time state <= clk n.

(** A processor whose accelerator was pressed when the wall clock read
    1700000001, updated when it reads 1700000000 (the system clock was set
    back by a second in between). *)
Definition early_clock_world : W :=
  mkWorld
    (mkKeyboardProcessor ∅
       (<["w" := mkKeyState true 1700000001 0 0 0]> default_key_states)
       0 0 0 0.8 0.7)
    0 nil.

(** The fields the processor reads from a section of its configuration. *)
Definition fields_read : list string :=
  "left_key" :: "right_key" :: "gradual_turn" :: "return_to_center"
  :: "center_speed" :: "accelerate_key" :: "brake_key"
  :: "progressive_acceleration" :: "counter_steer_assist" :: "anti_spin_assist"
  :: "counter_steer_strength" :: "spin_prevention" :: nil.

Definition sections_read : list string :=
  "steering" :: "acceleration" :: "assists" :: nil.

(** Two sections that answer every read of the processor alike. *)
Definition section_same (v1 v2 : pyval) : Prop :=
  forall field default,
    In field fields_read -> py_get v1 field default = py_get v2 field default.

(** Two configurations that answer every read of the processor alike. *)
Definition reads_same (c1 c2 : gmap string pyval) : Prop :=
  forall sec,
    In sec sections_read ->
    section_same (dict_get c1 sec (PDict ∅)) (dict_get c2 sec (PDict ∅)).

Definition same_but_config (p1 p2 : KeyboardProcessor) : Prop :=
  key_states p1 = key_states p2
  /\ steering_value p1 = steering_value p2
  /\ throttle_value p1 = throttle_value p2
  /\ brake_value p1 = brake_value p2
  /\ steering_smoothing p1 = steering_smoothing p2
  /\ pedal_smoothing p1 = pedal_smoothing p2
  /\ reads_same (config p1) (config p2).

Definition same_world (w1 w2 : W) : Prop :=
  reads w1 = reads w2
  /\ trace w1 = trace w2
  /\ same_but_config (self w1) (self w2).

(** Two computations that, from related states, end alike: both return
    related results or both raise the same exception, in related states. *)
Definition sim {S A} (R : S -> S -> Prop) (Q : A -> A -> Prop) (m1 m2 : M S A)
  : Prop :=
  forall s1 s2,
    R s1 s2 ->
    match m1 s1, m2 s2 with
    | (Ok a1, s1'), (Ok a2, s2') => Q a1 a2 /\ R s1' s2'
    | (Raise e1, s1'), (Raise e2, s2') => e1 = e2 /\ R s1' s2'
    | _, _ => False
    end.

(** A configuration in which a deadzone [v] is set: at top level, under
    the name the settings store uses, and inside the steering section. *)
Definition with_deadzone (v : pyval) (cfg : gmap string pyval) : gmap string pyval :=
  <["deadzone" := v]>
    (<["deadzone_size" := v]>
       (match dict_get cfg "steering" (PDict ∅) with
        | PDict steering => <["steering" := PDict (<["deadzone" := v]> steering)]> cfg
        | _ => cfg
        end)).

Definition set_config (cfg : gmap string pyval) (w : W) : W :=
  mkWorld
    (mkKeyboardProcessor cfg (key_states (self w)) (steering_value (self w))
       (throttle_value (self w)) (brake_value (self w))
       (steering_smoothing (self w)) (pedal_smoothing (self w)))
    (reads w) (trace w).

(** What the processor receives: key events, and ticks with their [dt]. *)
Inductive input :=
| KeyDown (key : string)
| KeyUp (key : string)
| Tick (delta_time : R).

(** A run of the processor over a sequence of inputs; each tick that
    returns contributes the axes [get_inputs] reports after it. *)
Fixpoint run (clk : nat -> R) (inputs : list input) (w : W)
  : list (R * R * R) * W :=
  match inputs with
  | nil => (nil, w)
  | KeyDown key :: rest => run clk rest (snd (_key_pressed clk key w))
  | KeyUp key :: rest => run clk rest (snd (_key_released clk key w))
  | Tick delta_time :: rest =>
      match update clk delta_time w with
      | (Ok _, w') =>
          let (outputs, w'') := run clk rest w' in
          (get_inputs (self w') :: outputs, w'')
      | (Raise _, w') => run clk rest w'
      end
  end.

(** The right steer key [d] held since time 0, on a processor configured
    with a deadzone of 0.05. *)
Definition light_steer_world : W :=
  mkWorld
    (mkKeyboardProcessor (with_deadzone (PNum 0.05) ∅)
       (<["d" := mkKeyState true 0 0 0 0]> default_key_states) 0 0 0 0.8 0.7)
    0 nil.

(** The accelerator [w] held since time 0. *)
Definition throttle_held_world : W :=
  mkWorld
    (mkKeyboardProcessor ∅
       (<["w" := mkKeyState true 0 0 0 0]> default_key_states) 0 0 0 0.8 0.7)
    0 nil.

(** A clock that reads the hold time at which the curve gives 0.03. *)
Definition light_hold_clock : nat -> R := clock_at (- ln 0.97 / 2).

(** A main configuration that rebinds the four driving keys to j, l, i, k. *)
Definition custom_bindings_config : gmap string pyval :=
  {[ "key_bindings" :=
       PDict (<["steer_left" := PStr "j"]> (<["steer_right" := PStr "l"]>
             (<["throttle" := PStr "i"]> {[ "brake" := PStr "k" ]}))) ]}.

End scenario.

(** ** Scenarios: device arbitration *)

Module arbitration_scenario.

Import input_device_manager.

(** What one round of notification with device [d] leaves in the trace:
    each listener is called, and a listener that raises is logged. *)
Definition notifications (d : InputDevice) (callbacks : list Callback) : list event :=
  flat_map
    (fun callback =>
       Invoked (cb_name callback) d ::
       match cb_call callback d with
       | Ok _ => nil
       | Raise e => Log (LogError "Error in device change callback" e) :: nil
       end)
    callbacks.

(** The calls made to listeners, in order, among the events of a trace. *)
Fixpoint invocations (tr : list event) : list (string * InputDevice) :=
  match tr with
  | nil => nil
  | Invoked name d :: tr' => (name, d) :: invocations tr'
  | Log _ :: tr' => invocations tr'
  end.

(** A manager right after construction (no configuration file found),
    with [callbacks] registered in order. *)
Definition fresh_manager (callbacks : list Callback) : W :=
  mkWorld (mkInputDeviceManager UNKNOWN callbacks 0 0 0.5
             _get_default_keyboard_config true) 0
    (Log (LogWarning "Keyboard config not found, using defaults") :: nil).

(** A sample during which [w] is held, and one with no key down. *)
Definition w_down : string -> res bool :=
  fun key => Ok (if decide (key = "w") then true else false).

Definition no_key : string -> res bool := fun _ => Ok false.

(** Clock of the scenario "keyboard activity at [t0], none after": the
    sample at [t0] reads the clock twice (activity, then now), the samples
    at [t0 + 0.4] and [t0 + 0.6] once each. *)
Definition activity_clock (t0 : R) : nat -> R :=
  fun n =>
    match n with
    | 0%nat | 1%nat => t0
    | 2%nat => t0 + 0.4
    | _ => t0 + 0.6
    end.

(** A listener that raises and one that returns. *)
Definition failing_listener : Callback :=
  mkCallback "failing" (fun _ => Raise (Exception "boom")).

Definition quiet_listener : Callback :=
  mkCallback "quiet" (fun _ => Ok tt).

(** A sample in which the poll answered [any_key]: the manager once the
    keyboard time is recorded, the reading [now], and the device computed. *)
Definition sampled (clk : nat -> R) (any_key : bool) (w : W) : InputDeviceManager :=
  if any_key then set_last_keyboard_time (clk (reads w)) (self w) else self w.

Definition now_of (clk : nat -> R) (any_key : bool) (w : W) : R :=
  clk (if any_key then S (reads w) else reads w).

Definition device_of (clk : nat -> R) (any_key : bool) (w : W) : InputDevice :=
  new_device_of
    (if Rlt_dec (now_of clk any_key w - last_keyboard_time (sampled clk any_key w))
                (detection_threshold (self w)) then true else false)
    (if Rlt_dec (now_of clk any_key w - last_wheel_time (self w))
                (detection_threshold (self w)) then true else false).

End arbitration_scenario.

(** ** Binary64 rounding *)

Module binary64.

(** Powers of two. *)
Definition bpow (e : Z) : R := powerRZ 2 e.

(** The binade of a number: for [x <> 0],
    [bpow (mag x - 1) <= |x| < bpow (mag x)]. *)
Definition mag (x : R) : Z := (Zfloor (ln (Rabs x) / ln 2) + 1)%Z.

(** The exponent of the last place of a number in binade [e]: 53 bits of
    precision, subnormal numbers below [bpow (-1022)]. *)
Definition fexp (e : Z) : Z := Z.max (e - 53) (-1074).

(** The nearest integer, ties to even. *)
Definition ZnearestE (x : R) : Z :=
  let f := Zfloor x in
  if Rlt_dec (x - IZR f) (/ 2) then f
  else if Rlt_dec (/ 2) (x - IZR f) then (f + 1)%Z
  else if Z.even f then f else (f + 1)%Z.

(** Rounding to the nearest binary64 number, ties to even. Overflow to
    infinity is not modelled: the exponent is not bounded from above. *)
Definition round (x : R) : R :=
  let e := fexp (mag x) in
  IZR (ZnearestE (x * bpow (- e))) * bpow e.

End binary64.

(** ** The hold curve and the smoothing step in binary64 arithmetic *)

(** The two numerical functions of [keyboard_processor.py] with every
    floating-point operation rounded to binary64, for the properties that
    depend on rounding. [math.exp] and [math.pow] are taken as correctly
    rounded. *)
Module rounded.

Import binary64.

(** [math.exp(x)] *)
Definition math_exp (x : R) : R := round (exp x).

(** [math.pow(x, y)] *)
Definition math_pow (x y : R) : res R :=
  match Py.math_pow x y with
  | Ok v => Ok (round v)
  | Raise e => Raise e
  end.

(** [curve = 1.0 - math.exp(-hold_time * 2.0); min(1.0, curve)] *)
Definition hold_curve (hold_time : R) : R :=
  let curve := round (1 - math_exp (round (- hold_time * 2))) in
  Rmin 1 curve.

(** [_smooth_value(current, target, smoothing, delta_time)] *)
Definition _smooth_value (current target : R) (smoothing : pyval) (delta_time : R)
  : res R :=
  if Rlt_dec (Rabs (round (target - current))) (round 0.001) then Ok target
  else
    match as_float smoothing with
    | Raise e => Raise e
    | Ok s =>
        match math_pow s (round (delta_time * 60)) with
        | Raise e => Raise e
        | Ok pw =>
            let rate := round (1 - pw) in
            Ok (round (current + round (round (target - current) * rate)))
        end
    end.

(** [n] ticks of [_smooth_value] toward a constant target. *)
Fixpoint smooth_iter (n : nat) (current target : R) (smoothing : pyval)
  (delta_time : R) : res R :=
  match n with
  | O => Ok current
  | S n' =>
      match smooth_iter n' current target smoothing delta_time with
      | Ok c => _smooth_value c target smoothing delta_time
      | Raise e => Raise e
      end
  end.

(** The rate [1.0 - math.pow(smoothing, delta_time * 60)] the step computes
    for a positive smoothing factor. *)
Definition smoothing_rate (s delta_time : R) : R :=
  round (1 - round (Rpower s (round (delta_time * 60)))).

End rounded.

(** ** Hold times: what the processor takes from the wall clock *)

Module hold_times.

Import keyboard_processor.

(** Two clocks that measure the same elapsed time between any two of
    their readings. *)
Definition same_elapsed (clk1 clk2 : nat -> R) : Prop :=
  forall m n, (m <= n)%nat -> clk1 n - clk1 m = clk2 n - clk2 m.

(** Two entries of the key-state table that agree on [pressed] and, while
    the key is held, on the hold time that every reading from the
    [from]-th on gives. *)
Definition same_hold (clk1 clk2 : nat -> R) (from : nat)
  (s1 s2 : option KeyState) : Prop :=
  match s1, s2 with
  | None, None => True
  | Some s1, Some s2 =>
      pressed s1 = pressed s2
      /\ (pressed s1 = true ->
          forall n, (from <= n)%nat ->
            clk1 n - press_time s1 = clk2 n - press_time s2)
  | _, _ => False
  end.

(** Two processors with the same configuration, axes and smoothing
    attributes. *)
Definition same_settings (p1 p2 : KeyboardProcessor) : Prop :=
  config p1 = config p2
  /\ steering_value p1 = steering_value p2
  /\ throttle_value p1 = throttle_value p2
  /\ brake_value p1 = brake_value p2
  /\ steering_smoothing p1 = steering_smoothing p2
  /\ pedal_smoothing p1 = pedal_smoothing p2.

(** Two worlds that differ at most in the absolute times of their key
    states: the same keys are tracked and held, with the same hold times
    under the two clocks. *)
Definition same_holds (clk1 clk2 : nat -> R) (w1 w2 : W) : Prop :=
  reads w1 = reads w2
  /\ same_settings (self w1) (self w2)
  /\ forall key,
       same_hold clk1 clk2 (reads w1)
         (key_states (self w1) !! key) (key_states (self w2) !! key).

(** The accelerator [w] held since the clock read [t]. *)
Definition throttle_held_since (t : R) : W :=
  mkWorld
    (mkKeyboardProcessor ∅
       (<["w" := mkKeyState true t 0 0 0]> scenario.default_key_states) 0 0 0 0.8 0.7)
    0 nil.

End hold_times.


(** ** Frames and idle keys of the keyboard processor *)

Module processor_frames.

Import keyboard_processor scenario.

(** What no method of the processor but the key handlers may change: the
    configuration, the key-state table, the two smoothing attributes and
    the log. *)
Definition frame (w w' : W) : Prop :=
  config (self w') = config (self w)
  /\ key_states (self w') = key_states (self w)
  /\ steering_smoothing (self w') = steering_smoothing (self w)
  /\ pedal_smoothing (self w') = pedal_smoothing (self w)
  /\ trace w' = trace w
  /\ (reads w <= reads w')%nat.

(** A computation that keeps the frame, whether it returns or raises. *)
Definition preserves {A} (m : M W A) : Prop :=
  forall w, frame w (snd (m w)).

(** The binding [k] can be looked up and names no key that is currently
    held (a key that is tracked and released, or no tracked key at all). *)
Definition key_idle (p : KeyboardProcessor) (k : pyval) : Prop :=
  match k with
  | PStr name =>
      match key_states p !! name with
      | Some state => pressed state = false
      | None => True
      end
  | PList _ | PDict _ => False
  | _ => True
  end.

(** Neither steer key of the configuration is held. *)
Definition steer_keys_idle (p : KeyboardProcessor) : Prop :=
  forall steering,
    dict_get (config p) "steering" (PDict ∅) = PDict steering ->
    key_idle p (dict_get steering "left_key" (PStr "a"))
    /\ key_idle p (dict_get steering "right_key" (PStr "d")).

(** What a tick with released steer keys needs, and keeps. *)
Definition ready (w : W) : Prop :=
  config_in_range (config (self w))
  /\ smoothing_in_range (self w)
  /\ steer_keys_idle (self w).

(** [n] successive calls of [update(dt)]; a call that raises ends them. *)
Fixpoint updates (clk : nat -> R) (n : nat) (delta_time : R) : M W unit :=
  match n with
  | O => ret tt
  | S n' => update clk delta_time >> updates clk n' delta_time
  end.

(** A default processor with steering at 1.0 and neither steer key held,
    while the accelerator has been held since the clock read 0. *)
Definition off_centre_world : W :=
  mkWorld
    (mkKeyboardProcessor ∅
       (<["w" := mkKeyState true 0 0 0 0]> default_key_states) 1 0 0 0.8 0.7)
    0 nil.

End processor_frames.

(** ** An idle keyboard *)

Module idle_keyboard.

Import keyboard_processor.

(** No key of the table is held. *)
Definition all_released (p : KeyboardProcessor) : Prop :=
  forall name state, key_states p !! name = Some state -> pressed state = false.

(** Two runs are at the same world, which has made [n] clock reads and
    holds no key. *)
Definition idle_at (n : nat) (w1 w2 : W) : Prop :=
  w1 = w2 /\ reads w1 = n /\ all_released (self w1).

Definition idle_processor (p1 p2 : KeyboardProcessor) : Prop :=
  p1 = p2 /\ all_released p1.

End idle_keyboard.

(** ** More configurations *)

Module construction_scenario.

(** A keyboard configuration file that rebinds steering to j and l and the
    accelerator to i, and leaves the brake at its default. *)
Definition custom_controls_config : gmap string pyval :=
  {[ "keyboard_controls" :=
       PDict (<["steering" :=
                  PDict (<["left_key" := PStr "j"]> {[ "right_key" := PStr "l" ]})]>
              {[ "acceleration" := PDict {[ "accelerate_key" := PStr "i" ]} ]}) ]}.

(** A configuration whose [keyboard_controls] is a string. *)
Definition broken_controls_config : gmap string pyval :=
  {[ "keyboard_controls" := PStr "default" ]}.

End construction_scenario.

(** ** input_manager.py: from the processor to axis values *)

Module input_manager_axes.

Import input_manager.

(** [32768 // 2] and [32767] *)
Definition CENTER : Z := (32768 / 2)%Z.
Definition MAX_AXIS : Z := 32767%Z.

(** [int(x)] on a float: truncation toward zero. *)
Definition py_int (x : R) : Z :=
  if Rle_dec 0 x then Int_part x else (- Int_part (- x))%Z.

(** The exception [d[key]] raises for a missing key. *)
Definition KeyError (key : string) : exn := Exception ("KeyError: " ++ key).

(** [d[key]] *)
Definition get_item {V} (d : gmap string V) (key : string) : res V :=
  match d !! key with
  | Some v => Ok v
  | None => Raise (KeyError key)
  end.

(** [KeyboardProcessor.get_inputs], as the dictionary it returns. *)
Definition get_inputs_dict (p : keyboard_processor.KeyboardProcessor) : gmap string R :=
  <["steering" := keyboard_processor.steering_value p]>
    (<["throttle" := keyboard_processor.throttle_value p]>
       {[ "brake" := keyboard_processor.brake_value p ]}).

(** [max(0, min(MAX_AXIS, int(CENTER + steering * CENTER)))] *)
Definition steering_axis (steering : R) : Z :=
  Z.max 0 (Z.min MAX_AXIS (py_int (IZR CENTER + steering * IZR CENTER))).

(** [int(v * MAX_AXIS)] *)
Definition pedal_axis (v : R) : Z := py_int (v * IZR MAX_AXIS).

Definition axis_dict (steering throttle brake : Z) : gmap string Z :=
  <["steering" := steering]> (<["throttle" := throttle]> {[ "brake" := brake ]}).

Definition _convert_to_axis_values (inputs : gmap string R) : M W (gmap string Z) :=
  try_except
    (let! s := lift (get_item inputs "steering") in
     let steering := steering_axis s in
     let! t := lift (get_item inputs "throttle") in
     let throttle := pedal_axis t in
     let! b := lift (get_item inputs "brake") in
     let brake := pedal_axis b in
     ret (axis_dict steering throttle brake))
    (fun e =>
       emit (LogError "Error converting input values" e) >>
       ret (axis_dict CENTER 0 0)).

(** [_apply_axis_values]; [move x] is what the call of
    [pydirectinput.moveRel] for the steering axis value [x] does (return
    or raise). Throttle and brake are not applied. *)
Definition _apply_axis_values (move : Z -> res unit) (axis_values : gmap string Z)
  : M W unit :=
  try_except
    (let! s := lift (get_item axis_values "steering") in
     lift (move s))
    (fun e => emit (LogError "Error applying axis values" e)).

(** A method call on [self.keyboard_processor]: the processor is mutated
    in place, under the same clock; [None] has no methods. *)
Definition on_processor {A} (m : M keyboard_processor.W A) : M W A :=
  fun w =>
    match keyboard_processor (self w) with
    | None => (Raise AttributeError, w)
    | Some kp =>
        let (r, kw) := m (mkWorld kp (reads w) (trace w)) in
        (r, mkWorld (set_keyboard_processor (Some (self kw)) (self w))
              (reads kw) (trace kw))
    end.

Section WithClock.

Variable clk : nat -> R.

(** The first three statements of [_process_keyboard_input]: update,
    [get_inputs], conversion; the result is the pair of [inputs] and
    [axis_values]. *)
Definition keyboard_axis_values (delta_time : R)
  : M W (gmap string R * gmap string Z) :=
  on_processor (keyboard_processor.update clk delta_time) >>
  let! inputs := on_processor (let! p := get_self in ret (get_inputs_dict p)) in
  let! axis_values := _convert_to_axis_values inputs in
  ret (inputs, axis_values).

(** [_process_keyboard_input]. [self.keyboard_visualizer] is [None]
    unless the application attaches one from outside: [visualize] is
    [None] in the first case and otherwise what the visualizer's [update]
    does with the inputs (return or raise). *)
Definition _process_keyboard_input (move : Z -> res unit)
  (visualize : option (gmap string R -> res unit)) (delta_time : R) : M W unit :=
  try_except
    (let! values := keyboard_axis_values delta_time in
     _apply_axis_values move (snd values) >>
     match visualize with
     | Some draw => lift (draw (fst values))
     | None => ret tt
     end)
    (fun e => emit (LogError "Error processing keyboard input" e)).

End WithClock.

Definition _process_wheel_input (delta_time : R) : M W unit := ret tt.

(** An input manager holding the processor of [throttle_held_world]. *)
Definition driving_manager : W :=
  mkWorld
    (mkInputManager ∅ (Some (self scenario.throttle_held_world)) true) 0 nil.

End input_manager_axes.

(** ** input_controller.py *)

Module input_controller.

Import input_device_manager.

Record InputController := mkInputController {
  device_manager : InputDeviceManager;
  keyboard_processor : option keyboard_processor.KeyboardProcessor;
  keyboard_visualizer : bool;
  last_update_time : R;
  running : bool
}.

Definition W : Type := World InputController log_entry.

Definition set_keyboard_processor
  (kp : option keyboard_processor.KeyboardProcessor) (c : InputController) :=
  mkInputController (device_manager c) kp (keyboard_visualizer c)
    (last_update_time c) (running c).

Definition set_keyboard_visualizer (v : bool) (c : InputController) :=
  mkInputController (device_manager c) (keyboard_processor c) v
    (last_update_time c) (running c).

Definition set_last_update_time (t : R) (c : InputController) :=
  mkInputController (device_manager c) (keyboard_processor c) (keyboard_visualizer c)
    t (running c).

(** [KeyboardProcessor(config)] for whatever the configuration file held:
    a value that is not a dictionary has no [get]. *)
Definition KeyboardProcessor (config : pyval) : res keyboard_processor.KeyboardProcessor :=
  match config with
  | PDict d => keyboard_processor.__init__ d
  | _ => Raise AttributeError
  end.

(** The GUI handed to the controller: without a [notebook] attribute, or
    with one. In the second case [create] is what building the tab's frame
    and the [KeyboardVisualizer] does, before the visualizer is assigned,
    and [attach] what adding the tab to the notebook and configuring its
    grid does, after the assignment (each returns or raises). *)
Inductive gui :=
| NoNotebook
| Notebook (create attach : res unit).

Definition _init_keyboard_support (g : gui) : M W unit :=
  try_except
    (let! c := get_self in
     let config := keyboard_config (device_manager c) in
     let! kp := lift (KeyboardProcessor config) in
     set_self (set_keyboard_processor (Some kp)) >>
     (match g with
      | NoNotebook => ret tt
      | Notebook create attach =>
          lift create >>
          set_self (set_keyboard_visualizer true) >>
          lift attach
      end) >>
     emit (LogInfo "Keyboard support initialized successfully"))
    (fun e =>
       emit (LogError "Error initializing keyboard support" e) >>
       raise e).

(** A method call on [self.keyboard_processor], mutated in place. *)
Definition on_processor {A} (m : M keyboard_processor.W A) : M W A :=
  fun w =>
    match keyboard_processor (self w) with
    | None => (Raise AttributeError, w)
    | Some kp =>
        let (r, kw) := m (mkWorld kp (reads w) (trace w)) in
        (r, mkWorld (set_keyboard_processor (Some (self kw)) (self w))
              (reads kw) (trace kw))
    end.

Section WithClock.

Variable clk : nat -> R.

(** One pass of the body of [_update_loop]; [visualize] is what
    [keyboard_visualizer.update(inputs)] does when there is a visualizer.
    [_apply_inputs] applies nothing. *)
Definition update_iteration (visualize : res unit) : M W unit :=
  try_except
    (let! current_time := time_time clk in
     let! c := get_self in
     let delta_time := current_time - last_update_time c in
     set_self (set_last_update_time current_time) >>
     let device := current_device (device_manager c) in
     if decide (device = KEYBOARD) then
       match keyboard_processor c with
       | Some _ =>
           on_processor (keyboard_processor.update clk delta_time) >>
           (if keyboard_visualizer c then lift visualize else ret tt)
       | None => ret tt
       end
     else ret tt)
    (fun e => emit (LogError "Error in input update loop" e)).

End WithClock.

(** A controller whose device manager found no configuration file,
    before keyboard support is initialised. *)
Definition bare_controller (device : InputDevice) : W :=
  mkWorld
    (mkInputController
       (mkInputDeviceManager device nil 0 0 0.5 _get_default_keyboard_config true)
       None false 0 true)
    0 nil.

(** The processor the default configuration builds. *)
Definition default_controls_processor : keyboard_processor.KeyboardProcessor :=
  keyboard_processor.mkKeyboardProcessor
    (<["steering" :=
         PDict (<["left_key" := PStr "a"]> (<["right_key" := PStr "d"]>
               (<["gradual_turn" := PBool true]> {[ "turn_speed" := PNum 0.5 ]})))]>
       {[ "acceleration" :=
            PDict (<["accelerate_key" := PStr "w"]> (<["brake_key" := PStr "s"]>
                  {[ "progressive_acceleration" := PBool true ]})) ]})
    scenario.default_key_states 0 0 0 0.8 0.7.

End input_controller.
(** ** Runs under a clock that never goes back *)

Module bounded_runs.

Import keyboard_processor scenario.

(** A clock that never goes back. *)
Definition nondecreasing (clk : nat -> R) : Prop :=
  forall m n, (m <= n)%nat -> clk m <= clk n.

(** Every tick of the sequence has [dt >= 0]. *)
Definition ticks_nonneg (inputs : list input) : Prop :=
  forall dt, In (Tick dt) inputs -> 0 <= dt.

(** The number of ticks in a sequence of inputs. *)
Fixpoint ticks (inputs : list input) : nat :=
  match inputs with
  | nil => O
  | Tick _ :: rest => S (ticks rest)
  | _ :: rest => ticks rest
  end.

(** A (steering, throttle, brake) triple within the declared bounds. *)
Definition in_bounds (axes : R * R * R) : Prop :=
  -1 <= fst (fst axes) <= 1
  /\ 0 <= snd (fst axes) <= 1
  /\ 0 <= snd axes <= 1.

(** What a run keeps: a configuration and smoothing attributes in range,
    no held key pressed later than the readings to come, and the axes
    within their bounds. *)
Definition bounded (clk : nat -> R) (w : W) : Prop :=
  config_in_range (config (self w))
  /\ smoothing_in_range (self w)
  /\ presses_before clk w
  /\ axes_in_bounds (self w).

(** Pressing the accelerator, two ticks, steering left, a tick, letting the
    accelerator go, a tick. *)
Definition short_drive : list input :=
  KeyDown "w" :: Tick (1 / 60) :: Tick (1 / 60) :: KeyDown "a" :: Tick (1 / 60)
  :: KeyUp "w" :: Tick (1 / 60) :: nil.

End bounded_runs.

(** * Properties *)

(** ** Real-number facts used below *)

Lemma exp_le_mono (x y : R) : x <= y -> exp x <= exp y.
Proof.
  intros [Hlt | ->].
  - left. now apply exp_increasing.
  - right. reflexivity.
Qed.

Lemma exp_neg_unit (h : R) : 0 <= h -> 0 < exp (- h * 2) <= 1.
Proof.
  intros Hh. split.
  - apply exp_pos.
  - rewrite <- exp_0. apply exp_le_mono. lra.
Qed.

Lemma Rpower_unit (s e : R) : 0 < s < 1 -> 0 < e -> 0 < Rpower s e < 1.
Proof.
  intros [Hs0 Hs1] He. unfold Rpower. split.
  - apply exp_pos.
  - rewrite <- exp_0. apply exp_increasing.
    assert (Hln : ln s < 0).
    { rewrite <- ln_1. now apply ln_increasing. }
    nra.
Qed.

Lemma Rpower_unit_le (s e : R) : 0 < s < 1 -> 0 <= e -> 0 < Rpower s e <= 1.
Proof.
  intros Hs [He | <-].
  - destruct (Rpower_unit s e Hs He). lra.
  - rewrite Rpower_O by lra. lra.
Qed.

(** ** The hold curve and the smoothing step *)

Section Shaping.

Import keyboard_processor scenario.

Lemma hold_curve_eq (h : R) : 0 <= h -> hold_curve h = 1 - exp (- h * 2).
Proof.
  intros Hh. unfold hold_curve. cbv zeta.
  destruct (exp_neg_unit h Hh) as [Hpos _].
  apply Rmin_right. lra.
Qed.

(** The smoothing step with a factor in (0,1) and a positive tick. *)
Lemma smooth_value_unit (c t s dt : R) :
  0 < s -> 0 <= dt ->
  _smooth_value c t (PNum s) dt =
    Ok (if Rlt_dec (Rabs (t - c)) 0.001 then t
        else c + (t - c) * (1 - Rpower s (dt * 60))).
Proof.
  intros Hs Hdt. unfold _smooth_value.
  destruct (Rlt_dec (Rabs (t - c)) 0.001); [reflexivity |].
  cbn. unfold math_pow. destruct (Rlt_dec 0 s); [reflexivity | lra].
Qed.

Lemma smooth_value_at_target (t : R) (s : pyval) (dt : R) :
  _smooth_value t t s dt = Ok t.
Proof.
  unfold _smooth_value.
  destruct (Rlt_dec (Rabs (t - t)) 0.001) as [_ | Hn]; [reflexivity |].
  exfalso. apply Hn. replace (t - t) with 0 by lra. rewrite Rabs_R0. lra.
Qed.

(** The result of a step lies between the current value and the target. *)
Lemma smooth_value_between (c t s dt c' : R) :
  0 < s < 1 -> 0 <= dt ->
  _smooth_value c t (PNum s) dt = Ok c' ->
  Rmin c t <= c' <= Rmax c t.
Proof.
  intros Hs Hdt. rewrite smooth_value_unit by lra.
  intros [= <-].
  assert (Hq : 0 < Rpower s (dt * 60) <= 1) by (apply Rpower_unit_le; lra).
  unfold Rmin, Rmax.
  destruct (Rlt_dec (Rabs (t - c)) 0.001); destruct (Rle_dec c t); try nra.
Qed.

End Shaping.

(** ** Assists *)

Section Assists.

Import keyboard_processor.

Ltac run_monad :=
  unfold bind, get_self, set_self, modify, lift, ret; cbn [self reads trace fst snd].

Lemma apply_counter_steer_eq (w : W) (a : gmap string pyval) (cs : R) :
  dict_get (config (self w)) "assists" (PDict ∅) = PDict a ->
  as_float (dict_get a "counter_steer_strength" (PNum 0.5)) = Ok cs ->
  _apply_counter_steer w =
    (Ok tt,
     mkWorld
       (set_steering_value
          (if Rlt_dec 0.8 (Rabs (steering_value (self w))) then
             if Rlt_dec 0.7 (throttle_value (self w))
             then steering_value (self w) * (1 - cs)
             else steering_value (self w)
           else steering_value (self w)) (self w))
       (reads w) (trace w)).
Proof.
  intros Ha Hcs. destruct w as [p r tr]. unfold _apply_counter_steer. run_monad.
  cbn [self] in Ha. rewrite Ha. cbn [py_get]. rewrite Hcs.
  destruct p; cbn.
  destruct (Rlt_dec 0.8 _); [destruct (Rlt_dec 0.7 _) |]; reflexivity.
Qed.

Lemma apply_anti_spin_eq (w : W) (a : gmap string pyval) (sp : R) :
  dict_get (config (self w)) "assists" (PDict ∅) = PDict a ->
  as_float (dict_get a "spin_prevention" (PNum 0.6)) = Ok sp ->
  _apply_anti_spin w =
    (Ok tt,
     mkWorld
       (set_throttle_value
          (if Rlt_dec 0.6 (Rabs (steering_value (self w))) then
             if Rlt_dec 0.8 (throttle_value (self w))
             then throttle_value (self w) * (1 - sp)
             else throttle_value (self w)
           else throttle_value (self w)) (self w))
       (reads w) (trace w)).
Proof.
  intros Ha Hsp. destruct w as [p r tr]. unfold _apply_anti_spin. run_monad.
  cbn [self] in Ha. rewrite Ha. cbn [py_get]. rewrite Hsp.
  destruct p; cbn.
  destruct (Rlt_dec 0.6 _); [destruct (Rlt_dec 0.8 _) |]; reflexivity.
Qed.

(** Both assists enabled: counter-steer runs first and anti-spin then reads
    the attributes counter-steer has left. *)
Lemma apply_assists_eq (w : W) (a : gmap string pyval) (cs sp : R) :
  dict_get (config (self w)) "assists" (PDict ∅) = PDict a ->
  truthy (dict_get a "counter_steer_assist" (PBool true)) = true ->
  truthy (dict_get a "anti_spin_assist" (PBool true)) = true ->
  as_float (dict_get a "counter_steer_strength" (PNum 0.5)) = Ok cs ->
  as_float (dict_get a "spin_prevention" (PNum 0.6)) = Ok sp ->
  exists w1,
    _apply_counter_steer w = (Ok tt, w1)
    /\ _apply_assists w = _apply_anti_spin w1
    /\ config (self w1) = config (self w)
    /\ throttle_value (self w1) = throttle_value (self w).
Proof.
  intros Ha Hf1 Hf2 Hcs Hsp.
  eexists. split; [apply (apply_counter_steer_eq w a cs Ha Hcs) |].
  split; [| split; reflexivity].
  unfold _apply_assists. run_monad. rewrite Ha. cbn [py_get]. rewrite Hf1.
  rewrite (apply_counter_steer_eq w a cs Ha Hcs). rewrite Hf2. reflexivity.
Qed.

(** C1 (as the code has it). With both assists enabled, the anti-spin
    trigger is evaluated against the steering value the counter-steer assist
    has already reduced. For every shaped pair with pre-assist
    [|steering| > 0.8] and [throttle > 0.8], steering becomes
    [steering * (1 - counter_steer_strength)], and in that same tick the
    throttle is scaled by [(1 - spin_prevention)] when
    [|steering * (1 - counter_steer_strength)| > 0.6] and is left unchanged
    otherwise. *)
Theorem anti_spin_uses_reduced_steering (w : W) (a : gmap string pyval) (cs sp : R) :
  dict_get (config (self w)) "assists" (PDict ∅) = PDict a ->
  truthy (dict_get a "counter_steer_assist" (PBool true)) = true ->
  truthy (dict_get a "anti_spin_assist" (PBool true)) = true ->
  as_float (dict_get a "counter_steer_strength" (PNum 0.5)) = Ok cs ->
  as_float (dict_get a "spin_prevention" (PNum 0.6)) = Ok sp ->
  Rabs (steering_value (self w)) > 0.8 ->
  throttle_value (self w) > 0.8 ->
  exists w',
    _apply_assists w = (Ok tt, w')
    /\ steering_value (self w') = steering_value (self w) * (1 - cs)
    /\ (Rabs (steering_value (self w) * (1 - cs)) > 0.6 ->
        throttle_value (self w') = throttle_value (self w) * (1 - sp))
    /\ (~ Rabs (steering_value (self w) * (1 - cs)) > 0.6 ->
        throttle_value (self w') = throttle_value (self w)).
Proof.
  intros Ha Hf1 Hf2 Hcs Hsp Hst Hth.
  destruct (apply_assists_eq w a cs sp Ha Hf1 Hf2 Hcs Hsp)
    as (w1 & Hw1 & -> & Hcfg & Hthr).
  rewrite (apply_counter_steer_eq w a cs Ha Hcs) in Hw1.
  injection Hw1 as <-.
  rewrite (apply_anti_spin_eq _ a sp) by (cbn; assumption).
  eexists. split; [reflexivity |].
  destruct w as [[c ks st th br ss ps] r tr]. cbn in *.
  destruct (Rlt_dec 0.8 (Rabs st)); [| lra].
  destruct (Rlt_dec 0.7 th); [| lra].
  split; [reflexivity |].
  destruct (Rlt_dec 0.6 (Rabs (st * (1 - cs)))).
  - destruct (Rlt_dec 0.8 th); [| lra]. split; [reflexivity | intros Hn; lra].
  - split; [intros Hy; lra | reflexivity].
Qed.

End Assists.

Section AssistsExamples.

Import keyboard_processor scenario.

Lemma anti_spin_uses_reduced_steering_witness :
  exists w',
    _apply_assists mild_counter_steer_world = (Ok tt, w')
    /\ steering_value (self w') = 0.9 * (1 - 0.2)
    /\ (Rabs (0.9 * (1 - 0.2)) > 0.6 -> throttle_value (self w') = 0.85 * (1 - 0.6))
    /\ (~ Rabs (0.9 * (1 - 0.2)) > 0.6 -> throttle_value (self w') = 0.85).
Proof.
  apply (anti_spin_uses_reduced_steering mild_counter_steer_world
           {[ "counter_steer_strength" := PNum 0.2 ]} 0.2 0.6).
  - reflexivity.
  - reflexivity.
  - reflexivity.
  - reflexivity.
  - reflexivity.
  - simpl. rewrite Rabs_right; lra.
  - simpl. lra.
Defined.

(** C1 fails as stated: with the default strengths, steering 0.9 and
    throttle 0.85 satisfy the pre-assist condition, yet the throttle is not
    scaled, because anti-spin tests the steering that counter-steer has
    already brought down to 0.45. *)
Lemma anti_spin_pre_assist_counterexample :
  Rabs (steering_value (self committed_world)) > 0.8
  /\ throttle_value (self committed_world) > 0.8
  /\ exists w',
       _apply_assists committed_world = (Ok tt, w')
       /\ steering_value (self w') = 0.45
       /\ throttle_value (self w') = 0.85
       /\ throttle_value (self w') <> 0.85 * (1 - 0.6).
Proof.
  split; [simpl; rewrite Rabs_right; lra |].
  split; [simpl; lra |].
  destruct (apply_assists_eq committed_world ∅ 0.5 0.6)
    as (w1 & Hw1 & -> & _ & _); try reflexivity.
  rewrite (apply_counter_steer_eq committed_world ∅ 0.5) in Hw1 by reflexivity.
  injection Hw1 as <-.
  rewrite (apply_anti_spin_eq _ ∅ 0.6) by reflexivity.
  eexists. split; [reflexivity |]. cbn.
  assert (H09 : Rabs 0.9 = 0.9) by (rewrite Rabs_right; lra).
  destruct (Rlt_dec 0.8 (Rabs 0.9)); [| lra].
  destruct (Rlt_dec 0.7 0.85); [| lra].
  assert (H45 : Rabs (0.9 * (1 - 0.5)) = 0.45) by (rewrite Rabs_right; lra).
  destruct (Rlt_dec 0.6 (Rabs (0.9 * (1 - 0.5)))); [lra |].
  repeat split; lra.
Qed.

End AssistsExamples.

(** ** Key-hold tracker *)

Section KeyHold.

Import keyboard_processor scenario.

Variable clk : nat -> R.

Lemma key_released_eq (w : W) (key : string) (state : KeyState) :
  key_states (self w) !! key = Some state ->
  _key_released clk key w =
    (Ok tt,
     mkWorld
       (set_key_states
          (<[key := mkKeyState false (press_time state) (clk (reads w))
                       (clk (reads w) - press_time state) (value state)]>
             (key_states (self w)))
          (self w))
       (S (reads w)) (trace w)).
Proof.
  intros Hk. unfold _key_released, bind, get_self, time_time, set_self, modify.
  rewrite Hk. reflexivity.
Qed.

(** A key-up event on a tracked key rewrites that key's state whether or
    not the key is pressed: it sets [pressed = false], [release_time = now]
    and [hold_duration = now - press_time], keeping [press_time]; the
    states of the other keys, the configuration and the axes are left
    unchanged. *)
Lemma key_released_unconditional (w : W) (key : string) (state : KeyState) :
  key_states (self w) !! key = Some state ->
  exists w',
    _key_released clk key w = (Ok tt, w')
    /\ key_states (self w') !! key =
         Some (mkKeyState false (press_time state) (clk (reads w))
                 (clk (reads w) - press_time state) (value state))
    /\ (forall key', key' <> key ->
          key_states (self w') !! key' = key_states (self w) !! key')
    /\ config (self w') = config (self w)
    /\ get_inputs (self w') = get_inputs (self w).
Proof.
  intros Hk. rewrite (key_released_eq w key state Hk).
  eexists. split; [reflexivity |]. cbn.
  split; [apply lookup_insert_eq |].
  split; [| split; reflexivity].
  intros key' Hne. apply lookup_insert_ne. congruence.
Qed.

End KeyHold.

Section KeyHoldExamples.

Import keyboard_processor scenario.

(** C9 (a defect of the code). [_key_released] lacks the guard that its
    sibling [_key_pressed] has ([if not state.pressed]): a key-up event for
    the tracked key [a], which was never pressed, at clock reading 5
    rewrites its state, recording [release_time = 5] and
    [hold_duration = 5 - 0], where the claim leaves the state of a key that
    is not pressed unchanged. *)
Theorem key_up_on_unpressed_key_rewrites_state :
  (exists state, key_states (self fresh_world) !! "a" = Some state
                 /\ pressed state = false)
  /\ exists w',
       _key_released (clock_at 5) "a" fresh_world = (Ok tt, w')
       /\ key_states (self w') !! "a" = Some (mkKeyState false 0 5 (5 - 0) 0)
       /\ key_states (self w') !! "a" <> key_states (self fresh_world) !! "a".
Proof.
  split; [exists KeyState0; split; reflexivity |].
  rewrite (key_released_eq (clock_at 5) fresh_world "a" KeyState0) by reflexivity.
  eexists. split; [reflexivity |]. cbn.
  rewrite lookup_insert_eq. split; [reflexivity |].
  change (default_key_states !! "a") with (Some KeyState0).
  unfold clock_at, KeyState0. intros [= H5 _]. lra.
Qed.

End KeyHoldExamples.

(** ** Input manager: the processor it builds *)

Section InputManager.

Import scenario.

Lemma init_empty_config : keyboard_processor.__init__ ∅ = Ok default_processor.
Proof. reflexivity. Qed.

(** The dictionary the input manager builds has no [keyboard_controls]. *)
Lemma keyboard_config_has_no_controls (cfg kc : gmap string pyval) :
  input_manager.keyboard_config_of cfg = Ok kc ->
  dict_get kc "keyboard_controls" (PDict ∅) = PDict ∅.
Proof.
  unfold input_manager.keyboard_config_of.
  destruct (py_get _ "steer_left" _); [| discriminate].
  destruct (py_get _ "steer_right" _); [| discriminate].
  destruct (py_get _ "throttle" _); [| discriminate].
  destruct (py_get _ "brake" _); [| discriminate].
  intros [= <-]. unfold dict_get.
  rewrite !lookup_insert_ne by discriminate.
  rewrite lookup_singleton_ne by discriminate. reflexivity.
Qed.

Lemma keyboard_config_builds_default (cfg kc : gmap string pyval) :
  input_manager.keyboard_config_of cfg = Ok kc ->
  keyboard_processor.__init__ kc = Ok default_processor.
Proof.
  intros Hkc. unfold keyboard_processor.__init__.
  rewrite (keyboard_config_has_no_controls cfg kc Hkc). reflexivity.
Qed.

(** [_init_keyboard_support] installs the default processor when the key
    bindings are a dictionary and keeps the previous one otherwise. *)
Lemma init_keyboard_support_processor (w : input_manager.W) :
  input_manager.keyboard_processor (self (snd (input_manager._init_keyboard_support w))) =
    match dict_get (input_manager.config (self w)) "key_bindings"
            (PDict input_manager.default_bindings) with
    | PDict _ => Some default_processor
    | _ => input_manager.keyboard_processor (self w)
    end
  /\ fst (input_manager._init_keyboard_support w) = Ok tt
  /\ input_manager.config (self (snd (input_manager._init_keyboard_support w))) =
       input_manager.config (self w).
Proof.
  unfold input_manager._init_keyboard_support, try_except, bind, get_self, lift,
    set_self, emit, modify.
  destruct (input_manager.keyboard_config_of (input_manager.config (self w)))
    as [kc | e] eqn:Hkc.
  - rewrite (keyboard_config_builds_default _ kc Hkc). cbn.
    unfold input_manager.keyboard_config_of in Hkc.
    destruct (dict_get _ "key_bindings" _); try discriminate. auto.
  - cbn. unfold input_manager.keyboard_config_of in Hkc.
    destruct (dict_get _ "key_bindings" _); try discriminate; auto.
Qed.


End InputManager.

(** ** Device arbitrator *)

Section Arbitrator.

Import input_device_manager arbitration_scenario.

(** One listener: called with the current device; a raise is logged and
    does not leave the [try]. *)
Lemma notify_one (callback : Callback) (w : W) :
  try_except
    (let! m' := get_self in
     emit (Invoked (cb_name callback) (current_device m')) >>
     lift (cb_call callback (current_device m')))
    (fun e => emit (Log (LogError "Error in device change callback" e))) w =
  (Ok tt,
   mkWorld (self w) (reads w)
     (trace w ++ notifications (current_device (self w)) (callback :: nil))).
Proof.
  unfold try_except, bind, get_self, emit, modify, lift, notifications. cbn.
  destruct (cb_call callback (current_device (self w))) as [[] | e]; cbn.
  - reflexivity.
  - rewrite <- app_assoc. reflexivity.
Qed.

Lemma notify_loop (callbacks : list Callback) (w : W) :
  for_each callbacks (fun callback =>
    try_except
      (let! m' := get_self in
       emit (Invoked (cb_name callback) (current_device m')) >>
       lift (cb_call callback (current_device m')))
      (fun e => emit (Log (LogError "Error in device change callback" e)))) w =
  (Ok tt,
   mkWorld (self w) (reads w)
     (trace w ++ notifications (current_device (self w)) callbacks)).
Proof.
  revert w. induction callbacks as [| callback callbacks IH]; intros w.
  - cbn. unfold ret. rewrite app_nil_r. destruct w; reflexivity.
  - cbn [for_each]. unfold bind at 1. rewrite notify_one.
    rewrite IH. cbn [self reads trace].
    rewrite <- app_assoc. do 3 f_equal.
    unfold notifications. cbn [flat_map]. now rewrite app_nil_r.
Qed.

Lemma notify_device_changed_eq (w : W) :
  _notify_device_changed w =
    (Ok tt,
     mkWorld (self w) (reads w)
       (trace w ++
        notifications (current_device (self w)) (device_changed_callbacks (self w)))).
Proof.
  unfold _notify_device_changed. unfold bind at 1, get_self at 1.
  apply notify_loop.
Qed.

Lemma register_callbacks (callbacks : list Callback) (w : W) :
  for_each callbacks register_device_changed_callback w =
    (Ok tt,
     mkWorld (set_callbacks (device_changed_callbacks (self w) ++ callbacks) (self w))
       (reads w) (trace w)).
Proof.
  revert w. induction callbacks as [| callback callbacks IH]; intros w.
  - cbn. unfold ret. rewrite app_nil_r. destruct w as [[] ? ?]; reflexivity.
  - cbn [for_each]. unfold bind, register_device_changed_callback at 1, set_self, modify.
    rewrite IH. cbn. rewrite <- app_assoc. reflexivity.
Qed.

(** [fresh_manager] is what construction followed by registration gives. *)
Lemma fresh_manager_registered (callbacks : list Callback) :
  for_each callbacks register_device_changed_callback (__init__ Missing) =
    (Ok tt, fresh_manager callbacks).
Proof. rewrite register_callbacks. reflexivity. Qed.

Lemma invocations_app (tr1 tr2 : list event) :
  invocations (tr1 ++ tr2) = invocations tr1 ++ invocations tr2.
Proof.
  induction tr1 as [| [l | name d] tr1 IH]; cbn; [reflexivity | exact IH |].
  now rewrite IH.
Qed.

Lemma invocations_notifications (d : InputDevice) (callbacks : list Callback) :
  invocations (notifications d callbacks) =
    map (fun callback => (cb_name callback, d)) callbacks.
Proof.
  unfold notifications.
  induction callbacks as [| callback callbacks IH]; [reflexivity |].
  cbn [flat_map map]. rewrite invocations_app, IH.
  destruct (cb_call callback d); reflexivity.
Qed.

(** C10. Whatever the registered listeners do, notification itself never
    raises: every listener, in registration order, is called exactly once
    with the current device, also after an earlier listener has raised; each
    raise is logged; and the manager is left as it was, so [current_device]
    keeps its newly assigned value and the callback list is unchanged. *)
Theorem notify_isolates_listener_errors (w : W) :
  exists w',
    _notify_device_changed w = (Ok tt, w')
    /\ self w' = self w
    /\ trace w' =
         trace w ++
         notifications (current_device (self w)) (device_changed_callbacks (self w))
    /\ invocations (trace w') =
         invocations (trace w) ++
         map (fun callback => (cb_name callback, current_device (self w)))
           (device_changed_callbacks (self w))
    /\ (forall callback e,
          In callback (device_changed_callbacks (self w)) ->
          cb_call callback (current_device (self w)) = Raise e ->
          In (Log (LogError "Error in device change callback" e)) (trace w')).
Proof.
  rewrite notify_device_changed_eq. eexists. split; [reflexivity |].
  cbn [self trace]. split; [reflexivity |]. split; [reflexivity |].
  split; [now rewrite invocations_app, invocations_notifications |].
  intros callback e Hin Hraise. apply in_or_app. right.
  unfold notifications. apply in_flat_map. exists callback. split; [exact Hin |].
  rewrite Hraise. right. left. reflexivity.
Qed.

End Arbitrator.

Section ArbitratorStep.

Import input_device_manager arbitration_scenario.

Variable clk : nat -> R.

Lemma detection_step_eq (is_pressed : string -> res bool) (any_key : bool) (w : W) :
  any_pressed is_pressed monitored = Ok any_key ->
  detection_step clk is_pressed w =
    (Ok tt,
     if decide (device_of clk any_key w = current_device (self w)) then
       mkWorld (sampled clk any_key w) (S (if any_key then S (reads w) else reads w))
         (trace w)
     else
       mkWorld (set_current_device (device_of clk any_key w) (sampled clk any_key w))
         (S (if any_key then S (reads w) else reads w))
         (trace w ++
          notifications (device_of clk any_key w) (device_changed_callbacks (self w)) ++
          Log (LogInfo ("Input device changed to: " ++ device_value (device_of clk any_key w)))
          :: nil)).
Proof.
  intros Hany. unfold detection_step, try_except.
  unfold bind at 1. unfold lift at 1. rewrite Hany.
  unfold device_of, now_of, sampled.
  destruct w as [m r tr]. destruct any_key;
    unfold bind at 1; unfold _check_wheel_activity;
    cbn [bind time_time set_self modify ret get_self self reads trace fst snd
         last_keyboard_time last_wheel_time detection_threshold current_device
         set_last_keyboard_time device_changed_callbacks];
    unfold bind, time_time, set_self, modify, ret, get_self;
    cbn [self reads trace last_keyboard_time last_wheel_time detection_threshold
         current_device set_last_keyboard_time device_changed_callbacks];
    match goal with
    | |- context [decide (?d = ?c)] => destruct (decide (d = c)); [reflexivity |]
    end;
    rewrite notify_device_changed_eq;
    cbn [self reads trace current_device set_current_device
         device_changed_callbacks emit modify];
    unfold emit, modify; cbn [self reads trace];
    rewrite <- app_assoc; reflexivity.
Qed.

End ArbitratorStep.

Section ArbitrationClaim.

Import input_device_manager arbitration_scenario.

(** The device computed, in terms of the two activity conditions. *)
Lemma device_of_cases (clk : nat -> R) (any_key : bool) (w : W) :
  let now := now_of clk any_key w in
  let keyboard_active :=
    now - (if any_key then clk (reads w) else last_keyboard_time (self w))
    < detection_threshold (self w) in
  let wheel_active := now - last_wheel_time (self w) < detection_threshold (self w) in
  (device_of clk any_key w = KEYBOARD <-> keyboard_active /\ ~ wheel_active)
  /\ (device_of clk any_key w = STEERING_WHEEL <-> wheel_active /\ ~ keyboard_active)
  /\ (device_of clk any_key w = UNKNOWN <-> (keyboard_active <-> wheel_active)).
Proof.
  cbv zeta. unfold device_of.
  assert (Hlk : last_keyboard_time (sampled clk any_key w)
                = (if any_key then clk (reads w) else last_keyboard_time (self w)))
    by (unfold sampled; destruct any_key; reflexivity).
  rewrite Hlk.
  destruct (Rlt_dec (now_of clk any_key w
                     - (if any_key then clk (reads w) else last_keyboard_time (self w)))
              (detection_threshold (self w)));
    destruct (Rlt_dec (now_of clk any_key w - last_wheel_time (self w))
                (detection_threshold (self w)));
    cbn; intuition congruence.
Qed.

Lemma detection_step_same (clk : nat -> R) (is_pressed : string -> res bool)
  (any_key : bool) (w : W) :
  any_pressed is_pressed monitored = Ok any_key ->
  device_of clk any_key w = current_device (self w) ->
  detection_step clk is_pressed w =
    (Ok tt,
     mkWorld (sampled clk any_key w) (S (if any_key then S (reads w) else reads w))
       (trace w)).
Proof.
  intros Hany Hd. rewrite (detection_step_eq clk is_pressed any_key w Hany).
  destruct (decide _); [reflexivity | contradiction].
Qed.

Lemma detection_step_change (clk : nat -> R) (is_pressed : string -> res bool)
  (any_key : bool) (w : W) (d : InputDevice) :
  any_pressed is_pressed monitored = Ok any_key ->
  device_of clk any_key w = d ->
  d <> current_device (self w) ->
  detection_step clk is_pressed w =
    (Ok tt,
     mkWorld (set_current_device d (sampled clk any_key w))
       (S (if any_key then S (reads w) else reads w))
       (trace w ++
        notifications d (device_changed_callbacks (self w)) ++
        Log (LogInfo ("Input device changed to: " ++ device_value d)) :: nil)).
Proof.
  intros Hany Hd Hne. rewrite (detection_step_eq clk is_pressed any_key w Hany).
  rewrite Hd. destruct (decide _); [contradiction | reflexivity].
Qed.

Lemma detection_loop_cons (clk : nat -> R) (is_pressed : string -> res bool)
  (samples : list (string -> res bool)) (w w' : W) :
  running (self w) = true ->
  detection_step clk is_pressed w = (Ok tt, w') ->
  _device_detection_loop clk (is_pressed :: samples) w =
    _device_detection_loop clk samples w'.
Proof.
  intros Hrun Hstep. cbn [_device_detection_loop].
  unfold bind at 1, get_self at 1. rewrite Hrun.
  unfold bind at 1. rewrite Hstep. reflexivity.
Qed.

(** Every sample whose poll does not fail. *)
Lemma detection_step_sample (clk : nat -> R) (is_pressed : string -> res bool)
  (any_key : bool) (w : W) :
  any_pressed is_pressed monitored = Ok any_key ->
  exists w',
    detection_step clk is_pressed w = (Ok tt, w')
    /\ last_keyboard_time (self w') =
         (if any_key then clk (reads w) else last_keyboard_time (self w))
    /\ last_wheel_time (self w') = last_wheel_time (self w)
    /\ detection_threshold (self w') = detection_threshold (self w)
    /\ device_changed_callbacks (self w') = device_changed_callbacks (self w)
    /\ current_device (self w') = device_of clk any_key w
    /\ (current_device (self w') = current_device (self w) -> trace w' = trace w)
    /\ (current_device (self w') <> current_device (self w) ->
        trace w' =
          trace w ++
          notifications (current_device (self w')) (device_changed_callbacks (self w)) ++
          Log (LogInfo ("Input device changed to: "
                        ++ device_value (current_device (self w')))) :: nil).
Proof.
  intros Hany. rewrite (detection_step_eq clk is_pressed any_key w Hany).
  eexists. split; [reflexivity |].
  destruct (decide (device_of clk any_key w = current_device (self w))) as [He | Hne];
    cbn [self trace]; unfold sampled; destruct any_key; cbn;
    repeat split; try reflexivity; try congruence.
Qed.

(** C8. On every sampling tick (whose keyboard poll does not fail), with
    [now] the tick's clock reading and [X_active] meaning
    [now - last_X_time < detection_threshold]: the device computed is
    KEYBOARD iff the keyboard is active and the wheel is not, STEERING_WHEEL
    iff the wheel is active and the keyboard is not, and UNKNOWN otherwise;
    [current_device] is updated to it; the listeners are called with the new
    device exactly when it differs from the stored one. In the scenario
    "keyboard activity at [t0], none after" (no wheel activity within the
    threshold; the threshold is 0.5 s) the device is KEYBOARD at [t0 + 0.4]
    and becomes UNKNOWN at [t0 + 0.6], which fires one notification: each
    listener is called exactly once, with UNKNOWN. *)
Theorem arbitration_step_and_scenario :
  (forall clk is_pressed any_key (w : W),
     any_pressed is_pressed monitored = Ok any_key ->
     exists w',
       detection_step clk is_pressed w = (Ok tt, w')
       /\ let now := now_of clk any_key w in
          let keyboard_active :=
            now - last_keyboard_time (self w') < detection_threshold (self w') in
          let wheel_active :=
            now - last_wheel_time (self w') < detection_threshold (self w') in
          (current_device (self w') = KEYBOARD <-> keyboard_active /\ ~ wheel_active)
          /\ (current_device (self w') = STEERING_WHEEL
              <-> wheel_active /\ ~ keyboard_active)
          /\ (current_device (self w') = UNKNOWN
              <-> (keyboard_active <-> wheel_active))
          /\ device_changed_callbacks (self w') = device_changed_callbacks (self w)
          /\ (current_device (self w') = current_device (self w) ->
              trace w' = trace w)
          /\ (current_device (self w') <> current_device (self w) ->
              invocations (trace w') =
                invocations (trace w) ++
                map (fun callback => (cb_name callback, current_device (self w')))
                  (device_changed_callbacks (self w))))
  /\ (forall (t0 : R) (callbacks : list Callback),
        0.5 <= t0 ->
        exists w1 w2 w3,
          detection_step (activity_clock t0) w_down (fresh_manager callbacks) = (Ok tt, w1)
          /\ detection_step (activity_clock t0) no_key w1 = (Ok tt, w2)
          /\ detection_step (activity_clock t0) no_key w2 = (Ok tt, w3)
          /\ _device_detection_loop (activity_clock t0)
               (w_down :: no_key :: no_key :: nil) (fresh_manager callbacks) = (Ok tt, w3)
          /\ now_of (activity_clock t0) true (fresh_manager callbacks) = t0
          /\ now_of (activity_clock t0) false w1 = t0 + 0.4
          /\ now_of (activity_clock t0) false w2 = t0 + 0.6
          /\ current_device (self w1) = KEYBOARD
          /\ current_device (self w2) = KEYBOARD
          /\ trace w2 = trace w1
          /\ current_device (self w3) = UNKNOWN
          /\ invocations (trace w3) =
               invocations (trace w2) ++
               map (fun callback => (cb_name callback, UNKNOWN)) callbacks).
Proof.
  split.
  - intros clk is_pressed any_key w Hany.
    destruct (detection_step_sample clk is_pressed any_key w Hany)
      as (w' & Hstep & Hkt & Hwt & Hth & Hcb & Hdev & Hsame & Hdiff).
    exists w'. split; [exact Hstep |]. cbv zeta.
    rewrite Hkt, Hwt, Hth.
    destruct (device_of_cases clk any_key w) as (HK & HS & HU).
    split; [rewrite Hdev; exact HK |].
    split; [rewrite Hdev; exact HS |].
    split; [rewrite Hdev; exact HU |].
    split; [exact Hcb |].
    split; [exact Hsame |].
    intros Hne. rewrite (Hdiff Hne).
    rewrite !invocations_app, invocations_notifications. cbn.
    now rewrite app_nil_r.
  - intros t0 callbacks Ht0.
    assert (Hd : any_pressed w_down monitored = Ok true) by reflexivity.
    assert (Hn : any_pressed no_key monitored = Ok false) by reflexivity.
    assert (D1 : device_of (activity_clock t0) true (fresh_manager callbacks) = KEYBOARD).
    { unfold device_of, now_of, sampled. cbn.
      destruct (Rlt_dec (t0 - t0) 0.5); [| lra].
      destruct (Rlt_dec (t0 - 0) 0.5); [lra | reflexivity]. }
    pose proof (detection_step_change (activity_clock t0) w_down true
                  (fresh_manager callbacks) KEYBOARD Hd D1) as E1.
    specialize (E1 ltac:(discriminate)).
    match type of E1 with _ = (_, ?w) => set (w1 := w) in * end.
    assert (D2 : device_of (activity_clock t0) false w1 = current_device (self w1)).
    { unfold device_of, now_of, sampled. cbn.
      destruct (Rlt_dec (t0 + 0.4 - t0) 0.5); [| lra].
      destruct (Rlt_dec (t0 + 0.4 - 0) 0.5); [lra | reflexivity]. }
    pose proof (detection_step_same (activity_clock t0) no_key false w1 Hn D2) as E2.
    match type of E2 with _ = (_, ?w) => set (w2 := w) in * end.
    assert (D3 : device_of (activity_clock t0) false w2 = UNKNOWN).
    { unfold device_of, now_of, sampled. cbn.
      destruct (Rlt_dec (t0 + 0.6 - t0) 0.5); [lra |].
      destruct (Rlt_dec (t0 + 0.6 - 0) 0.5); [lra | reflexivity]. }
    pose proof (detection_step_change (activity_clock t0) no_key false w2 UNKNOWN
                  Hn D3) as E3.
    specialize (E3 ltac:(discriminate)).
    match type of E3 with _ = (_, ?w) => set (w3 := w) in * end.
    exists w1, w2, w3.
    split; [exact E1 |]. split; [exact E2 |]. split; [exact E3 |].
    split.
    { rewrite (detection_loop_cons _ w_down _ (fresh_manager callbacks) w1);
        [| reflexivity | exact E1].
      rewrite (detection_loop_cons _ no_key _ w1 w2); [| reflexivity | exact E2].
      rewrite (detection_loop_cons _ no_key _ w2 w3); [| reflexivity | exact E3].
      reflexivity. }
    repeat split; try reflexivity.
    subst w3 w2 w1. cbn [trace].
    rewrite !invocations_app, !invocations_notifications. cbn [invocations].
    now rewrite !app_nil_r.
Qed.

End ArbitrationClaim.

(** ** The per-tick update keeps the axes in bounds *)

Section Bounds.

Import keyboard_processor scenario.

Variable clk : nat -> R.

Lemma bind_ok {S A B} (m : M S A) (k : A -> M S B) (s s' : S) (a : A) :
  m s = (Ok a, s') -> bind m k s = k a s'.
Proof. intros H. unfold bind. now rewrite H. Qed.

Lemma hold_curve_unit (h : R) : 0 <= h -> 0 <= hold_curve h < 1.
Proof.
  intros Hh. rewrite hold_curve_eq by exact Hh.
  destruct (exp_neg_unit h Hh). lra.
Qed.

(** The condition on press times is kept while the key table stays and
    the clock is read. *)
Lemma presses_before_later (w w' : W) :
  presses_before clk w ->
  key_states (self w') = key_states (self w) ->
  (reads w <= reads w')%nat ->
  presses_before clk w'.
Proof.
  intros Hp Hk Hr key state n Hlk Hpr Hn. rewrite Hk in Hlk.
  apply (Hp key state n Hlk Hpr). lia.
Qed.

(** A key value is in [[0,1)] and computing it only reads the clock. *)
Lemma calculate_key_value_unit (key : pyval) (w : W) :
  hashable key ->
  presses_before clk w ->
  exists v n,
    _calculate_key_value clk key w = (Ok v, mkWorld (self w) n (trace w))
    /\ 0 <= v < 1
    /\ (reads w <= n)%nat.
Proof.
  intros Hk Hp. unfold _calculate_key_value.
  unfold bind at 1, get_self at 1.
  assert (Hzero : exists v n,
             ret (S := W) 0 w = (Ok v, mkWorld (self w) n (trace w))
             /\ 0 <= v < 1 /\ (reads w <= n)%nat).
  { exists 0, (reads w). split; [destruct w; reflexivity | split; [lra | lia]]. }
  destruct key as [| b | x | name | l | d]; cbn [key_states_get];
    try contradiction; unfold bind at 1, lift at 1; try exact Hzero.
  destruct (key_states (self w) !! name) as [state |] eqn:Hst; [| exact Hzero].
  destruct (pressed state) eqn:Hpr; [| exact Hzero].
  unfold bind, time_time, ret.
  exists (hold_curve (clk (reads w) - press_time state)), (S (reads w)).
  split; [reflexivity |]. split; [| lia].
  apply hold_curve_unit. specialize (Hp name state (reads w) Hst Hpr (le_n _)). lra.
Qed.

Lemma smooth_value_in (lo hi c t s dt : R) :
  0 < s < 1 -> 0 <= dt ->
  lo <= c <= hi -> lo <= t <= hi ->
  exists c', _smooth_value c t (PNum s) dt = Ok c' /\ lo <= c' <= hi.
Proof.
  intros Hs Hdt Hc Ht.
  pose proof (smooth_value_unit c t s dt (proj1 Hs) Hdt) as E.
  eexists. split; [exact E |].
  pose proof (smooth_value_between c t s dt _ Hs Hdt E) as Hb.
  unfold Rmin, Rmax in Hb. destruct (Rle_dec c t); lra.
Qed.

Lemma update_steering_bounds (dt : R) (w : W) :
  0 <= dt ->
  config_in_range (config (self w)) ->
  smoothing_in_range (self w) ->
  presses_before clk w ->
  -1 <= steering_value (self w) <= 1 ->
  exists v n,
    _update_steering clk dt w =
      (Ok tt, mkWorld (set_steering_value v (self w)) n (trace w))
    /\ -1 <= v <= 1
    /\ (reads w <= n)%nat.
Proof.
  intros Hdt (st & acc & asst & c & cs & sp & Hst & _ & _ & Hl & Hr & _ & _ & Hc & Hcr & _)
    (Hss & _) Hp Hb.
  unfold _update_steering. unfold bind at 1, get_self at 1. cbv zeta. rewrite Hst.
  destruct (calculate_key_value_unit _ w Hl Hp) as (lv & n1 & El & Hlv & Hn1).
  assert (Hp1 : presses_before clk (mkWorld (self w) n1 (trace w)))
    by (apply (presses_before_later w); [exact Hp | reflexivity | exact Hn1]).
  destruct (calculate_key_value_unit _ _ Hr Hp1) as (rv & n2 & Er & Hrv & Hn2).
  cbn [self trace reads] in Er, Hn2.
  assert (Hn : (reads w <= n2)%nat) by lia.
  assert (Ekv : steering_key_values clk (PDict st) w
                = (Ok (lv, rv), mkWorld (self w) n2 (trace w))).
  { unfold steering_key_values. cbn [py_get].
    unfold bind at 1, lift at 1. unfold bind at 1, lift at 1.
    rewrite (bind_ok _ _ _ _ _ El). rewrite (bind_ok _ _ _ _ _ Er). reflexivity. }
  rewrite (bind_ok _ _ _ _ _ Ekv). cbn [py_get].
  unfold bind at 1, lift at 1.
  assert (Hstep1 : exists v1,
    (if truthy (dict_get st "gradual_turn" (PBool true))
     then let! v := lift (_smooth_value (steering_value (self w)) (rv - lv)
                            (PNum (steering_smoothing (self w))) dt)
          in set_self (set_steering_value v)
     else set_self (set_steering_value (rv - lv)))
      (mkWorld (self w) n2 (trace w))
    = (Ok tt, mkWorld (set_steering_value v1 (self w)) n2 (trace w))
    /\ -1 <= v1 <= 1).
  { destruct (truthy _).
    - destruct (smooth_value_in (-1) 1 (steering_value (self w)) (rv - lv)
                  (steering_smoothing (self w)) dt Hss Hdt Hb) as (v1 & E1 & H1);
        [lra |].
      exists v1. split; [| exact H1].
      unfold bind, lift. rewrite E1. reflexivity.
    - exists (rv - lv). split; [reflexivity | lra]. }
  destruct Hstep1 as (v1 & E1 & H1).
  rewrite (bind_ok _ _ _ _ _ E1).
  unfold bind at 1, lift at 1.
  destruct (truthy (dict_get st "return_to_center" (PBool true))
            && (if Req_dec_T lv 0 then if Req_dec_T rv 0 then true else false else false)).
  - unfold bind at 1, lift at 1. rewrite Hc.
    unfold bind at 1, get_self at 1. cbn [self set_steering_value steering_value].
    destruct (smooth_value_in (-1) 1 v1 0 c dt Hcr Hdt H1) as (v2 & E2 & H2); [lra |].
    exists v2, n2. split; [| split; [exact H2 | exact Hn]].
    unfold bind, lift. rewrite E2. reflexivity.
  - exists v1, n2. split; [reflexivity | split; [exact H1 | exact Hn]].
Qed.

Lemma update_pedals_bounds (dt : R) (w : W) :
  0 <= dt ->
  config_in_range (config (self w)) ->
  smoothing_in_range (self w) ->
  presses_before clk w ->
  0 <= throttle_value (self w) <= 1 ->
  0 <= brake_value (self w) <= 1 ->
  exists t b n,
    _update_pedals clk dt w =
      (Ok tt, mkWorld (set_brake_value b (set_throttle_value t (self w))) n (trace w))
    /\ 0 <= t <= 1 /\ 0 <= b <= 1.
Proof.
  intros Hdt (st & acc & asst & c & cs & sp & _ & Hacc & _ & _ & _ & Ha & Hbk & _)
    (_ & Hps) Hp Ht Hb.
  unfold _update_pedals. unfold bind at 1, get_self at 1. cbv zeta. rewrite Hacc.
  cbn [py_get]. unfold bind at 1, lift at 1. unfold bind at 1, lift at 1.
  destruct (calculate_key_value_unit _ w Ha Hp) as (tv & n1 & Et & Htv & Hn1).
  assert (Hp1 : presses_before clk (mkWorld (self w) n1 (trace w)))
    by (apply (presses_before_later w); [exact Hp | reflexivity | exact Hn1]).
  destruct (calculate_key_value_unit _ _ Hbk Hp1) as (bv & n2 & Eb & Hbv & _).
  cbn [self trace] in Eb.
  rewrite (bind_ok _ _ _ _ _ Et). rewrite (bind_ok _ _ _ _ _ Eb).
  unfold bind at 1, lift at 1.
  destruct (truthy _).
  - destruct (smooth_value_in 0 1 (throttle_value (self w)) tv
                (pedal_smoothing (self w)) dt Hps Hdt Ht) as (t1 & E1 & H1); [lra |].
    destruct (smooth_value_in 0 1 (brake_value (self w)) bv
                (pedal_smoothing (self w)) dt Hps Hdt Hb) as (b1 & E2 & H2); [lra |].
    exists t1, b1, n2. split; [| split; assumption].
    unfold bind, lift, set_self, modify. rewrite E1, E2. reflexivity.
  - exists tv, bv, n2. split; [reflexivity | lra].
Qed.

Lemma Rabs_scaled (x k : R) : -1 <= x <= 1 -> 0 <= k <= 1 -> -1 <= x * (1 - k) <= 1.
Proof. intros Hx Hk. nra. Qed.

Lemma unit_scaled (x k : R) : 0 <= x <= 1 -> 0 <= k <= 1 -> 0 <= x * (1 - k) <= 1.
Proof. intros Hx Hk. nra. Qed.

Lemma apply_assists_bounds (w : W) :
  config_in_range (config (self w)) ->
  axes_in_bounds (self w) ->
  exists s t,
    _apply_assists w =
      (Ok tt, mkWorld (set_throttle_value t (set_steering_value s (self w)))
                (reads w) (trace w))
    /\ -1 <= s <= 1 /\ 0 <= t <= 1.
Proof.
  intros (st & acc & asst & c & cs & sp & _ & _ & Has & _ & _ & _ & _ & _ & _
          & Hcs & Hcsr & Hsp & Hspr) (Hs & Ht & _).
  assert (Fcs : as_float (dict_get asst "counter_steer_strength" (PNum 0.5)) = Ok cs)
    by (rewrite Hcs; reflexivity).
  assert (Fsp : as_float (dict_get asst "spin_prevention" (PNum 0.6)) = Ok sp)
    by (rewrite Hsp; reflexivity).
  pose proof (apply_counter_steer_eq w asst cs Has Fcs) as Ec.
  set (s1 := if Rlt_dec 0.8 (Rabs (steering_value (self w))) then
               if Rlt_dec 0.7 (throttle_value (self w))
               then steering_value (self w) * (1 - cs)
               else steering_value (self w)
             else steering_value (self w)) in *.
  assert (Hs1 : -1 <= s1 <= 1).
  { subst s1. pose proof (Rabs_scaled _ _ Hs Hcsr).
    destruct (Rlt_dec 0.8 _); [destruct (Rlt_dec 0.7 _) |]; lra. }
  assert (Hanti : forall v, -1 <= v <= 1 ->
            exists t,
              _apply_anti_spin (mkWorld (set_steering_value v (self w)) (reads w) (trace w))
              = (Ok tt, mkWorld (set_throttle_value t (set_steering_value v (self w)))
                          (reads w) (trace w))
              /\ 0 <= t <= 1).
  { intros v Hv.
    rewrite (apply_anti_spin_eq _ asst sp) by (cbn; assumption).
    eexists. split; [reflexivity |].
    cbn [self set_steering_value throttle_value steering_value].
    pose proof (unit_scaled _ _ Ht Hspr).
    destruct (Rlt_dec 0.6 (Rabs v));
      [destruct (Rlt_dec 0.8 (throttle_value (self w))) |]; lra. }
  assert (Hid : set_steering_value (steering_value (self w)) (self w) = self w)
    by (destruct w as [[] ? ?]; reflexivity).
  assert (Hidt : forall p, set_throttle_value (throttle_value p) p = p)
    by (intros []; reflexivity).
  unfold _apply_assists. unfold bind at 1, get_self at 1. cbv zeta. rewrite Has.
  cbn [py_get]. unfold bind at 1, lift at 1.
  destruct (truthy (dict_get asst "counter_steer_assist" (PBool true)));
    [rewrite (bind_ok _ _ _ _ _ Ec) | unfold bind at 1, ret at 1];
    unfold bind at 1, lift at 1;
    destruct (truthy (dict_get asst "anti_spin_assist" (PBool true))).
  - destruct (Hanti s1 Hs1) as (t & E & Ht'). exists s1, t. auto.
  - exists s1, (throttle_value (self w)). split; [| auto].
    unfold ret. now rewrite <- (Hidt (set_steering_value s1 (self w))) at 1.
  - destruct (Hanti (steering_value (self w)) Hs) as (t & E & Ht').
    exists (steering_value (self w)), t. split; [| auto].
    rewrite Hid in E. rewrite Hid. destruct w; exact E.
  - exists (steering_value (self w)), (throttle_value (self w)).
    split; [| auto]. unfold ret. rewrite Hid, Hidt. destruct w; reflexivity.
Qed.

(** The axis bounds are kept by a tick when no held key has a press time
    later than the clock readings the tick takes: for every [dt >= 0] and
    every configuration in range, from axes within their bounds [update]
    returns with the axes within their bounds, and writes nothing else. *)
Lemma update_preserves_axis_bounds (dt : R) (w : W) :
  0 <= dt ->
  config_in_range (config (self w)) ->
  smoothing_in_range (self w) ->
  presses_before clk w ->
  axes_in_bounds (self w) ->
  exists w',
    update clk dt w = (Ok tt, w')
    /\ axes_in_bounds (self w')
    /\ config (self w') = config (self w)
    /\ key_states (self w') = key_states (self w)
    /\ trace w' = trace w.
Proof.
  intros Hdt Hcfg Hsm Hp (Hs & Ht & Hb).
  destruct (update_steering_bounds dt w Hdt Hcfg Hsm Hp Hs) as (v & n1 & E1 & Hv & Hn1).
  set (w1 := mkWorld (set_steering_value v (self w)) n1 (trace w)) in *.
  assert (Hp1 : presses_before clk w1)
    by (apply (presses_before_later w); [exact Hp | reflexivity | exact Hn1]).
  destruct (update_pedals_bounds dt w1 Hdt Hcfg Hsm Hp1 Ht Hb)
    as (t & b & n2 & E2 & Ht' & Hb').
  set (w2 := mkWorld (set_brake_value b (set_throttle_value t (self w1))) n2 (trace w1)) in *.
  destruct (apply_assists_bounds w2 Hcfg) as (s' & t' & E3 & Hs' & Ht'').
  { repeat split; cbn; lra. }
  eexists. split.
  { unfold update. rewrite (bind_ok _ _ _ _ _ E1). rewrite (bind_ok _ _ _ _ _ E2).
    exact E3. }
  repeat split; cbn; lra.
Qed.

End Bounds.

(** ** What the update reads: configuration and clock *)

Section Simulation.

Import keyboard_processor scenario.

Lemma sim_ret {S A} (R : S -> S -> Prop) (Q : A -> A -> Prop) (a1 a2 : A) :
  Q a1 a2 -> sim R Q (ret a1) (ret a2).
Proof. intros HQ s1 s2 HR. cbn. auto. Qed.

Lemma sim_bind {S A B} (R : S -> S -> Prop) (Q : A -> A -> Prop)
  (Q' : B -> B -> Prop) (m1 m2 : M S A) (k1 k2 : A -> M S B) :
  sim R Q m1 m2 ->
  (forall a1 a2, Q a1 a2 -> sim R Q' (k1 a1) (k2 a2)) ->
  sim R Q' (bind m1 k1) (bind m2 k2).
Proof.
  intros Hm Hk s1 s2 HR. unfold bind. specialize (Hm s1 s2 HR).
  destruct (m1 s1) as [[a1 | e1] s1'], (m2 s2) as [[a2 | e2] s2'];
    try contradiction; destruct Hm as [HQ HR'].
  - apply (Hk a1 a2 HQ s1' s2' HR').
  - auto.
Qed.

Lemma sim_lift {S A} (R : S -> S -> Prop) (r1 r2 : res A) :
  r1 = r2 -> sim R eq (lift r1) (lift r2).
Proof. intros <- s1 s2 HR. unfold lift. destruct r1; auto. Qed.

Lemma sim_get_self :
  sim same_world same_but_config (get_self (O := KeyboardProcessor)) get_self.
Proof. intros w1 w2 HR. unfold get_self. split; [apply HR | exact HR]. Qed.

Lemma sim_set_self (f1 f2 : KeyboardProcessor -> KeyboardProcessor) :
  (forall p1 p2, same_but_config p1 p2 -> same_but_config (f1 p1) (f2 p2)) ->
  sim same_world eq (set_self (Ev := log_entry) f1) (set_self f2).
Proof.
  intros Hf w1 w2 (Hr & Ht & Hp). unfold set_self, modify.
  split; [reflexivity |]. repeat split; try assumption; apply (Hf _ _ Hp).
Qed.

Lemma sim_time_time (clk1 clk2 : nat -> R) :
  (forall n, clk1 n = clk2 n) ->
  sim same_world eq (time_time (O := KeyboardProcessor) clk1) (time_time clk2).
Proof.
  intros Hclk w1 w2 (Hr & Ht & Hp). unfold time_time.
  split; [rewrite Hr; apply Hclk |].
  repeat split; cbn; try assumption; try apply Hp. now rewrite Hr.
Qed.

Lemma same_set_steering (v : R) (p1 p2 : KeyboardProcessor) :
  same_but_config p1 p2 ->
  same_but_config (set_steering_value v p1) (set_steering_value v p2).
Proof. intros (? & ? & ? & ? & ? & ? & ?). repeat split; assumption. Qed.

Lemma same_set_throttle (v : R) (p1 p2 : KeyboardProcessor) :
  same_but_config p1 p2 ->
  same_but_config (set_throttle_value v p1) (set_throttle_value v p2).
Proof. intros (? & ? & ? & ? & ? & ? & ?). repeat split; assumption. Qed.

Lemma same_set_brake (v : R) (p1 p2 : KeyboardProcessor) :
  same_but_config p1 p2 ->
  same_but_config (set_brake_value v p1) (set_brake_value v p2).
Proof. intros (? & ? & ? & ? & ? & ? & ?). repeat split; assumption. Qed.

Lemma same_set_key_states (ks : gmap string KeyState) (p1 p2 : KeyboardProcessor) :
  same_but_config p1 p2 ->
  same_but_config (set_key_states ks p1) (set_key_states ks p2).
Proof. intros (? & ? & ? & ? & ? & ? & ?). repeat split; assumption. Qed.

Section TwoClocks.

Variables clk1 clk2 : nat -> R.
Hypothesis clocks_agree : forall n, clk1 n = clk2 n.

Lemma sim_calculate_key_value (key : pyval) :
  sim same_world eq (_calculate_key_value clk1 key) (_calculate_key_value clk2 key).
Proof.
  unfold _calculate_key_value.
  eapply sim_bind; [apply sim_get_self |]. intros p1 p2 Hp.
  destruct Hp as (Hks & _). rewrite Hks.
  eapply sim_bind; [apply sim_lift; reflexivity |]. intros state ? <-.
  destruct state as [state |]; [| apply sim_ret; reflexivity].
  destruct (pressed state); [| apply sim_ret; reflexivity].
  eapply sim_bind; [apply sim_time_time; exact clocks_agree |]. intros t ? <-.
  apply sim_ret. reflexivity.
Qed.

Lemma sim_steering_key_values (s1 s2 : pyval) :
  section_same s1 s2 ->
  sim same_world eq (steering_key_values clk1 s1) (steering_key_values clk2 s2).
Proof.
  intros Hsec. unfold steering_key_values.
  eapply sim_bind; [apply sim_lift, Hsec; cbn; tauto |]. intros lk ? <-.
  eapply sim_bind; [apply sim_lift, Hsec; cbn; tauto |]. intros rk ? <-.
  eapply sim_bind; [apply sim_calculate_key_value |]. intros lv ? <-.
  eapply sim_bind; [apply sim_calculate_key_value |]. intros rv ? <-.
  apply sim_ret. reflexivity.
Qed.

Lemma sim_update_steering (dt : R) :
  sim same_world eq (_update_steering clk1 dt) (_update_steering clk2 dt).
Proof.
  unfold _update_steering.
  eapply sim_bind; [apply sim_get_self |]. intros p1 p2 Hp. cbv zeta.
  pose proof Hp as (_ & Hsv & _ & _ & Hss & _ & Hcfg).
  assert (Hsec : section_same (dict_get (config p1) "steering" (PDict ∅))
                   (dict_get (config p2) "steering" (PDict ∅)))
    by (apply Hcfg; cbn; tauto).
  eapply sim_bind; [apply sim_steering_key_values, Hsec |]. intros [lv rv] ? <-.
  eapply sim_bind; [apply sim_lift, Hsec; cbn; tauto |]. intros g ? <-.
  eapply sim_bind with (Q := eq).
  { destruct (truthy g).
    - eapply sim_bind; [apply sim_lift; rewrite Hsv, Hss; reflexivity |].
      intros v ? <-. apply sim_set_self. apply same_set_steering.
    - apply sim_set_self. apply same_set_steering. }
  intros _ _ _.
  eapply sim_bind; [apply sim_lift, Hsec; cbn; tauto |]. intros rtc ? <-.
  destruct (truthy rtc && _); [| apply sim_ret; reflexivity].
  eapply sim_bind; [apply sim_lift, Hsec; cbn; tauto |]. intros c ? <-.
  eapply sim_bind; [apply sim_get_self |]. intros p1' p2' (_ & Hsv' & _).
  eapply sim_bind; [apply sim_lift; rewrite Hsv'; reflexivity |]. intros v ? <-.
  apply sim_set_self. apply same_set_steering.
Qed.

Lemma sim_update_pedals (dt : R) :
  sim same_world eq (_update_pedals clk1 dt) (_update_pedals clk2 dt).
Proof.
  unfold _update_pedals.
  eapply sim_bind; [apply sim_get_self |]. intros p1 p2 Hp. cbv zeta.
  pose proof Hp as (_ & _ & Htv & Hbv & _ & Hps & Hcfg).
  assert (Hsec : section_same (dict_get (config p1) "acceleration" (PDict ∅))
                   (dict_get (config p2) "acceleration" (PDict ∅)))
    by (apply Hcfg; cbn; tauto).
  eapply sim_bind; [apply sim_lift, Hsec; cbn; tauto |]. intros ak ? <-.
  eapply sim_bind; [apply sim_lift, Hsec; cbn; tauto |]. intros bk ? <-.
  eapply sim_bind; [apply sim_calculate_key_value |]. intros tv ? <-.
  eapply sim_bind; [apply sim_calculate_key_value |]. intros bv ? <-.
  eapply sim_bind; [apply sim_lift, Hsec; cbn; tauto |]. intros g ? <-.
  destruct (truthy g).
  - eapply sim_bind; [apply sim_lift; rewrite Htv, Hps; reflexivity |]. intros t ? <-.
    eapply sim_bind; [apply sim_set_self, same_set_throttle |]. intros _ _ _.
    eapply sim_bind; [apply sim_lift; rewrite Hbv, Hps; reflexivity |]. intros b ? <-.
    apply sim_set_self, same_set_brake.
  - eapply sim_bind; [apply sim_set_self, same_set_throttle |]. intros _ _ _.
    apply sim_set_self, same_set_brake.
Qed.

Lemma sim_apply_counter_steer :
  sim same_world eq _apply_counter_steer _apply_counter_steer.
Proof.
  unfold _apply_counter_steer.
  eapply sim_bind; [apply sim_get_self |]. intros p1 p2 Hp.
  pose proof Hp as (_ & Hsv & Htv & _ & _ & _ & Hcfg). rewrite Hsv, Htv.
  destruct (Rlt_dec 0.8 _); [| apply sim_ret; reflexivity].
  destruct (Rlt_dec 0.7 _); [| apply sim_ret; reflexivity].
  eapply sim_bind; [apply sim_lift, Hcfg; cbn; tauto |]. intros st ? <-.
  eapply sim_bind; [apply sim_lift; reflexivity |]. intros s ? <-.
  apply sim_set_self, same_set_steering.
Qed.

Lemma sim_apply_anti_spin :
  sim same_world eq _apply_anti_spin _apply_anti_spin.
Proof.
  unfold _apply_anti_spin.
  eapply sim_bind; [apply sim_get_self |]. intros p1 p2 Hp.
  pose proof Hp as (_ & Hsv & Htv & _ & _ & _ & Hcfg). rewrite Hsv, Htv.
  destruct (Rlt_dec 0.6 _); [| apply sim_ret; reflexivity].
  destruct (Rlt_dec 0.8 _); [| apply sim_ret; reflexivity].
  eapply sim_bind; [apply sim_lift, Hcfg; cbn; tauto |]. intros st ? <-.
  eapply sim_bind; [apply sim_lift; reflexivity |]. intros s ? <-.
  apply sim_set_self, same_set_throttle.
Qed.

Lemma sim_apply_assists :
  sim same_world eq _apply_assists _apply_assists.
Proof.
  unfold _apply_assists.
  eapply sim_bind; [apply sim_get_self |]. intros p1 p2 Hp. cbv zeta.
  pose proof Hp as (_ & _ & _ & _ & _ & _ & Hcfg).
  eapply sim_bind; [apply sim_lift, Hcfg; cbn; tauto |]. intros f1 ? <-.
  eapply sim_bind with (Q := eq).
  { destruct (truthy f1); [apply sim_apply_counter_steer | apply sim_ret; reflexivity]. }
  intros _ _ _.
  eapply sim_bind; [apply sim_lift, Hcfg; cbn; tauto |]. intros f2 ? <-.
  destruct (truthy f2); [apply sim_apply_anti_spin | apply sim_ret; reflexivity].
Qed.

(** From worlds that differ at most in configuration entries the processor
    never reads, under clocks that give the same readings, [update] ends
    alike. *)
Lemma sim_update (dt : R) :
  sim same_world eq (update clk1 dt) (update clk2 dt).
Proof.
  unfold update.
  eapply sim_bind; [apply sim_update_steering |]. intros _ _ _.
  eapply sim_bind; [apply sim_update_pedals |]. intros _ _ _.
  apply sim_apply_assists.
Qed.

End TwoClocks.

End Simulation.

(** ** Determinism and the deadzone *)

Section ReadsOnly.

Import keyboard_processor scenario.

Lemma section_same_refl (v : pyval) : section_same v v.
Proof. intros field default _. reflexivity. Qed.

Lemma with_deadzone_section (v : pyval) (cfg : gmap string pyval) (sec : string) :
  In sec sections_read ->
  section_same (dict_get (with_deadzone v cfg) sec (PDict ∅))
    (dict_get cfg sec (PDict ∅)).
Proof.
  intros Hsec. unfold with_deadzone, dict_get at 1.
  assert (Hne1 : "deadzone" <> sec)
    by (cbn in Hsec; intros <-; intuition discriminate).
  assert (Hne2 : "deadzone_size" <> sec)
    by (cbn in Hsec; intros <-; intuition discriminate).
  rewrite lookup_insert_ne by exact Hne1.
  rewrite lookup_insert_ne by exact Hne2.
  destruct (dict_get cfg "steering" (PDict ∅)) as [| | | | | st] eqn:Hst;
    try apply section_same_refl.
  destruct (decide (sec = "steering")) as [-> | Hn].
  - rewrite lookup_insert_eq, Hst.
    intros field default Hf. cbn [py_get]. f_equal. unfold dict_get.
    rewrite lookup_insert_ne; [reflexivity |].
    cbn in Hf. intros <-. intuition discriminate.
  - rewrite lookup_insert_ne by congruence. apply section_same_refl.
Qed.

Lemma with_deadzone_same_world (v : pyval) (w : W) :
  same_world (set_config (with_deadzone v (config (self w))) w) w.
Proof.
  split; [reflexivity | split; [reflexivity |]].
  do 6 (split; [reflexivity |]).
  intros sec Hsec. apply with_deadzone_section, Hsec.
Qed.

(** C2 (as the code has it). The keyboard processor has no deadzone: a
    deadzone entry in its configuration (at top level as [deadzone] or
    [deadzone_size], or inside the steering section) is never read, so for
    every processor state, clock and [dt] the update with the deadzone
    configured ends exactly as without it, with the same result and the
    same steering, throttle and brake; a raw target below the threshold is
    used unchanged as the target of smoothing. *)
Theorem deadzone_has_no_effect (clk : nat -> R) (dt : R) (v : pyval) (w : W) :
  fst (update clk dt (set_config (with_deadzone v (config (self w))) w))
    = fst (update clk dt w)
  /\ get_inputs (self (snd (update clk dt
                              (set_config (with_deadzone v (config (self w))) w))))
     = get_inputs (self (snd (update clk dt w)))
  /\ fst (_update_steering clk dt (set_config (with_deadzone v (config (self w))) w))
     = fst (_update_steering clk dt w)
  /\ steering_value (self (snd (_update_steering clk dt
                              (set_config (with_deadzone v (config (self w))) w))))
     = steering_value (self (snd (_update_steering clk dt w))).
Proof.
  pose proof (with_deadzone_same_world v w) as Hw.
  pose proof (sim_update clk clk (fun n => eq_refl) dt _ _ Hw) as Hu.
  pose proof (sim_update_steering clk clk (fun n => eq_refl) dt _ _ Hw) as Hs.
  destruct (update clk dt (set_config _ w)) as [[[] | e1] w1],
           (update clk dt w) as [[[] | e2] w2]; try contradiction;
    destruct (_update_steering clk dt (set_config _ w)) as [[[] | e3] w3],
             (_update_steering clk dt w) as [[[] | e4] w4]; try contradiction;
    destruct Hu as (Hr & _ & _ & _ & Hsv & Htv & Hbv & _);
    destruct Hs as (Hr' & _ & _ & _ & Hsv' & _);
    cbn [fst snd]; unfold get_inputs; rewrite ?Hsv, ?Htv, ?Hbv, ?Hsv';
    repeat split; congruence.
Qed.

End ReadsOnly.

(** ** Ticks evaluated on concrete processors *)

Section ConcreteTicks.

Import keyboard_processor scenario.

Lemma smooth_value_near (c t : R) (s : pyval) (dt : R) :
  Rabs (t - c) < 0.001 -> _smooth_value c t s dt = Ok t.
Proof.
  intros H. unfold _smooth_value.
  destruct (Rlt_dec (Rabs (t - c)) 0.001); [reflexivity | contradiction].
Qed.

Lemma smooth_value_far (c t s dt : R) :
  ~ Rabs (t - c) < 0.001 -> 0 < s -> 0 <= dt ->
  _smooth_value c t (PNum s) dt = Ok (c + (t - c) * (1 - Rpower s (dt * 60))).
Proof.
  intros H Hs Hdt. rewrite smooth_value_unit by assumption.
  destruct (Rlt_dec (Rabs (t - c)) 0.001); [contradiction | reflexivity].
Qed.

(** One tick at 60 Hz: the exponent [dt * 60] is 1. *)
Lemma Rpower_tick (s : R) : 0 < s -> Rpower s (1 / 60 * 60) = s.
Proof.
  intros Hs. replace (1 / 60 * 60) with 1 by lra. now apply Rpower_1.
Qed.

(** The steering update with gradual turn and return-to-center on. *)
Lemma update_steering_eq (clk : nat -> R) (dt : R) (w : W)
  (st : gmap string pyval) (lv rv : R) (n : nat) (v1 v2 : R) :
  dict_get (config (self w)) "steering" (PDict ∅) = PDict st ->
  steering_key_values clk (PDict st) w = (Ok (lv, rv), mkWorld (self w) n (trace w)) ->
  truthy (dict_get st "gradual_turn" (PBool true)) = true ->
  truthy (dict_get st "return_to_center" (PBool true)) = true ->
  _smooth_value (steering_value (self w)) (rv - lv)
    (PNum (steering_smoothing (self w))) dt = Ok v1 ->
  (lv = 0 /\ rv = 0 ->
   _smooth_value v1 0 (dict_get st "center_speed" (PNum 0.3)) dt = Ok v2) ->
  (~ (lv = 0 /\ rv = 0) -> v2 = v1) ->
  _update_steering clk dt w =
    (Ok tt, mkWorld (set_steering_value v2 (self w)) n (trace w)).
Proof.
  intros Hst Hkv Hg Hr E1 E2 E3.
  unfold _update_steering. unfold bind at 1, get_self at 1. cbv zeta. rewrite Hst.
  rewrite (bind_ok _ _ _ _ _ Hkv). cbn [py_get].
  unfold bind at 1, lift at 1. rewrite Hg.
  unfold bind at 1. unfold bind at 1, lift at 1. rewrite E1.
  unfold set_self at 1, modify at 1. cbn [self reads trace].
  unfold bind at 1, lift at 1. rewrite Hr. cbn [andb].
  destruct (Req_dec_T lv 0) as [Hl | Hl]; [destruct (Req_dec_T rv 0) as [Hr0 | Hr0] |].
  - unfold bind at 1, lift at 1. unfold bind at 1, get_self at 1.
    cbn [self steering_value set_steering_value].
    unfold bind at 1, lift at 1. rewrite (E2 (conj Hl Hr0)). reflexivity.
  - rewrite (E3 (fun H => Hr0 (proj2 H))). reflexivity.
  - rewrite (E3 (fun H => Hl (proj1 H))). reflexivity.
Qed.

(** The pedal update with progressive acceleration on. *)
Lemma update_pedals_eq (clk : nat -> R) (dt : R) (w : W)
  (acc : gmap string pyval) (tv bv : R) (n1 n2 : nat) (t1 b1 : R) :
  dict_get (config (self w)) "acceleration" (PDict ∅) = PDict acc ->
  _calculate_key_value clk (dict_get acc "accelerate_key" (PStr "w")) w
    = (Ok tv, mkWorld (self w) n1 (trace w)) ->
  _calculate_key_value clk (dict_get acc "brake_key" (PStr "s"))
    (mkWorld (self w) n1 (trace w)) = (Ok bv, mkWorld (self w) n2 (trace w)) ->
  truthy (dict_get acc "progressive_acceleration" (PBool true)) = true ->
  _smooth_value (throttle_value (self w)) tv (PNum (pedal_smoothing (self w))) dt
    = Ok t1 ->
  _smooth_value (brake_value (self w)) bv (PNum (pedal_smoothing (self w))) dt
    = Ok b1 ->
  _update_pedals clk dt w =
    (Ok tt,
     mkWorld (set_brake_value b1 (set_throttle_value t1 (self w))) n2 (trace w)).
Proof.
  intros Hacc Et Eb Hg E1 E2.
  unfold _update_pedals. unfold bind at 1, get_self at 1. cbv zeta. rewrite Hacc.
  cbn [py_get]. unfold bind at 1, lift at 1. unfold bind at 1, lift at 1.
  rewrite (bind_ok _ _ _ _ _ Et). rewrite (bind_ok _ _ _ _ _ Eb).
  unfold bind at 1, lift at 1. rewrite Hg.
  unfold bind, lift, set_self, modify. rewrite E1, E2. reflexivity.
Qed.

(** With steering at most 0.6 in magnitude no assist fires. *)
Lemma apply_assists_idle (w : W) (a : gmap string pyval) :
  dict_get (config (self w)) "assists" (PDict ∅) = PDict a ->
  Rabs (steering_value (self w)) <= 0.6 ->
  _apply_assists w = (Ok tt, w).
Proof.
  intros Ha Hs.
  assert (Hc : _apply_counter_steer w = (Ok tt, w)).
  { unfold _apply_counter_steer, bind, get_self.
    destruct (Rlt_dec 0.8 _); [lra | reflexivity]. }
  assert (Hs' : _apply_anti_spin w = (Ok tt, w)).
  { unfold _apply_anti_spin, bind, get_self.
    destruct (Rlt_dec 0.6 _); [lra | reflexivity]. }
  unfold _apply_assists. unfold bind at 1, get_self at 1. cbv zeta. rewrite Ha.
  cbn [py_get]. unfold bind at 1, lift at 1.
  destruct (truthy (dict_get a "counter_steer_assist" (PBool true)));
    [rewrite (bind_ok _ _ _ _ _ Hc) | unfold bind at 1, ret at 1];
    unfold bind at 1, lift at 1;
    destruct (truthy (dict_get a "anti_spin_assist" (PBool true)));
    auto.
Qed.

(** Steering is at rest when neither steer key is held and the wheel is
    centred. *)
Lemma update_steering_rest (clk : nat -> R) (w : W) :
  dict_get (config (self w)) "steering" (PDict ∅) = PDict ∅ ->
  steering_key_values clk (PDict ∅) w = (Ok (0, 0), w) ->
  steering_value (self w) = 0 ->
  _update_steering clk (1 / 60) w = (Ok tt, w).
Proof.
  intros Hst Hkv H0.
  assert (Hw : w = mkWorld (self w) (reads w) (trace w)) by (destruct w; reflexivity).
  rewrite Hw in Hkv at 2.
  rewrite (update_steering_eq clk (1 / 60) w ∅ 0 0 (reads w) (0 - 0) 0 Hst Hkv);
    try reflexivity.
  - rewrite Hw at 3. do 2 f_equal. rewrite <- H0. destruct w as [[] ? ?]; reflexivity.
  - rewrite H0. apply smooth_value_near.
    replace (0 - 0 - 0) with 0 by lra. rewrite Rabs_R0. lra.
  - intros _. apply smooth_value_near.
    replace (0 - (0 - 0)) with 0 by lra. rewrite Rabs_R0. lra.
  - intros H. exfalso. apply H. split; reflexivity.
Qed.

(** A tick at 60 Hz on a default processor at rest whose accelerator has
    been held for [h]: only the throttle moves, by 0.3 of the key value. *)
Lemma tick_with_throttle_held (clk : nat -> R) (press : R) :
  ~ Rabs (hold_curve (clk 0%nat - press) - 0) < 0.001 ->
  exists w',
    update clk (1 / 60)
      (mkWorld
         (mkKeyboardProcessor ∅
            (<["w" := mkKeyState true press 0 0 0]> default_key_states)
            0 0 0 0.8 0.7) 0 nil) = (Ok tt, w')
    /\ get_inputs (self w') = (0, hold_curve (clk 0%nat - press) * 0.3, 0).
Proof.
  intros Hfar.
  set (w := mkWorld
         (mkKeyboardProcessor ∅
            (<["w" := mkKeyState true press 0 0 0]> default_key_states)
            0 0 0 0.8 0.7) 0 nil).
  assert (E1 : _update_steering clk (1 / 60) w = (Ok tt, w))
    by (apply update_steering_rest; reflexivity).
  set (tv := hold_curve (clk 0%nat - press)) in *.
  assert (E2 : _update_pedals clk (1 / 60) w =
                 (Ok tt, mkWorld (set_brake_value 0
                                    (set_throttle_value (0 + (tv - 0) * (1 - 0.7)) (self w)))
                           1 (trace w))).
  { apply (update_pedals_eq clk (1 / 60) w ∅ tv 0 1 1); try reflexivity.
    - cbn [self throttle_value pedal_smoothing w].
      rewrite smooth_value_far by (try exact Hfar; lra).
      now rewrite Rpower_tick by lra.
    - apply smooth_value_near. cbn. replace (0 - 0) with 0 by lra.
      rewrite Rabs_R0. lra. }
  eexists. split.
  - unfold update. rewrite (bind_ok _ _ _ _ _ E1). rewrite (bind_ok _ _ _ _ _ E2).
    apply (apply_assists_idle _ ∅); [reflexivity |].
    cbn. rewrite Rabs_R0. lra.
  - cbn. unfold get_inputs. cbn. f_equal. f_equal. lra.
Qed.

End ConcreteTicks.

Section Counterexamples.

Import keyboard_processor scenario.

Lemma hold_curve_eq_any (h : R) : hold_curve h = 1 - exp (- h * 2).
Proof.
  unfold hold_curve. cbv zeta. apply Rmin_right.
  pose proof (exp_pos (- h * 2)). lra.
Qed.

Lemma hold_curve_strict (h1 h2 : R) : h1 < h2 -> hold_curve h1 < hold_curve h2.
Proof.
  intros H. rewrite !hold_curve_eq_any.
  assert (exp (- h2 * 2) < exp (- h1 * 2)) by (apply exp_increasing; lra). lra.
Qed.

Lemma hold_curve_after_one_second (h : R) : 1 <= h -> 2 / 3 < hold_curve h.
Proof.
  intros Hh. rewrite hold_curve_eq_any.
  replace (- h * 2) with (- (h * 2)) by lra. rewrite exp_Ropp.
  assert (H3 : 3 < exp (h * 2)).
  { pose proof (exp_ineq1 (h * 2)) as Hi. assert (h * 2 <> 0) by lra.
    specialize (Hi H). lra. }
  assert (/ exp (h * 2) < / 3) by (apply Rinv_lt_contravar; nra).
  lra.
Qed.

Lemma hold_curve_before_press : hold_curve (1700000000 - 1700000001) < -2.
Proof.
  rewrite hold_curve_eq_any.
  replace (- (1700000000 - 1700000001) * 2) with 2 by lra.
  pose proof (exp_ineq1 2) as Hi. assert (H : 2 <> 0) by lra.
  specialize (Hi H). lra.
Qed.

Lemma default_key_states_unpressed (key : string) (state : KeyState) :
  default_key_states !! key = Some state -> pressed state = false.
Proof.
  unfold default_key_states. intros H.
  repeat (apply lookup_insert_Some in H as [[_ <-] | [_ H]]; [reflexivity |]).
  rewrite lookup_empty in H. discriminate.
Qed.

Lemma default_config_in_range : config_in_range ∅.
Proof.
  exists ∅, ∅, ∅, 0.3, 0.5, 0.6.
  repeat split; try reflexivity; try exact I; lra.
Qed.

(** C3 fails as stated: the same key states, the same [dt] and the same
    configuration give different axes when the wall clock reads 1 or 2 at
    the tick. *)
Lemma output_depends_on_wall_clock_counterexample :
  fst (run (clock_at 1) (Tick (1 / 60) :: nil) throttle_held_world)
  <> fst (run (clock_at 2) (Tick (1 / 60) :: nil) throttle_held_world).
Proof.
  pose proof (hold_curve_after_one_second (1 - 0)) as H1.
  pose proof (hold_curve_after_one_second (2 - 0)) as H2.
  pose proof (hold_curve_strict (1 - 0) (2 - 0)) as Hlt.
  destruct (tick_with_throttle_held (clock_at 1) 0) as (w1 & E1 & O1).
  { unfold clock_at. rewrite Rabs_right; lra. }
  destruct (tick_with_throttle_held (clock_at 2) 0) as (w2 & E2 & O2).
  { unfold clock_at. rewrite Rabs_right; lra. }
  unfold throttle_held_world. cbn [run]. rewrite E1, E2. cbn [fst].
  rewrite O1, O2. unfold clock_at. intros [= H]. lra.
Qed.

(** C5 (a defect of the code). With the stated conditions on [dt], the
    configuration and the axes, a tick of a processor whose accelerator was
    pressed at clock reading 1700000001, taken when the clock reads
    1700000000 (the system clock was set back by a second in between),
    returns a negative throttle: the hold time is negative, the key value
    [1 - exp(2)] has no lower clamp (only [min(1.0, curve)]), and the axis
    documented as 0.0 to 1.0 leaves its bounds. *)
Theorem update_early_clock_negative_throttle :
  0 <= 1 / 60
  /\ config_in_range (config (self early_clock_world))
  /\ smoothing_in_range (self early_clock_world)
  /\ axes_in_bounds (self early_clock_world)
  /\ exists w',
       update (clock_at 1700000000) (1 / 60) early_clock_world = (Ok tt, w')
       /\ throttle_value (self w') < 0
       /\ ~ axes_in_bounds (self w').
Proof.
  split; [lra |].
  split; [exact default_config_in_range |].
  split; [unfold smoothing_in_range; cbn; lra |].
  split; [unfold axes_in_bounds; cbn; lra |].
  pose proof hold_curve_before_press as Hc.
  destruct (tick_with_throttle_held (clock_at 1700000000) 1700000001)
    as (w' & E & O).
  { unfold clock_at. rewrite Rabs_left; lra. }
  exists w'. split; [exact E |].
  unfold get_inputs, clock_at in O. injection O as Hs Ht Hb.
  assert (Hneg : throttle_value (self w') < 0) by lra.
  split; [exact Hneg |].
  intros (_ & Hthr & _). lra.
Qed.

(** C2 fails as stated: with a deadzone of 0.05 configured and a raw
    steering target of 0.03, the target handed to smoothing is 0.03, and
    steering moves to 0.006 instead of staying at the 0 that smoothing
    toward 0.0 gives. *)
Lemma deadzone_ignored_counterexample :
  dict_get (config (self light_steer_world)) "deadzone" PNone = PNum 0.05
  /\ (exists w1,
        steering_key_values light_hold_clock
          (dict_get (config (self light_steer_world)) "steering" (PDict ∅))
          light_steer_world = (Ok (0, 0.03), w1))
  /\ Rabs (0.03 - 0) < 0.05
  /\ _smooth_value 0 0 (PNum 0.8) (1 / 60) = Ok 0
  /\ exists w',
       _update_steering light_hold_clock (1 / 60) light_steer_world = (Ok tt, w')
       /\ steering_value (self w') = 0.006.
Proof.
  assert (Hrv : hold_curve (light_hold_clock 0%nat - 0) = 0.03).
  { rewrite hold_curve_eq_any. unfold light_hold_clock, clock_at.
    replace (- (- ln 0.97 / 2 - 0) * 2) with (ln 0.97) by lra.
    rewrite exp_ln; lra. }
  assert (Hkv : steering_key_values light_hold_clock
                  (PDict (<["deadzone" := PNum 0.05]> ∅)) light_steer_world
                = (Ok (0, 0.03),
                   mkWorld (self light_steer_world) 1 (trace light_steer_world))).
  { rewrite <- Hrv. reflexivity. }
  split; [reflexivity |].
  split; [eexists; exact Hkv |].
  split; [rewrite Rabs_right; lra |].
  split; [apply smooth_value_at_target |].
  eexists. split.
  - apply (update_steering_eq light_hold_clock (1 / 60) light_steer_world
             (<["deadzone" := PNum 0.05]> ∅) 0 0.03 1
             (0 + (0.03 - 0 - 0) * (1 - 0.8)) (0 + (0.03 - 0 - 0) * (1 - 0.8)));
      try reflexivity.
    + exact Hkv.
    + cbn [self steering_value steering_smoothing light_steer_world].
      rewrite smooth_value_far; [now rewrite Rpower_tick by lra | | lra | lra].
      rewrite Rabs_right; lra.
    + intros [_ H]. lra.
  - cbn. lra.
Qed.

Lemma deadzone_has_no_effect_witness :
  fst (update light_hold_clock (1 / 60)
         (set_config (with_deadzone (PNum 0.05) (config (self throttle_held_world)))
            throttle_held_world))
  = fst (update light_hold_clock (1 / 60) throttle_held_world).
Proof.
  exact (proj1 (deadzone_has_no_effect light_hold_clock (1 / 60) (PNum 0.05)
                  throttle_held_world)).
Defined.

End Counterexamples.

(** ** The claims at concrete inputs *)

Section Witnesses.

Import scenario.


Import input_device_manager arbitration_scenario.

Lemma notify_isolates_listener_errors_witness :
  exists w',
    _notify_device_changed (fresh_manager (failing_listener :: quiet_listener :: nil))
      = (Ok tt, w')
    /\ invocations (trace w') = ("failing", UNKNOWN) :: ("quiet", UNKNOWN) :: nil
    /\ In (Log (LogError "Error in device change callback" (Exception "boom")))
         (trace w').
Proof.
  destruct (notify_isolates_listener_errors
              (fresh_manager (failing_listener :: quiet_listener :: nil)))
    as (w' & E & _ & _ & Hinv & Hlog).
  exists w'. split; [exact E |]. split; [exact Hinv |].
  apply (Hlog failing_listener (Exception "boom")); [left |]; reflexivity.
Defined.

Lemma arbitration_step_and_scenario_witness :
  exists w2 w3,
    detection_step (activity_clock 1) no_key w2 = (Ok tt, w3)
    /\ _device_detection_loop (activity_clock 1) (w_down :: no_key :: no_key :: nil)
         (fresh_manager (quiet_listener :: nil)) = (Ok tt, w3)
    /\ current_device (self w2) = KEYBOARD
    /\ current_device (self w3) = UNKNOWN
    /\ invocations (trace w3) = invocations (trace w2) ++ ("quiet", UNKNOWN) :: nil.
Proof.
  destruct (proj2 arbitration_step_and_scenario 1 (quiet_listener :: nil))
    as (w1 & w2 & w3 & E1 & E2 & E3 & Eloop & _ & _ & _ & _ & D2 & _ & D3 & Hinv);
    [lra |].
  exists w2, w3.
  split; [exact E3 |]. split; [exact Eloop |].
  split; [exact D2 |]. split; [exact D3 |]. exact Hinv.
Defined.

End Witnesses.

(** ** Binary64 rounding *)

Section Binary64.

Import binary64.

Lemma bpow_pos (e : Z) : 0 < bpow e.
Proof. apply powerRZ_lt. lra. Qed.

Lemma bpow_add (a b : Z) : bpow (a + b) = bpow a * bpow b.
Proof. apply powerRZ_add. lra. Qed.

Lemma bpow_0 : bpow 0 = 1.
Proof. reflexivity. Qed.

Lemma bpow_opp (e : Z) : bpow (- e) = / bpow e.
Proof. apply powerRZ_neg'. Qed.

Lemma bpow_cancel (e : Z) : bpow (- e) * bpow e = 1.
Proof. rewrite <- bpow_add. replace (- e + e)%Z with 0%Z by lia. reflexivity. Qed.

Lemma bpow_Rpower (e : Z) : bpow e = Rpower 2 (IZR e).
Proof. apply powerRZ_Rpower. lra. Qed.

Lemma bpow_le (a b : Z) : (a <= b)%Z -> bpow a <= bpow b.
Proof.
  intros H. rewrite !bpow_Rpower. apply Rle_Rpower; [lra |]. now apply IZR_le.
Qed.

Lemma bpow_lt (a b : Z) : (a < b)%Z -> bpow a < bpow b.
Proof.
  intros H. rewrite !bpow_Rpower. apply Rpower_lt; [lra |]. now apply IZR_lt.
Qed.

Lemma bpow_lt_inv (a b : Z) : bpow a < bpow b -> (a < b)%Z.
Proof.
  intros H. destruct (Z_lt_le_dec a b) as [Hlt | Hle]; [exact Hlt |].
  apply bpow_le in Hle. lra.
Qed.

(** A non-negative power of two is an integer. *)
Lemma bpow_IZR (e : Z) : (0 <= e)%Z -> bpow e = IZR (2 ^ e).
Proof.
  intros He. unfold bpow.
  rewrite <- (Z2Nat.id e He) at 1. rewrite <- pow_powerRZ.
  rewrite pow_IZR. now rewrite Z2Nat.id.
Qed.

Lemma ln_2_pos : 0 < ln 2.
Proof. rewrite <- ln_1. apply ln_increasing; lra. Qed.

Lemma mag_spec (x : R) : x <> 0 -> bpow (mag x - 1) <= Rabs x < bpow (mag x).
Proof.
  intros Hx. unfold mag.
  set (r := ln (Rabs x) / ln 2).
  pose proof (Zfloor_bound r) as [Hlo Hhi].
  pose proof ln_2_pos as H2.
  assert (Ha : 0 < Rabs x) by now apply Rabs_pos_lt.
  assert (Hr : Rabs x = exp (r * ln 2)).
  { unfold r. unfold Rdiv. rewrite Rmult_assoc, Rinv_l by lra.
    rewrite Rmult_1_r. now rewrite exp_ln. }
  replace (Zfloor r + 1 - 1)%Z with (Zfloor r) by lia.
  rewrite !bpow_Rpower. unfold Rpower. rewrite Hr. rewrite plus_IZR. split.
  - destruct Hlo as [Hlt | Heq].
    + left. apply exp_increasing. nra.
    + right. now rewrite Heq.
  - apply exp_increasing. nra.
Qed.

Lemma mag_unique (x : R) (e : Z) : bpow (e - 1) <= Rabs x < bpow e -> mag x = e.
Proof.
  intros [Hlo Hhi].
  assert (Hx : x <> 0).
  { intros ->. rewrite Rabs_R0 in Hlo. pose proof (bpow_pos (e - 1)). lra. }
  destruct (mag_spec x Hx) as [Mlo Mhi].
  assert (mag x - 1 < e)%Z by (apply bpow_lt_inv; lra).
  assert (e - 1 < mag x)%Z by (apply bpow_lt_inv; lra).
  lia.
Qed.

Lemma mag_opp (x : R) : mag (- x) = mag x.
Proof. unfold mag. now rewrite Rabs_Ropp. Qed.

Lemma mag_le (x y : R) : 0 < x -> x <= y -> (mag x <= mag y)%Z.
Proof.
  intros Hx Hxy.
  destruct (mag_spec x) as [Xlo Xhi]; [lra |].
  destruct (mag_spec y) as [Ylo Yhi]; [lra |].
  rewrite Rabs_right in Xlo, Xhi by lra. rewrite Rabs_right in Ylo, Yhi by lra.
  assert (mag x - 1 < mag y)%Z by (apply bpow_lt_inv; lra). lia.
Qed.

(** *** Nearest integer *)

Lemma ZnearestE_IZR (n : Z) : ZnearestE (IZR n) = n.
Proof.
  unfold ZnearestE. rewrite ZfloorZ.
  destruct (Rlt_dec (IZR n - IZR n) (/ 2)); [reflexivity | lra].
Qed.

Lemma ZnearestE_cases (x : R) :
  let f := Zfloor x in
  (ZnearestE x = f /\ x - IZR f <= / 2)
  \/ (ZnearestE x = (f + 1)%Z /\ / 2 <= x - IZR f).
Proof.
  cbv zeta. unfold ZnearestE.
  destruct (Rlt_dec (x - IZR (Zfloor x)) (/ 2)); [left; split; [reflexivity | lra] |].
  destruct (Rlt_dec (/ 2) (x - IZR (Zfloor x))); [right; split; [reflexivity | lra] |].
  destruct (Z.even (Zfloor x)); [left | right]; split; try reflexivity; lra.
Qed.

Lemma ZnearestE_error (x : R) : Rabs (IZR (ZnearestE x) - x) <= / 2.
Proof.
  pose proof (Zfloor_bound x) as [Hlo Hhi].
  destruct (ZnearestE_cases x) as [[-> H] | [-> H]].
  - rewrite Rabs_left1; lra.
  - rewrite plus_IZR. rewrite Rabs_right; lra.
Qed.

Lemma ZnearestE_near (x : R) (n : Z) : Rabs (x - IZR n) < / 2 -> ZnearestE x = n.
Proof.
  intros H. apply Rabs_def2 in H as [H1 H2].
  pose proof (Zfloor_bound x) as [Hlo Hhi].
  destruct (ZnearestE_cases x) as [[-> Hf] | [-> Hf]].
  - assert (IZR (Zfloor x) < IZR n + 1) by lra.
    assert (IZR n - 1 < IZR (Zfloor x)) by lra.
    rewrite <- plus_IZR in H. rewrite <- minus_IZR in H0.
    apply lt_IZR in H, H0. lia.
  - assert (IZR (Zfloor x) + 1 < IZR n + 1) by lra.
    assert (IZR n - 1 < IZR (Zfloor x) + 1) by lra.
    rewrite <- !plus_IZR in H. rewrite <- minus_IZR, <- plus_IZR in H0.
    apply lt_IZR in H, H0. lia.
Qed.

Lemma ZnearestE_le (x y : R) : x <= y -> (ZnearestE x <= ZnearestE y)%Z.
Proof.
  intros Hxy.
  pose proof (Zfloor_le x y Hxy) as Hf.
  pose proof (Zfloor_bound x) as [Xlo Xhi].
  pose proof (Zfloor_bound y) as [Ylo Yhi].
  destruct (Z.eq_dec (Zfloor x) (Zfloor y)) as [Heq | Hne].
  - unfold ZnearestE. rewrite <- Heq.
    destruct (Rlt_dec (x - IZR (Zfloor x)) (/ 2));
      destruct (Rlt_dec (y - IZR (Zfloor x)) (/ 2)); try lia; try lra.
    + destruct (Rlt_dec (/ 2) (y - IZR (Zfloor x))); [lia |].
      destruct (Z.even (Zfloor x)); lia.
    + destruct (Rlt_dec (/ 2) (x - IZR (Zfloor x)));
        destruct (Rlt_dec (/ 2) (y - IZR (Zfloor x))); try lia; try lra.
      destruct (Z.even (Zfloor x)); lia.
  - destruct (ZnearestE_cases x) as [[-> _] | [-> _]];
      destruct (ZnearestE_cases y) as [[-> _] | [-> _]]; lia.
Qed.

Lemma ZnearestE_opp (x : R) : ZnearestE (- x) = (- ZnearestE x)%Z.
Proof.
  pose proof (Zfloor_bound x) as [Hlo Hhi].
  destruct (Req_dec_T x (IZR (Zfloor x))) as [Hint | Hfrac].
  - rewrite Hint. rewrite <- opp_IZR. now rewrite !ZnearestE_IZR.
  - assert (Hf : Zfloor (- x) = (- Zfloor x - 1)%Z).
    { apply Zfloor_eq. rewrite minus_IZR, opp_IZR. lra. }
    unfold ZnearestE. rewrite Hf. rewrite minus_IZR, opp_IZR.
    destruct (Rlt_dec (x - IZR (Zfloor x)) (/ 2));
      destruct (Rlt_dec (- x - (- IZR (Zfloor x) - 1)) (/ 2)); try lra.
    + destruct (Rlt_dec (/ 2) (- x - (- IZR (Zfloor x) - 1))); [lia | lra].
    + destruct (Rlt_dec (/ 2) (x - IZR (Zfloor x))); [lia | lra].
    + destruct (Rlt_dec (/ 2) (x - IZR (Zfloor x)));
        destruct (Rlt_dec (/ 2) (- x - (- IZR (Zfloor x) - 1))); try lra.
      replace (- Zfloor x - 1)%Z with (- (Zfloor x + 1))%Z by lia.
      rewrite Z.even_opp. replace (Zfloor x + 1)%Z with (Z.succ (Zfloor x)) by lia.
      rewrite Z.even_succ. rewrite <- Z.negb_even.
      destruct (Z.even (Zfloor x)); cbn; lia.
Qed.

(** *** Rounding *)

Lemma round_0 : round 0 = 0.
Proof.
  unfold round. cbv zeta. rewrite Rmult_0_l.
  change 0 with (IZR 0). rewrite ZnearestE_IZR. change (IZR 0) with 0. lra.
Qed.

Lemma round_opp (x : R) : round (- x) = - round x.
Proof.
  unfold round. cbv zeta. rewrite mag_opp.
  replace (- x * bpow (- fexp (mag x))) with (- (x * bpow (- fexp (mag x)))) by lra.
  rewrite ZnearestE_opp, opp_IZR. lra.
Qed.

Lemma round_nonneg (x : R) : 0 <= x -> 0 <= round x.
Proof.
  intros Hx. unfold round. cbv zeta.
  pose proof (bpow_pos (fexp (mag x))) as Hb.
  pose proof (bpow_pos (- fexp (mag x))) as Hb'.
  assert (Hz : (0 <= ZnearestE (x * bpow (- fexp (mag x))))%Z).
  { rewrite <- (ZnearestE_IZR 0). apply ZnearestE_le. change (IZR 0) with 0. nra. }
  apply IZR_le in Hz. change (IZR 0) with 0 in Hz. nra.
Qed.

(** Numbers on the binary64 grid round to themselves. *)
Lemma round_grid (m e : Z) :
  (Z.abs m < 2 ^ 53)%Z -> (-1074 <= e)%Z ->
  round (IZR m * bpow e) = IZR m * bpow e.
Proof.
  intros Hm He.
  destruct (Z.eq_dec m 0%Z) as [-> | Hm0].
  { change (IZR 0) with 0. rewrite Rmult_0_l. apply round_0. }
  set (x := IZR m * bpow e).
  assert (Hx : x <> 0).
  { unfold x. pose proof (bpow_pos e). apply Rmult_integral_contrapositive_currified.
    - now apply not_0_IZR.
    - lra. }
  destruct (mag_spec x Hx) as [Mlo Mhi].
  assert (Habs : Rabs x = IZR (Z.abs m) * bpow e).
  { unfold x. rewrite Rabs_mult, <- abs_IZR. rewrite (Rabs_right (bpow e)); [reflexivity |].
    pose proof (bpow_pos e). lra. }
  assert (Hfe : (fexp (mag x) <= e)%Z).
  { assert (Hb : Rabs x < bpow (53 + e)).
    { rewrite Habs, bpow_add, (bpow_IZR 53) by lia.
      apply Rmult_lt_compat_r; [apply bpow_pos |]. now apply IZR_lt. }
    assert (mag x - 1 < 53 + e)%Z by (apply bpow_lt_inv; lra).
    unfold fexp. lia. }
  unfold round. cbv zeta.
  assert (Hs : x * bpow (- fexp (mag x)) = IZR (m * 2 ^ (e - fexp (mag x)))).
  { rewrite mult_IZR, <- bpow_IZR by lia.
    replace (e - fexp (mag x))%Z with (e + - fexp (mag x))%Z by lia.
    rewrite bpow_add. unfold x at 1. lra. }
  rewrite Hs, ZnearestE_IZR, mult_IZR, <- bpow_IZR by lia.
  rewrite Rmult_assoc, <- bpow_add.
  replace (e - fexp (mag x) + fexp (mag x))%Z with e by lia. reflexivity.
Qed.

Lemma round_IZR (n : Z) : (Z.abs n < 2 ^ 53)%Z -> round (IZR n) = IZR n.
Proof.
  intros Hn. pose proof (round_grid n 0 Hn) as H.
  rewrite bpow_0, Rmult_1_r in H. apply H. lia.
Qed.

Lemma round_bpow (e : Z) : (-1074 <= e)%Z -> round (bpow e) = bpow e.
Proof.
  intros He. pose proof (round_grid 1 e) as H.
  rewrite Rmult_1_l in H. apply H; [now apply Z.ltb_lt | exact He].
Qed.

Lemma bpow_m1 : bpow (-1) = / 2.
Proof.
  unfold bpow. cbn. change (Pos.to_nat 1) with 1%nat. cbn. now rewrite Rmult_1_r.
Qed.

Lemma bpow_half (e : Z) : / 2 * bpow e = bpow (e - 1).
Proof.
  replace (e - 1)%Z with (e + -1)%Z by lia. rewrite bpow_add, bpow_m1. lra.
Qed.

Lemma round_scaled (x : R) :
  x = x * bpow (- fexp (mag x)) * bpow (fexp (mag x)).
Proof. rewrite Rmult_assoc, bpow_cancel. lra. Qed.

Lemma round_pos_upper (x : R) :
  0 < x -> round x <= bpow (Z.max (mag x) (fexp (mag x))).
Proof.
  intros Hx. destruct (mag_spec x) as [_ Mhi]; [lra |].
  rewrite Rabs_right in Mhi by lra.
  set (fe := fexp (mag x)) in *. set (B := Z.max (mag x) fe).
  assert (Hs : x * bpow (- fe) <= IZR (2 ^ (B - fe))).
  { rewrite <- bpow_IZR by lia.
    replace (B - fe)%Z with (B + - fe)%Z by lia. rewrite bpow_add.
    apply Rmult_le_compat_r; [pose proof (bpow_pos (- fe)); lra |].
    assert (bpow (mag x) <= bpow B) by (apply bpow_le; lia). lra. }
  apply ZnearestE_le in Hs. rewrite ZnearestE_IZR in Hs. apply IZR_le in Hs.
  rewrite <- bpow_IZR in Hs by lia.
  unfold round. cbv zeta. fold fe.
  replace (bpow B) with (bpow (B - fe) * bpow fe).
  - apply Rmult_le_compat_r; [pose proof (bpow_pos fe); lra | exact Hs].
  - rewrite <- bpow_add. f_equal. lia.
Qed.

Lemma round_pos_lower (x : R) :
  0 < x -> (fexp (mag x) <= mag x - 1)%Z -> bpow (mag x - 1) <= round x.
Proof.
  intros Hx Hfe. destruct (mag_spec x) as [Mlo _]; [lra |].
  rewrite Rabs_right in Mlo by lra.
  set (fe := fexp (mag x)) in *.
  assert (Hs : IZR (2 ^ (mag x - 1 - fe)) <= x * bpow (- fe)).
  { rewrite <- bpow_IZR by lia.
    replace (mag x - 1 - fe)%Z with (mag x - 1 + - fe)%Z by lia. rewrite bpow_add.
    apply Rmult_le_compat_r; [pose proof (bpow_pos (- fe)); lra | exact Mlo]. }
  apply ZnearestE_le in Hs. rewrite ZnearestE_IZR in Hs. apply IZR_le in Hs.
  rewrite <- bpow_IZR in Hs by lia.
  unfold round. cbv zeta. fold fe.
  replace (bpow (mag x - 1)) with (bpow (mag x - 1 - fe) * bpow fe).
  - apply Rmult_le_compat_r; [pose proof (bpow_pos fe); lra | exact Hs].
  - rewrite <- bpow_add. f_equal. lia.
Qed.

Lemma round_le_pos (x y : R) : 0 < x -> x <= y -> round x <= round y.
Proof.
  intros Hx Hxy.
  pose proof (mag_le x y Hx Hxy) as Hm.
  destruct (Z.eq_dec (fexp (mag x)) (fexp (mag y))) as [Heq | Hne].
  - unfold round. cbv zeta. rewrite Heq.
    apply Rmult_le_compat_r; [pose proof (bpow_pos (fexp (mag y))); lra |].
    apply IZR_le, ZnearestE_le.
    apply Rmult_le_compat_r; [pose proof (bpow_pos (- fexp (mag y))); lra | exact Hxy].
  - assert (Hy : 0 < y) by lra.
    pose proof (round_pos_upper x Hx) as Hup.
    assert (Hfy : (fexp (mag y) <= mag y - 1)%Z) by (unfold fexp in *; lia).
    pose proof (round_pos_lower y Hy Hfy) as Hlo.
    assert (bpow (Z.max (mag x) (fexp (mag x))) <= bpow (mag y - 1)).
    { apply bpow_le. unfold fexp in *. lia. }
    lra.
Qed.

(** Rounding is monotone. *)
Lemma round_le (x y : R) : x <= y -> round x <= round y.
Proof.
  intros Hxy.
  destruct (Rlt_dec 0 x) as [Hx | Hx].
  - now apply round_le_pos.
  - destruct (Rle_dec 0 y) as [Hy | Hy].
    + pose proof (round_nonneg y Hy).
      assert (0 <= round (- x)) by (apply round_nonneg; lra).
      rewrite round_opp in H0. lra.
    + assert (round (- y) <= round (- x)) by (apply round_le_pos; lra).
      rewrite !round_opp in H. lra.
Qed.

Lemma round_error_ulp (x : R) :
  Rabs (round x - x) <= / 2 * bpow (fexp (mag x)).
Proof.
  rewrite (round_scaled x) at 2. unfold round. cbv zeta.
  rewrite <- Rmult_minus_distr_r, Rabs_mult.
  rewrite (Rabs_right (bpow _)) by (pose proof (bpow_pos (fexp (mag x))); lra).
  apply Rmult_le_compat_r; [pose proof (bpow_pos (fexp (mag x))); lra |].
  apply ZnearestE_error.
Qed.

(** The error of rounding: relative [2^-53], or absolute [2^-1075] among
    the subnormal numbers. *)
Lemma round_error (x : R) :
  Rabs (round x - x) <= bpow (-53) * Rabs x + bpow (-1075).
Proof.
  pose proof (bpow_pos (-53)) as H53. pose proof (bpow_pos (-1075)) as H1075.
  destruct (Req_dec_T x 0) as [-> | Hx].
  { rewrite round_0, Rminus_0_r, Rabs_R0. lra. }
  pose proof (round_error_ulp x) as He. rewrite bpow_half in He.
  destruct (mag_spec x Hx) as [Mlo _].
  pose proof (Rabs_pos x) as Ha.
  destruct (Z_le_gt_dec (-1074) (mag x - 53)) as [Hn | Hs].
  - replace (fexp (mag x) - 1)%Z with (-53 + (mag x - 1))%Z in He
      by (unfold fexp; lia).
    rewrite bpow_add in He. nra.
  - replace (fexp (mag x) - 1)%Z with (-1075)%Z in He by (unfold fexp; lia).
    nra.
Qed.

End Binary64.

(** ** The hold curve in binary64 arithmetic *)

Section RoundedHoldCurve.

Import binary64 rounded.

Lemma round_1 : round 1 = 1.
Proof. apply (round_IZR 1). now apply Z.ltb_lt. Qed.

(** [math.exp] of a non-positive number is in [[0,1]]. *)
Lemma math_exp_unit (x : R) : x <= 0 -> 0 <= math_exp x <= 1.
Proof.
  intros Hx. unfold math_exp. split.
  - apply round_nonneg. pose proof (exp_pos x). lra.
  - rewrite <- round_1. apply round_le. rewrite <- exp_0. now apply exp_le_mono.
Qed.

Lemma round_nonpos (x : R) : x <= 0 -> round x <= 0.
Proof. intros Hx. rewrite <- round_0. now apply round_le. Qed.

Lemma rounded_hold_curve_unit (h : R) : 0 <= h -> 0 <= hold_curve h <= 1.
Proof.
  intros Hh. unfold hold_curve. cbv zeta.
  assert (Ha : round (- h * 2) <= 0) by (apply round_nonpos; lra).
  destruct (math_exp_unit _ Ha) as [He0 He1].
  assert (0 <= round (1 - math_exp (round (- h * 2)))) by (apply round_nonneg; lra).
  split.
  - apply Rmin_glb; lra.
  - apply Rmin_l.
Qed.

Lemma rounded_hold_curve_le (h1 h2 : R) : h1 <= h2 -> hold_curve h1 <= hold_curve h2.
Proof.
  intros H. unfold hold_curve, math_exp. cbv zeta.
  apply Rle_min_compat_l. apply round_le.
  assert (round (exp (round (- h2 * 2))) <= round (exp (round (- h1 * 2)))).
  { apply round_le, exp_le_mono, round_le. lra. }
  lra.
Qed.

(** C7 (as the code has it). For every hold time [h >= 0] the raw curve
    [min(1.0, 1.0 - math.exp(-h * 2.0))], computed in binary64 arithmetic,
    lies in the closed interval [[0, 1]], is monotonically non-decreasing
    in the hold time, and is [0] at hold time [0]. *)
Theorem hold_curve_closed_range_monotone (h1 h2 : R) :
  0 <= h1 -> h1 <= h2 ->
  hold_curve 0 = 0
  /\ (0 <= hold_curve h1 <= 1)
  /\ hold_curve h1 <= hold_curve h2.
Proof.
  intros H1 H12. split; [| split].
  - unfold hold_curve, math_exp. cbv zeta.
    replace (- 0 * 2) with 0 by lra.
    rewrite round_0, exp_0, round_1.
    replace (1 - 1) with 0 by lra. rewrite round_0.
    apply Rmin_right. lra.
  - now apply rounded_hold_curve_unit.
  - now apply rounded_hold_curve_le.
Qed.

(** [e^-60 <= 2^-60] *)
Lemma exp_minus_60 : exp (- 60) <= bpow (- 60).
Proof.
  assert (H2 : 2 <= exp 1).
  { pose proof (exp_ineq1 1). lra. }
  change (exp (- 60)) with (exp (- IZR 60)).
  change (bpow (- 60)) with (bpow (Z.opp 60)).
  rewrite exp_Ropp, bpow_opp.
  apply Rinv_le_contravar; [apply bpow_pos |].
  rewrite bpow_Rpower. unfold Rpower.
  rewrite <- (exp_ln 2) in H2 by lra.
  destruct H2 as [H2 | H2].
  - apply exp_lt_inv in H2. left. apply exp_increasing. lra.
  - apply exp_inv in H2. right. f_equal. lra.
Qed.

(** Just below 1 the nearest binary64 number is 1. *)
Lemma round_below_1 (z : R) : 0 <= z <= bpow (- 60) -> round (1 - z) = 1.
Proof.
  intros [[Hz0 | <-] Hz1]; [| rewrite Rminus_0_r; exact round_1].
  assert (H60 : bpow (- 60) = / 1152921504606846976).
  { change (bpow (- 60)) with (bpow (Z.opp 60)).
    rewrite bpow_opp, bpow_IZR by lia.
    replace (2 ^ 60)%Z with 1152921504606846976%Z by reflexivity. reflexivity. }
  assert (H53 : bpow 53 = 9007199254740992).
  { rewrite bpow_IZR by lia.
    replace (2 ^ 53)%Z with 9007199254740992%Z by reflexivity. reflexivity. }
  rewrite H60 in Hz1.
  assert (Hmag : mag (1 - z) = 0%Z).
  { apply mag_unique. replace (0 - 1)%Z with (-1)%Z by lia.
    rewrite bpow_0, bpow_m1. rewrite Rabs_right; lra. }
  unfold round. cbv zeta. rewrite Hmag.
  replace (fexp 0) with (-53)%Z by reflexivity.
  replace (- -53)%Z with 53%Z by lia.
  rewrite (ZnearestE_near _ 9007199254740992).
  - rewrite <- H53, <- bpow_add. reflexivity.
  - rewrite H53. rewrite Rabs_left1; lra.
Qed.

End RoundedHoldCurve.

Section RoundedHoldCurveExamples.

Import binary64 rounded.

Lemma hold_curve_closed_range_monotone_witness :
  hold_curve 0 = 0 /\ (0 <= hold_curve 1 <= 1) /\ hold_curve 1 <= hold_curve 30.
Proof. apply (hold_curve_closed_range_monotone 1 30); lra. Defined.

(** C7 fails as stated: a key held for 30 seconds gives exactly 1.0,
    which is not in [[0, 1)]: [math.exp(-60.0)] is below [2^-60] and
    [1.0 - math.exp(-60.0)] rounds to 1.0. *)
Lemma hold_curve_saturates_counterexample :
  0 <= 30 /\ hold_curve 30 = 1 /\ ~ (0 <= hold_curve 30 < 1).
Proof.
  assert (H : hold_curve 30 = 1).
  { unfold hold_curve, math_exp. cbv zeta.
    replace (Ropp 30 * 2) with (IZR (- 60)) by lra.
    rewrite round_IZR by now apply Z.ltb_lt.
    rewrite round_below_1; [apply Rmin_left; lra |].
    split.
    - apply round_nonneg. pose proof (exp_pos (IZR (- 60))). lra.
    - rewrite <- (round_bpow (- 60)) by lia. apply round_le.
      exact exp_minus_60. }
  split; [lra |]. split; [exact H |]. rewrite H. lra.
Qed.

End RoundedHoldCurveExamples.

(** ** The smoothing step in binary64 arithmetic *)

Section RoundedSmoothing.

Import binary64 rounded.

Lemma Rabs_le_between (x a : R) : Rabs x <= a -> - a <= x <= a.
Proof. unfold Rabs. destruct (Rcase_abs x); lra. Qed.

Lemma bpow_m53 : bpow (- 53) = / 9007199254740992.
Proof.
  change (bpow (- 53)) with (bpow (Z.opp 53)).
  rewrite bpow_opp, bpow_IZR by lia.
  replace (2 ^ 53)%Z with 9007199254740992%Z by reflexivity. reflexivity.
Qed.

(** The rounding error of a number bounded by [B]. *)
Lemma round_within (x B : R) :
  Rabs x <= B ->
  - (/ 9007199254740992 * (B + 1)) <= round x - x <= / 9007199254740992 * (B + 1).
Proof.
  intros HB. apply Rabs_le_between.
  pose proof (round_error x) as He.
  assert (Hs : bpow (- 1075) <= bpow (- 53)) by (apply bpow_le; lia).
  rewrite bpow_m53 in *. nra.
Qed.

(** The threshold [0.001] as a binary64 number. *)
Lemma round_milli : 0.0009 <= round 0.001 <= 0.0011.
Proof.
  pose proof (round_within 0.001 0.001) as H.
  rewrite Rabs_right in H by lra. specialize (H (Rle_refl _)). lra.
Qed.

Lemma rounded_smooth_value_eq (c t s dt : R) :
  0 < s ->
  _smooth_value c t (PNum s) dt =
    Ok (if Rlt_dec (Rabs (round (t - c))) (round 0.001) then t
        else round (c + round (round (t - c) * smoothing_rate s dt))).
Proof.
  intros Hs. unfold _smooth_value, smoothing_rate.
  destruct (Rlt_dec (Rabs (round (t - c))) (round 0.001)); [reflexivity |].
  cbn [as_float]. unfold math_pow, Py.math_pow.
  destruct (Rlt_dec 0 s); [reflexivity | lra].
Qed.

Lemma rounded_smooth_value_at_target (t s dt : R) :
  0 < s -> _smooth_value t t (PNum s) dt = Ok t.
Proof.
  intros Hs. rewrite rounded_smooth_value_eq by exact Hs.
  destruct (Rlt_dec (Rabs (round (t - t))) (round 0.001)) as [_ | Hn]; [reflexivity |].
  exfalso. apply Hn. replace (t - t) with 0 by lra.
  rewrite round_0, Rabs_R0. pose proof round_milli. lra.
Qed.

(** One step away from the snap zone, toward a target above: the value
    moves up by at least [2^-31] and does not pass the target. *)
Lemma rounded_step_up (c t r : R) :
  -1 <= c <= 1 -> -1 <= t <= 1 ->
  / 2 ^ 20 <= r <= 1 - / 2 ^ 20 ->
  c <= t ->
  ~ Rabs (round (t - c)) < round 0.001 ->
  c + / 2 ^ 31 <= round (c + round (round (t - c) * r)) <= t.
Proof.
  intros Hc Ht Hr Hct Hfar.
  pose proof round_milli as Hm.
  set (u := / 9007199254740992) in *.
  assert (Hu : 0 < u < / 1000000000000000) by (unfold u; lra).
  replace (/ 2 ^ 20) with (/ 1048576) in Hr by (f_equal; lra).
  replace (/ 2 ^ 31) with (/ 2147483648) by (f_equal; lra).
  set (D := round (t - c)) in *.
  assert (HD : - (u * 3) <= D - (t - c) <= u * 3).
  { assert (Hb : Rabs (t - c) <= 2) by (rewrite Rabs_right; lra).
    pose proof (round_within (t - c) 2 Hb). unfold u, D. lra. }
  assert (HD0 : 0.0009 <= D).
  { apply Rnot_lt_le in Hfar. unfold Rabs in Hfar.
    destruct (Rcase_abs D); lra. }
  set (A := D * r).
  assert (HA : 0.0009 * / 1048576 <= A <= D - 0.0009 * / 1048576).
  { unfold A. split; nra. }
  set (P := round A).
  assert (HP : - (u * 4) <= P - A <= u * 4).
  { assert (Hb : Rabs A <= 3) by (rewrite Rabs_right; lra).
    pose proof (round_within A 3 Hb). unfold u, P. lra. }
  assert (HC : - (u * 6) <= round (c + P) - (c + P) <= u * 6).
  { assert (Hb : Rabs (c + P) <= 5) by (apply Rabs_le; lra).
    pose proof (round_within (c + P) 5 Hb). unfold u. lra. }
  lra.
Qed.

(** The same toward a target below. *)
Lemma rounded_step_down (c t r : R) :
  -1 <= c <= 1 -> -1 <= t <= 1 ->
  / 2 ^ 20 <= r <= 1 - / 2 ^ 20 ->
  t <= c ->
  ~ Rabs (round (t - c)) < round 0.001 ->
  t <= round (c + round (round (t - c) * r)) <= c - / 2 ^ 31.
Proof.
  intros Hc Ht Hr Hct Hfar.
  assert (Hfar' : ~ Rabs (round (- t - - c)) < round 0.001).
  { replace (- t - - c) with (- (t - c)) by lra. now rewrite round_opp, Rabs_Ropp. }
  assert (Hc' : -1 <= - c <= 1) by lra.
  assert (Ht' : -1 <= - t <= 1) by lra.
  assert (Hct' : - c <= - t) by lra.
  pose proof (rounded_step_up (- c) (- t) r Hc' Ht' Hr Hct' Hfar') as H.
  replace (- t - - c) with (- (t - c)) in H by lra.
  rewrite round_opp in H.
  replace (- round (t - c) * r) with (- (round (t - c) * r)) in H by lra.
  rewrite round_opp in H.
  replace (- c + - round (round (t - c) * r))
    with (- (c + round (round (t - c) * r))) in H by lra.
  rewrite round_opp in H.
  lra.
Qed.

Variables c0 t s dt : R.
Hypothesis c0_range : -1 <= c0 <= 1.
Hypothesis t_range : -1 <= t <= 1.
Hypothesis s_pos : 0 < s.
Hypothesis rate_range : / 2 ^ 20 <= smoothing_rate s dt <= 1 - / 2 ^ 20.

(** A step from a value in range stays between the value and the target,
    and away from the snap zone it moves by at least [2^-31]. *)
Lemma rounded_step (c : R) :
  -1 <= c <= 1 ->
  exists c',
    _smooth_value c t (PNum s) dt = Ok c'
    /\ Rmin c t <= c' <= Rmax c t
    /\ (c' = t \/ Rabs (t - c') + / 2 ^ 31 <= Rabs (t - c)).
Proof.
  intros Hc. rewrite rounded_smooth_value_eq by exact s_pos.
  eexists. split; [reflexivity |].
  destruct (Rlt_dec (Rabs (round (t - c))) (round 0.001)) as [Hnear | Hfar].
  - split; [| now left]. unfold Rmin, Rmax. destruct (Rle_dec c t); lra.
  - destruct (Rle_dec c t) as [Hle | Hgt].
    + pose proof (rounded_step_up c t _ Hc t_range rate_range Hle Hfar) as H.
      split; [unfold Rmin, Rmax; destruct (Rle_dec c t); lra |].
      right. rewrite !Rabs_right by lra. lra.
    + assert (Hle : t <= c) by lra.
      pose proof (rounded_step_down c t _ Hc t_range rate_range Hle Hfar) as H.
      split; [unfold Rmin, Rmax; destruct (Rle_dec c t); lra |].
      right. rewrite !Rabs_left1 by lra. lra.
Qed.

Lemma rounded_iter_progress (n : nat) :
  exists c,
    smooth_iter n c0 t (PNum s) dt = Ok c
    /\ -1 <= c <= 1
    /\ (c = t \/ Rabs (t - c) + INR n * / 2 ^ 31 <= Rabs (t - c0)).
Proof.
  induction n as [| n (c & Hc & Hr & IH)].
  - exists c0. split; [reflexivity |]. split; [exact c0_range |]. right. cbn. lra.
  - destruct (rounded_step c Hr) as (c' & E & Hb & Hp).
    exists c'. split; [cbn [smooth_iter]; rewrite Hc; exact E |].
    split.
    { unfold Rmin, Rmax in Hb. destruct (Rle_dec c t); lra. }
    destruct Hp as [-> | Hp]; [now left |].
    destruct IH as [-> | IH].
    + rewrite rounded_smooth_value_at_target in E by exact s_pos.
      left. congruence.
    + right. rewrite S_INR. lra.
Qed.


End RoundedSmoothing.

Section RoundedSmoothingExamples.

Import binary64 rounded.

Lemma round_half : round (/ 2) = / 2.
Proof. rewrite <- bpow_m1. apply round_bpow. lia. Qed.

Lemma round_quarter : round (/ 4) = / 4.
Proof.
  replace (/ 4) with (bpow (- 2)); [apply round_bpow; lia |].
  replace (- 2)%Z with (-1 + -1)%Z by lia. rewrite bpow_add, bpow_m1. lra.
Qed.

(** The rate of a 4 Hz tick with smoothing 1/2 is [1 - 2^-15]. *)
Lemma smoothing_rate_example : smoothing_rate (/ 2) (/ 4) = 1 - / 32768.
Proof.
  unfold smoothing_rate.
  replace (/ 4 * 60) with (IZR 15) by lra.
  rewrite round_IZR by now apply Z.ltb_lt.
  replace (IZR 15) with (INR 15) by (cbn; lra).
  rewrite Rpower_pow by lra.
  assert (Hp : (/ 2) ^ 15 = bpow (- 15)).
  { change (bpow (- 15)) with (bpow (Z.opp 15)).
    rewrite bpow_opp, bpow_IZR by lia.
    replace (2 ^ 15)%Z with 32768%Z by reflexivity.
    rewrite pow_inv. f_equal. lra. }
  rewrite Hp, round_bpow by lia.
  assert (Hv : bpow (- 15) = / 32768).
  { rewrite <- Hp, pow_inv. f_equal. lra. }
  replace (1 - bpow (- 15)) with (IZR 32767 * bpow (- 15)) by (rewrite Hv; lra).
  rewrite round_grid by (first [now apply Z.ltb_lt | lia]).
  rewrite Hv. lra.
Qed.


(** The smoothing factor just below 1, [1 - 2^-53], is a binary64 number. *)
Lemma round_pred_1 : round (1 - / 2 ^ 53) = 1 - / 2 ^ 53.
Proof.
  replace (1 - / 2 ^ 53) with (IZR (2 ^ 53 - 1) * bpow (- 53)).
  - apply round_grid; [now apply Z.ltb_lt | lia].
  - rewrite bpow_m53.
    replace (2 ^ 53 - 1)%Z with 9007199254740991%Z by reflexivity.
    replace (2 ^ 53) with 9007199254740992 by lra. lra.
Qed.

(** With that factor and a tick of 1/64 s the rate is at most [2^-53]. *)
Lemma smoothing_rate_tiny :
  0 <= smoothing_rate (1 - / 2 ^ 53) (/ 64) <= bpow (- 53).
Proof.
  unfold smoothing_rate.
  assert (Hs : 0 < 1 - / 2 ^ 53 < 1).
  { replace (2 ^ 53) with 9007199254740992 by lra. lra. }
  replace (/ 64 * 60) with (IZR 15 * bpow (- 4)).
  2:{ replace (bpow (- 4)) with (/ 16); [lra |].
      change (bpow (- 4)) with (bpow (Z.opp 4)).
      rewrite bpow_opp, bpow_IZR by lia. reflexivity. }
  rewrite round_grid by (first [now apply Z.ltb_lt | lia]).
  set (y := IZR 15 * bpow (- 4)).
  assert (Hy : 0 <= y <= 1).
  { unfold y. replace (bpow (- 4)) with (/ 16); [lra |].
    change (bpow (- 4)) with (bpow (Z.opp 4)).
    rewrite bpow_opp, bpow_IZR by lia. reflexivity. }
  assert (Hpw : 1 - / 2 ^ 53 <= Rpower (1 - / 2 ^ 53) y <= 1).
  { unfold Rpower.
    assert (Hln : ln (1 - / 2 ^ 53) < 0) by (rewrite <- ln_1; apply ln_increasing; lra).
    split.
    - rewrite <- (exp_ln (1 - / 2 ^ 53)) at 1 by lra. apply exp_le_mono. nra.
    - apply Rle_trans with (exp 0); [apply exp_le_mono; nra | rewrite exp_0; lra]. }
  assert (Hr : 1 - / 2 ^ 53 <= round (Rpower (1 - / 2 ^ 53) y) <= 1).
  { split.
    - apply Rle_trans with (round (1 - / 2 ^ 53));
        [rewrite round_pred_1; lra | apply round_le, Hpw].
    - apply Rle_trans with (round 1); [apply round_le, Hpw | rewrite round_1; lra]. }
  split.
  - apply round_nonneg. lra.
  - apply Rle_trans with (round (bpow (- 53))); [| rewrite round_bpow by lia; lra].
    apply round_le.
    rewrite bpow_m53.
    assert (H53 : / 2 ^ 53 = / 9007199254740992) by (f_equal; lra). lra.
Qed.

(** Just above 1/2 the nearest binary64 number is 1/2. *)
Lemma round_above_half (p : R) : 0 <= p <= bpow (- 55) -> round (/ 2 + p) = / 2.
Proof.
  intros [Hp0 Hp1].
  assert (H55 : bpow (- 55) = / 36028797018963968).
  { change (bpow (- 55)) with (bpow (Z.opp 55)).
    rewrite bpow_opp, bpow_IZR by lia.
    replace (2 ^ 55)%Z with 36028797018963968%Z by reflexivity. reflexivity. }
  assert (H53 : bpow 53 = 9007199254740992).
  { rewrite bpow_IZR by lia.
    replace (2 ^ 53)%Z with 9007199254740992%Z by reflexivity. reflexivity. }
  rewrite H55 in Hp1.
  assert (Hmag : mag (/ 2 + p) = 0%Z).
  { apply mag_unique. replace (0 - 1)%Z with (-1)%Z by lia.
    rewrite bpow_0, bpow_m1. rewrite Rabs_right; lra. }
  unfold round. cbv zeta. rewrite Hmag.
  replace (fexp 0) with (-53)%Z by reflexivity.
  replace (- -53)%Z with 53%Z by lia.
  rewrite (ZnearestE_near _ 4503599627370496).
  - rewrite bpow_m53. lra.
  - rewrite H53. rewrite Rabs_right; lra.
Qed.

Lemma rounded_step_stalls :
  _smooth_value (/ 2) (3 / 4) (PNum (1 - / 2 ^ 53)) (/ 64) = Ok (/ 2).
Proof.
  assert (Hs : 0 < 1 - / 2 ^ 53).
  { replace (2 ^ 53) with 9007199254740992 by lra. lra. }
  rewrite rounded_smooth_value_eq by exact Hs.
  replace (3 / 4 - / 2) with (/ 4) by lra. rewrite round_quarter.
  destruct (Rlt_dec (Rabs (/ 4)) (round 0.001)) as [Hlt | _].
  { exfalso. rewrite Rabs_right in Hlt by lra. pose proof round_milli. lra. }
  f_equal. apply round_above_half.
  destruct smoothing_rate_tiny as [Hr0 Hr1].
  set (r := smoothing_rate (1 - / 2 ^ 53) (/ 64)) in *.
  split.
  - apply round_nonneg. lra.
  - apply Rle_trans with (round (bpow (- 55))); [| rewrite round_bpow by lia; lra].
    apply round_le.
    replace (bpow (- 55)) with (/ 4 * bpow (- 53)); [lra |].
    replace (- 55)%Z with (-1 + (-1 + -53))%Z by lia.
    rewrite !bpow_add, bpow_m1. lra.
Qed.


End RoundedSmoothingExamples.

(** ** The wall clock enters through hold times only *)

Section HoldTimes.

Import keyboard_processor scenario hold_times.

Variables clk1 clk2 : nat -> R.
Hypothesis elapsed : same_elapsed clk1 clk2.



Lemma same_hold_later (from from' : nat) (s1 s2 : option KeyState) :
  (from <= from')%nat ->
  same_hold clk1 clk2 from s1 s2 -> same_hold clk1 clk2 from' s1 s2.
Proof.
  intros Hle. destruct s1 as [s1 |], s2 as [s2 |]; cbn; try tauto.
  intros [Hp Hh]. split; [exact Hp |].
  intros Hpr n Hn. apply Hh; [exact Hpr | lia].
Qed.

Lemma hsim_get_self :
  sim (same_holds clk1 clk2) same_settings (get_self (O := KeyboardProcessor)) get_self.
Proof. intros w1 w2 HR. unfold get_self. split; [apply HR | exact HR]. Qed.

(** Writing the same value to an axis on both sides. *)
Lemma hsim_set_axis (f : KeyboardProcessor -> KeyboardProcessor) :
  (forall p, key_states (f p) = key_states p) ->
  (forall p1 p2, same_settings p1 p2 -> same_settings (f p1) (f p2)) ->
  sim (same_holds clk1 clk2) eq (set_self (Ev := log_entry) f) (set_self f).
Proof.
  intros Hk Hf w1 w2 (Hr & Hs & Hks). unfold set_self, modify.
  split; [reflexivity |]. split; [exact Hr |]. split; [apply Hf, Hs |].
  intros key. cbn [self reads]. rewrite !Hk. apply Hks.
Qed.

Lemma hsim_set_steering (v : R) :
  sim (same_holds clk1 clk2) eq (set_self (Ev := log_entry) (set_steering_value v))
    (set_self (set_steering_value v)).
Proof.
  apply hsim_set_axis; [reflexivity |].
  intros p1 p2 (? & ? & ? & ? & ? & ?). repeat split; assumption.
Qed.

Lemma hsim_set_throttle (v : R) :
  sim (same_holds clk1 clk2) eq (set_self (Ev := log_entry) (set_throttle_value v))
    (set_self (set_throttle_value v)).
Proof.
  apply hsim_set_axis; [reflexivity |].
  intros p1 p2 (? & ? & ? & ? & ? & ?). repeat split; assumption.
Qed.

Lemma hsim_set_brake (v : R) :
  sim (same_holds clk1 clk2) eq (set_self (Ev := log_entry) (set_brake_value v))
    (set_self (set_brake_value v)).
Proof.
  apply hsim_set_axis; [reflexivity |].
  intros p1 p2 (? & ? & ? & ? & ? & ?). repeat split; assumption.
Qed.

(** A key value is the same on both sides: it depends on the clock through
    the hold time only. *)
Lemma hsim_calculate_key_value (key : pyval) :
  sim (same_holds clk1 clk2) eq (_calculate_key_value clk1 key) (_calculate_key_value clk2 key).
Proof.
  intros w1 w2 HR. pose proof HR as (Hr & Hs & Hks).
  unfold _calculate_key_value, bind, get_self, lift.
  destruct key as [| b | x | name | l | d]; cbn [key_states_get];
    try (split; [reflexivity | exact HR]).
  specialize (Hks name).
  destruct (key_states (self w1) !! name) as [s1 |],
           (key_states (self w2) !! name) as [s2 |]; cbn in Hks; try contradiction;
    [| split; [reflexivity | exact HR]].
  destruct Hks as [Hp Hh]. rewrite <- Hp.
  destruct (pressed s1) eqn:Hpr; [| split; [reflexivity | exact HR]].
  unfold time_time, ret. split.
  - f_equal. rewrite <- Hr. apply Hh; [reflexivity | lia].
  - split; [cbn; now rewrite Hr |]. split; [exact Hs |].
    intros key. cbn [self reads]. apply (same_hold_later (reads w1)); [lia |].
    apply HR.
Qed.

Lemma hsim_steering_key_values (steering : pyval) :
  sim (same_holds clk1 clk2) eq (steering_key_values clk1 steering) (steering_key_values clk2 steering).
Proof.
  unfold steering_key_values.
  eapply sim_bind; [apply sim_lift; reflexivity |]. intros lk ? <-.
  eapply sim_bind; [apply sim_lift; reflexivity |]. intros rk ? <-.
  eapply sim_bind; [apply hsim_calculate_key_value |]. intros lv ? <-.
  eapply sim_bind; [apply hsim_calculate_key_value |]. intros rv ? <-.
  apply sim_ret. reflexivity.
Qed.

Lemma hsim_update_steering (dt : R) :
  sim (same_holds clk1 clk2) eq (_update_steering clk1 dt) (_update_steering clk2 dt).
Proof.
  unfold _update_steering.
  eapply sim_bind; [apply hsim_get_self |]. intros p1 p2 Hp. cbv zeta.
  pose proof Hp as (Hcfg & Hsv & _ & _ & Hss & _). rewrite Hcfg, Hsv, Hss.
  eapply sim_bind; [apply hsim_steering_key_values |]. intros [lv rv] ? <-.
  eapply sim_bind; [apply sim_lift; reflexivity |]. intros g ? <-.
  eapply sim_bind with (Q := eq).
  { destruct (truthy g).
    - eapply sim_bind; [apply sim_lift; reflexivity |].
      intros v ? <-. apply hsim_set_steering.
    - apply hsim_set_steering. }
  intros _ _ _.
  eapply sim_bind; [apply sim_lift; reflexivity |]. intros rtc ? <-.
  destruct (truthy rtc && _); [| apply sim_ret; reflexivity].
  eapply sim_bind; [apply sim_lift; reflexivity |]. intros c ? <-.
  eapply sim_bind; [apply hsim_get_self |]. intros p1' p2' (_ & Hsv' & _).
  rewrite Hsv'.
  eapply sim_bind; [apply sim_lift; reflexivity |]. intros v ? <-.
  apply hsim_set_steering.
Qed.

Lemma hsim_update_pedals (dt : R) :
  sim (same_holds clk1 clk2) eq (_update_pedals clk1 dt) (_update_pedals clk2 dt).
Proof.
  unfold _update_pedals.
  eapply sim_bind; [apply hsim_get_self |]. intros p1 p2 Hp. cbv zeta.
  pose proof Hp as (Hcfg & _ & Htv & Hbv & _ & Hps). rewrite Hcfg, Htv, Hbv, Hps.
  eapply sim_bind; [apply sim_lift; reflexivity |]. intros ak ? <-.
  eapply sim_bind; [apply sim_lift; reflexivity |]. intros bk ? <-.
  eapply sim_bind; [apply hsim_calculate_key_value |]. intros tv ? <-.
  eapply sim_bind; [apply hsim_calculate_key_value |]. intros bv ? <-.
  eapply sim_bind; [apply sim_lift; reflexivity |]. intros g ? <-.
  destruct (truthy g).
  - eapply sim_bind; [apply sim_lift; reflexivity |]. intros t ? <-.
    eapply sim_bind; [apply hsim_set_throttle |]. intros _ _ _.
    eapply sim_bind; [apply sim_lift; reflexivity |]. intros b ? <-.
    apply hsim_set_brake.
  - eapply sim_bind; [apply hsim_set_throttle |]. intros _ _ _.
    apply hsim_set_brake.
Qed.

Lemma hsim_apply_counter_steer :
  sim (same_holds clk1 clk2) eq _apply_counter_steer _apply_counter_steer.
Proof.
  unfold _apply_counter_steer.
  eapply sim_bind; [apply hsim_get_self |]. intros p1 p2 Hp.
  pose proof Hp as (Hcfg & Hsv & Htv & _). rewrite Hcfg, Hsv, Htv.
  destruct (Rlt_dec 0.8 _); [| apply sim_ret; reflexivity].
  destruct (Rlt_dec 0.7 _); [| apply sim_ret; reflexivity].
  eapply sim_bind; [apply sim_lift; reflexivity |]. intros st ? <-.
  eapply sim_bind; [apply sim_lift; reflexivity |]. intros s ? <-.
  apply hsim_set_steering.
Qed.

Lemma hsim_apply_anti_spin :
  sim (same_holds clk1 clk2) eq _apply_anti_spin _apply_anti_spin.
Proof.
  unfold _apply_anti_spin.
  eapply sim_bind; [apply hsim_get_self |]. intros p1 p2 Hp.
  pose proof Hp as (Hcfg & Hsv & Htv & _). rewrite Hcfg, Hsv, Htv.
  destruct (Rlt_dec 0.6 _); [| apply sim_ret; reflexivity].
  destruct (Rlt_dec 0.8 _); [| apply sim_ret; reflexivity].
  eapply sim_bind; [apply sim_lift; reflexivity |]. intros st ? <-.
  eapply sim_bind; [apply sim_lift; reflexivity |]. intros s ? <-.
  apply hsim_set_throttle.
Qed.

Lemma hsim_apply_assists :
  sim (same_holds clk1 clk2) eq _apply_assists _apply_assists.
Proof.
  unfold _apply_assists.
  eapply sim_bind; [apply hsim_get_self |]. intros p1 p2 Hp. cbv zeta.
  pose proof Hp as (Hcfg & _). rewrite Hcfg.
  eapply sim_bind; [apply sim_lift; reflexivity |]. intros f1 ? <-.
  eapply sim_bind with (Q := eq).
  { destruct (truthy f1); [apply hsim_apply_counter_steer | apply sim_ret; reflexivity]. }
  intros _ _ _.
  eapply sim_bind; [apply sim_lift; reflexivity |]. intros f2 ? <-.
  destruct (truthy f2); [apply hsim_apply_anti_spin | apply sim_ret; reflexivity].
Qed.

Lemma hsim_update (dt : R) :
  sim (same_holds clk1 clk2) eq (update clk1 dt) (update clk2 dt).
Proof.
  unfold update.
  eapply sim_bind; [apply hsim_update_steering |]. intros _ _ _.
  eapply sim_bind; [apply hsim_update_pedals |]. intros _ _ _.
  apply hsim_apply_assists.
Qed.

(** A key-down event records the reading of each clock: from then on the
    two hold times are the elapsed times, which agree. *)
Lemma hsim_key_pressed (key : string) :
  sim (same_holds clk1 clk2) eq (_key_pressed clk1 key) (_key_pressed clk2 key).
Proof.
  intros w1 w2 HR. pose proof HR as (Hr & Hs & Hks).
  unfold _key_pressed, bind, get_self.
  pose proof (Hks key) as Hk.
  destruct (key_states (self w1) !! key) as [s1 |] eqn:E1,
           (key_states (self w2) !! key) as [s2 |] eqn:E2; cbn in Hk;
    try contradiction; [| split; [reflexivity | exact HR]].
  destruct Hk as [Hp Hh]. unfold time_time. rewrite <- Hp.
  destruct (pressed s1) eqn:Hpr.
  - unfold ret. split; [reflexivity |].
    split; [cbn; now rewrite Hr |]. split; [exact Hs |].
    intros key'. cbn [self reads]. apply (same_hold_later (reads w1)); [lia |].
    apply Hks.
  - unfold set_self, modify. split; [reflexivity |].
    split; [cbn; now rewrite Hr |].
    split; [destruct Hs as (? & ? & ? & ? & ? & ?); repeat split; assumption |].
    intros key'. cbn [self reads key_states set_key_states].
    destruct (decide (key' = key)) as [-> | Hne].
    + rewrite !lookup_insert_eq. cbn. split; [reflexivity |].
      intros _ n Hn. rewrite <- Hr. apply elapsed. lia.
    + rewrite !lookup_insert_ne by congruence.
      apply (same_hold_later (reads w1)); [lia |]. apply Hks.
Qed.

Lemma hsim_key_released (key : string) :
  sim (same_holds clk1 clk2) eq (_key_released clk1 key) (_key_released clk2 key).
Proof.
  intros w1 w2 HR. pose proof HR as (Hr & Hs & Hks).
  unfold _key_released, bind, get_self.
  pose proof (Hks key) as Hk.
  destruct (key_states (self w1) !! key) as [s1 |] eqn:E1,
           (key_states (self w2) !! key) as [s2 |] eqn:E2; cbn in Hk;
    try contradiction; [| split; [reflexivity | exact HR]].
  unfold time_time, set_self, modify. split; [reflexivity |].
  split; [cbn; now rewrite Hr |].
  split; [destruct Hs as (? & ? & ? & ? & ? & ?); repeat split; assumption |].
  intros key'. cbn [self reads key_states set_key_states].
  destruct (decide (key' = key)) as [-> | Hne].
  - rewrite !lookup_insert_eq. cbn. split; [reflexivity | discriminate].
  - rewrite !lookup_insert_ne by congruence.
    apply (same_hold_later (reads w1)); [lia |]. apply Hks.
Qed.

Lemma hsim_run (inputs : list input) (w1 w2 : W) :
  (same_holds clk1 clk2) w1 w2 ->
  fst (run clk1 inputs w1) = fst (run clk2 inputs w2)
  /\ (same_holds clk1 clk2) (snd (run clk1 inputs w1)) (snd (run clk2 inputs w2)).
Proof.
  revert w1 w2. induction inputs as [| [key | key | dt] rest IH]; intros w1 w2 Hw.
  - cbn. auto.
  - cbn [run]. apply IH.
    pose proof (hsim_key_pressed key w1 w2 Hw) as H.
    destruct (_key_pressed clk1 key w1) as [[|] w1'],
             (_key_pressed clk2 key w2) as [[|] w2']; try contradiction; apply H.
  - cbn [run]. apply IH.
    pose proof (hsim_key_released key w1 w2 Hw) as H.
    destruct (_key_released clk1 key w1) as [[|] w1'],
             (_key_released clk2 key w2) as [[|] w2']; try contradiction; apply H.
  - cbn [run].
    pose proof (hsim_update dt w1 w2 Hw) as H.
    destruct (update clk1 dt w1) as [[|] w1'],
             (update clk2 dt w2) as [[|] w2']; try contradiction;
      destruct H as [_ Hw'].
    + specialize (IH w1' w2' Hw').
      destruct (run clk1 rest w1') as [o1 w1''], (run clk2 rest w2') as [o2 w2''].
      cbn in *. destruct IH as [-> Hfin]. split; [| exact Hfin].
      f_equal. destruct Hw' as (_ & (_ & Hs & Ht & Hb & _) & _).
      unfold get_inputs. now rewrite Hs, Ht, Hb.
    + apply (IH w1' w2' Hw').
Qed.

End HoldTimes.

Section HoldTimesClaim.

Import keyboard_processor scenario hold_times.

(** C3 (as the code has it). The axes a run produces are a deterministic
    function of the key events, the [dt] of each tick, the configuration
    and the hold times measured on the wall clock, which is an input of
    the pipeline: two runs over the same events and ticks, from processors
    with the same configuration and axes, under clocks that measure the
    same elapsed time between any two readings and give every held key the
    same hold time (two runs under the same readings in particular),
    produce identical sequences of (steering, throttle, brake). *)
Theorem run_determined_by_inputs_and_hold_times (clk1 clk2 : nat -> R)
  (inputs : list input) (w1 w2 : W) :
  same_elapsed clk1 clk2 ->
  same_holds clk1 clk2 w1 w2 ->
  fst (run clk1 inputs w1) = fst (run clk2 inputs w2).
Proof.
  intros Hclk Hw. apply (hsim_run clk1 clk2 Hclk inputs w1 w2 Hw).
Qed.

End HoldTimesClaim.

Section HoldTimesExamples.

Import keyboard_processor scenario hold_times.

(** The accelerator held for as long under a clock that started a
    thousand seconds later. *)
Lemma run_determined_by_inputs_and_hold_times_witness :
  fst (run (fun n => INR n)
         (Tick (1 / 60) :: KeyDown "d" :: Tick (1 / 60) :: KeyUp "w" :: Tick (1 / 60) :: nil)
         (throttle_held_since 0))
  = fst (run (fun n => 1000 + INR n)
           (Tick (1 / 60) :: KeyDown "d" :: Tick (1 / 60) :: KeyUp "w" :: Tick (1 / 60) :: nil)
           (throttle_held_since 1000)).
Proof.
  apply run_determined_by_inputs_and_hold_times.
  - intros m n _. lra.
  - split; [reflexivity |]. split; [repeat split; reflexivity |].
    intros key. unfold throttle_held_since. cbn [self key_states reads].
    destruct (decide (key = "w")) as [-> | Hne].
    + rewrite !lookup_insert_eq. cbn. split; [reflexivity |]. intros _ n _. lra.
    + rewrite !lookup_insert_ne by congruence.
      destruct (default_key_states !! key) as [state |] eqn:Hlk; [| exact I].
      cbn. split; [reflexivity |].
      rewrite (default_key_states_unpressed key state Hlk). discriminate.
Defined.

End HoldTimesExamples.

(** ** Key handlers *)

Section KeyHandlers.

Import keyboard_processor scenario processor_frames.

Variable clk : nat -> R.

Lemma key_pressed_eq (w : W) (key : string) (state : KeyState) :
  key_states (self w) !! key = Some state ->
  _key_pressed clk key w =
    (Ok tt,
     if pressed state then mkWorld (self w) (S (reads w)) (trace w)
     else
       mkWorld
         (set_key_states
            (<[key := mkKeyState true (clk (reads w)) (release_time state) 0
                         (value state)]> (key_states (self w)))
            (self w))
         (S (reads w)) (trace w)).
Proof.
  intros Hk. unfold _key_pressed, bind, get_self, time_time, set_self, modify, ret.
  rewrite Hk. destruct (pressed state); reflexivity.
Qed.

Lemma key_pressed_untracked (w : W) (key : string) :
  key_states (self w) !! key = None -> _key_pressed clk key w = (Ok tt, w).
Proof.
  intros Hk. unfold _key_pressed, bind, get_self, ret. rewrite Hk. reflexivity.
Qed.

Lemma key_released_untracked (w : W) (key : string) :
  key_states (self w) !! key = None -> _key_released clk key w = (Ok tt, w).
Proof.
  intros Hk. unfold _key_released, bind, get_self, ret. rewrite Hk. reflexivity.
Qed.

(** X1. Key-down is idempotent: a second key-down event for the same key,
    with no key-up in between, leaves the processor exactly as the first
    one left it; in particular [press_time] is not reset although the clock
    has been read again. *)
Theorem key_down_twice_is_key_down_once (w : W) (key : string) :
  self (snd (_key_pressed clk key (snd (_key_pressed clk key w))))
  = self (snd (_key_pressed clk key w)).
Proof.
  destruct (key_states (self w) !! key) as [state |] eqn:Hk.
  - rewrite (key_pressed_eq w key state Hk).
    destruct (pressed state) eqn:Hp; cbn [snd].
    + rewrite (key_pressed_eq (mkWorld (self w) (S (reads w)) (trace w)) key state Hk).
      rewrite Hp. reflexivity.
    + erewrite key_pressed_eq; [| cbn; apply lookup_insert_eq]. reflexivity.
  - rewrite (key_pressed_untracked w key Hk). cbn [snd].
    rewrite (key_pressed_untracked w key Hk). reflexivity.
Qed.

(** X2. A key-down followed by a key-up on a released tracked key records
    the press: the key ends up released with [press_time] and
    [release_time] the two clock readings taken and
    [hold_duration = release_time - press_time]; when the clock did not go
    back between the two events, [press_time <= release_time] and
    [hold_duration >= 0]. *)
Theorem press_then_release_records_hold (w : W) (key : string) (state : KeyState) :
  key_states (self w) !! key = Some state ->
  pressed state = false ->
  clk (reads w) <= clk (S (reads w)) ->
  exists w1 w2 state',
    _key_pressed clk key w = (Ok tt, w1)
    /\ _key_released clk key w1 = (Ok tt, w2)
    /\ key_states (self w2) !! key = Some state'
    /\ pressed state' = false
    /\ press_time state' = clk (reads w)
    /\ release_time state' = clk (S (reads w))
    /\ hold_duration state' = release_time state' - press_time state'
    /\ press_time state' <= release_time state'
    /\ 0 <= hold_duration state'.
Proof.
  intros Hk Hp Hclk.
  rewrite (key_pressed_eq w key state Hk), Hp.
  eexists. eexists. eexists. split; [reflexivity |].
  split.
  { erewrite key_released_eq; [reflexivity |]. cbn. apply lookup_insert_eq. }
  cbn. split; [apply lookup_insert_eq |]. cbn.
  repeat split; try reflexivity; lra.
Qed.

End KeyHandlers.

Section KeyHandlersExamples.

Import keyboard_processor scenario.

Lemma press_then_release_records_hold_witness :
  exists w1 w2 state',
    _key_pressed (fun n => INR n) "w" fresh_world = (Ok tt, w1)
    /\ _key_released (fun n => INR n) "w" w1 = (Ok tt, w2)
    /\ key_states (self w2) !! "w" = Some state'
    /\ pressed state' = false
    /\ press_time state' = INR (reads fresh_world)
    /\ release_time state' = INR (S (reads fresh_world))
    /\ hold_duration state' = release_time state' - press_time state'
    /\ press_time state' <= release_time state'
    /\ 0 <= hold_duration state'.
Proof.
  apply (press_then_release_records_hold (fun n => INR n) fresh_world "w" KeyState0).
  - reflexivity.
  - reflexivity.
  - simpl. lra.
Defined.

End KeyHandlersExamples.

(** ** What the update and the key handlers leave alone *)

Section Frames.

Import keyboard_processor scenario processor_frames.

Lemma frame_refl (w : W) : frame w w.
Proof. repeat split; reflexivity. Qed.

Lemma frame_trans (w1 w2 w3 : W) : frame w1 w2 -> frame w2 w3 -> frame w1 w3.
Proof.
  intros (H1 & H2 & H3 & H4 & H5 & H6) (G1 & G2 & G3 & G4 & G5 & G6).
  repeat split; try congruence. lia.
Qed.

Lemma preserves_ret {A} (a : A) : preserves (ret a).
Proof. intros w. apply frame_refl. Qed.

Lemma preserves_lift {A} (r : res A) : preserves (lift r).
Proof. intros w. apply frame_refl. Qed.

Lemma preserves_get_self : preserves (get_self (O := KeyboardProcessor)).
Proof. intros w. apply frame_refl. Qed.

Lemma preserves_time_time (clk : nat -> R) : preserves (time_time clk).
Proof. intros w. repeat split; cbn; try reflexivity. lia. Qed.

Lemma preserves_bind {A B} (m : M W A) (k : A -> M W B) :
  preserves m -> (forall a, preserves (k a)) -> preserves (bind m k).
Proof.
  intros Hm Hk w. unfold bind. specialize (Hm w).
  destruct (m w) as [[a | e] w1]; cbn [snd] in Hm.
  - apply (frame_trans w w1); [exact Hm | apply Hk].
  - exact Hm.
Qed.

Lemma preserves_set_steering (v : R) : preserves (set_self (set_steering_value v)).
Proof. intros w. repeat split; reflexivity. Qed.

Lemma preserves_set_throttle (v : R) : preserves (set_self (set_throttle_value v)).
Proof. intros w. repeat split; reflexivity. Qed.

Lemma preserves_set_brake (v : R) : preserves (set_self (set_brake_value v)).
Proof. intros w. repeat split; reflexivity. Qed.

Section WithClock.

Variable clk : nat -> R.

Lemma preserves_calculate_key_value (key : pyval) :
  preserves (_calculate_key_value clk key).
Proof.
  unfold _calculate_key_value.
  apply preserves_bind; [apply preserves_get_self |]. intros p.
  apply preserves_bind; [apply preserves_lift |]. intros [state |];
    [| apply preserves_ret].
  destruct (pressed state); [| apply preserves_ret].
  apply preserves_bind; [apply preserves_time_time |]. intros t.
  apply preserves_ret.
Qed.

Lemma preserves_steering_key_values (steering : pyval) :
  preserves (steering_key_values clk steering).
Proof.
  unfold steering_key_values.
  apply preserves_bind; [apply preserves_lift |]. intros lk.
  apply preserves_bind; [apply preserves_lift |]. intros rk.
  apply preserves_bind; [apply preserves_calculate_key_value |]. intros lv.
  apply preserves_bind; [apply preserves_calculate_key_value |]. intros rv.
  apply preserves_ret.
Qed.

Lemma preserves_update_steering (dt : R) : preserves (_update_steering clk dt).
Proof.
  unfold _update_steering.
  apply preserves_bind; [apply preserves_get_self |]. intros p. cbv zeta.
  apply preserves_bind; [apply preserves_steering_key_values |]. intros [lv rv].
  apply preserves_bind; [apply preserves_lift |]. intros g.
  apply preserves_bind.
  { destruct (truthy g); [| apply preserves_set_steering].
    apply preserves_bind; [apply preserves_lift |]. intros v.
    apply preserves_set_steering. }
  intros _.
  apply preserves_bind; [apply preserves_lift |]. intros rtc.
  destruct (truthy rtc && _); [| apply preserves_ret].
  apply preserves_bind; [apply preserves_lift |]. intros c.
  apply preserves_bind; [apply preserves_get_self |]. intros p'.
  apply preserves_bind; [apply preserves_lift |]. intros v.
  apply preserves_set_steering.
Qed.

Lemma preserves_update_pedals (dt : R) : preserves (_update_pedals clk dt).
Proof.
  unfold _update_pedals.
  apply preserves_bind; [apply preserves_get_self |]. intros p. cbv zeta.
  apply preserves_bind; [apply preserves_lift |]. intros ak.
  apply preserves_bind; [apply preserves_lift |]. intros bk.
  apply preserves_bind; [apply preserves_calculate_key_value |]. intros tv.
  apply preserves_bind; [apply preserves_calculate_key_value |]. intros bv.
  apply preserves_bind; [apply preserves_lift |]. intros g.
  destruct (truthy g).
  - apply preserves_bind; [apply preserves_lift |]. intros t.
    apply preserves_bind; [apply preserves_set_throttle |]. intros _.
    apply preserves_bind; [apply preserves_lift |]. intros b.
    apply preserves_set_brake.
  - apply preserves_bind; [apply preserves_set_throttle |]. intros _.
    apply preserves_set_brake.
Qed.

Lemma preserves_apply_counter_steer : preserves _apply_counter_steer.
Proof.
  unfold _apply_counter_steer.
  apply preserves_bind; [apply preserves_get_self |]. intros p.
  destruct (Rlt_dec 0.8 _); [| apply preserves_ret].
  destruct (Rlt_dec 0.7 _); [| apply preserves_ret].
  apply preserves_bind; [apply preserves_lift |]. intros st.
  apply preserves_bind; [apply preserves_lift |]. intros s.
  apply preserves_set_steering.
Qed.

Lemma preserves_apply_anti_spin : preserves _apply_anti_spin.
Proof.
  unfold _apply_anti_spin.
  apply preserves_bind; [apply preserves_get_self |]. intros p.
  destruct (Rlt_dec 0.6 _); [| apply preserves_ret].
  destruct (Rlt_dec 0.8 _); [| apply preserves_ret].
  apply preserves_bind; [apply preserves_lift |]. intros st.
  apply preserves_bind; [apply preserves_lift |]. intros s.
  apply preserves_set_throttle.
Qed.

Lemma preserves_apply_assists : preserves _apply_assists.
Proof.
  unfold _apply_assists.
  apply preserves_bind; [apply preserves_get_self |]. intros p. cbv zeta.
  apply preserves_bind; [apply preserves_lift |]. intros f1.
  apply preserves_bind.
  { destruct (truthy f1); [apply preserves_apply_counter_steer | apply preserves_ret]. }
  intros _.
  apply preserves_bind; [apply preserves_lift |]. intros f2.
  destruct (truthy f2); [apply preserves_apply_anti_spin | apply preserves_ret].
Qed.

Lemma preserves_update (dt : R) : preserves (update clk dt).
Proof.
  unfold update.
  apply preserves_bind; [apply preserves_update_steering |]. intros _.
  apply preserves_bind; [apply preserves_update_pedals |]. intros _.
  apply preserves_apply_assists.
Qed.

(** X3. [update] only ever writes the three axis values: whatever the
    configuration and the key states, and whether it returns or raises
    half-way, it leaves the configuration, the key-state table, the two
    smoothing attributes and the log as they were. *)
Theorem update_writes_only_the_axes (dt : R) (w : W) :
  config (self (snd (update clk dt w))) = config (self w)
  /\ key_states (self (snd (update clk dt w))) = key_states (self w)
  /\ steering_smoothing (self (snd (update clk dt w))) = steering_smoothing (self w)
  /\ pedal_smoothing (self (snd (update clk dt w))) = pedal_smoothing (self w)
  /\ trace (snd (update clk dt w)) = trace w.
Proof.
  destruct (preserves_update dt w) as (H1 & H2 & H3 & H4 & H5 & _).
  auto.
Qed.

Lemma key_pressed_keeps (key : string) (w : W) :
  config (self (snd (_key_pressed clk key w))) = config (self w)
  /\ dom (key_states (self (snd (_key_pressed clk key w)))) = dom (key_states (self w))
  /\ get_inputs (self (snd (_key_pressed clk key w))) = get_inputs (self w).
Proof.
  destruct (key_states (self w) !! key) as [state |] eqn:Hk.
  - rewrite (key_pressed_eq clk w key state Hk).
    destruct (pressed state); cbn; repeat split; try reflexivity.
    rewrite dom_insert_L.
    assert (Hin : key ∈ dom (key_states (self w))) by (apply elem_of_dom; eauto).
    apply subseteq_union_1_L, singleton_subseteq_l, Hin.
  - rewrite (key_pressed_untracked clk w key Hk). auto.
Qed.

Lemma key_released_keeps (key : string) (w : W) :
  config (self (snd (_key_released clk key w))) = config (self w)
  /\ dom (key_states (self (snd (_key_released clk key w)))) = dom (key_states (self w))
  /\ get_inputs (self (snd (_key_released clk key w))) = get_inputs (self w).
Proof.
  destruct (key_states (self w) !! key) as [state |] eqn:Hk.
  - rewrite (key_released_eq clk w key state Hk).
    cbn; repeat split; try reflexivity.
    rewrite dom_insert_L.
    assert (Hin : key ∈ dom (key_states (self w))) by (apply elem_of_dom; eauto).
    apply subseteq_union_1_L, singleton_subseteq_l, Hin.
  - rewrite (key_released_untracked clk w key Hk). auto.
Qed.

(** X4. Over any sequence of key events and ticks the processor keeps its
    configuration and the set of keys it tracks: no event adds a key to the
    table or removes one, an event for an untracked key included. *)
Theorem run_keeps_config_and_tracked_keys (inputs : list input) (w : W) :
  config (self (snd (run clk inputs w))) = config (self w)
  /\ dom (key_states (self (snd (run clk inputs w)))) = dom (key_states (self w)).
Proof.
  revert w. induction inputs as [| [key | key | dt] rest IH]; intros w.
  - cbn. auto.
  - cbn [run]. destruct (IH (snd (_key_pressed clk key w))) as [-> ->].
    destruct (key_pressed_keeps key w) as (-> & -> & _). auto.
  - cbn [run]. destruct (IH (snd (_key_released clk key w))) as [-> ->].
    destruct (key_released_keeps key w) as (-> & -> & _). auto.
  - cbn [run].
    destruct (preserves_update dt w) as (H1 & H2 & _).
    destruct (update clk dt w) as [[[] | e] w1]; cbn [snd] in *.
    + specialize (IH w1). destruct (run clk rest w1) as [outs w2]. cbn [snd] in *.
      destruct IH as [-> ->]. rewrite H1, H2. auto.
    + destruct (IH w1) as [-> ->]. rewrite H1, H2. auto.
Qed.

End WithClock.

End Frames.

(** ** Assists only damp *)

Section AssistsDamp.

Import keyboard_processor scenario processor_frames.

Lemma anti_spin_factor (w : W) (asst : gmap string pyval) (sp : R) :
  dict_get (config (self w)) "assists" (PDict ∅) = PDict asst ->
  dict_get asst "spin_prevention" (PNum 0.6) = PNum sp ->
  exists kt,
    _apply_anti_spin w =
      (Ok tt, mkWorld (set_throttle_value (throttle_value (self w) * kt) (self w))
                (reads w) (trace w))
    /\ ((kt = 1 - sp
         /\ Rabs (steering_value (self w)) > 0.6 /\ throttle_value (self w) > 0.8)
        \/ (kt = 1
            /\ ~ (Rabs (steering_value (self w)) > 0.6
                  /\ throttle_value (self w) > 0.8))).
Proof.
  intros Has Hsp.
  rewrite (apply_anti_spin_eq w asst sp Has) by (rewrite Hsp; reflexivity).
  destruct (Rlt_dec 0.6 (Rabs (steering_value (self w)))) as [Hs | Hs];
    [destruct (Rlt_dec 0.8 (throttle_value (self w))) as [Ht | Ht] |].
  - exists (1 - sp). split; [reflexivity |]. left. repeat split; assumption.
  - exists 1. split; [| right; split; [reflexivity | intros [_ H]; exact (Ht H)]].
    do 3 f_equal. lra.
  - exists 1. split; [| right; split; [reflexivity | intros [H _]; exact (Hs H)]].
    do 3 f_equal. lra.
Qed.

Lemma counter_steer_factor (w : W) (asst : gmap string pyval) (cs : R) :
  dict_get (config (self w)) "assists" (PDict ∅) = PDict asst ->
  dict_get asst "counter_steer_strength" (PNum 0.5) = PNum cs ->
  exists ks,
    _apply_counter_steer w =
      (Ok tt, mkWorld (set_steering_value (steering_value (self w) * ks) (self w))
                (reads w) (trace w))
    /\ ((ks = 1 - cs
         /\ Rabs (steering_value (self w)) > 0.8 /\ throttle_value (self w) > 0.7)
        \/ (ks = 1
            /\ ~ (Rabs (steering_value (self w)) > 0.8
                  /\ throttle_value (self w) > 0.7))).
Proof.
  intros Has Hcs.
  rewrite (apply_counter_steer_eq w asst cs Has) by (rewrite Hcs; reflexivity).
  destruct (Rlt_dec 0.8 (Rabs (steering_value (self w)))) as [Hs | Hs];
    [destruct (Rlt_dec 0.7 (throttle_value (self w))) as [Ht | Ht] |].
  - exists (1 - cs). split; [reflexivity |]. left. repeat split; assumption.
  - exists 1. split; [| right; split; [reflexivity | intros [_ H]; exact (Ht H)]].
    do 3 f_equal. lra.
  - exists 1. split; [| right; split; [reflexivity | intros [H _]; exact (Hs H)]].
    do 3 f_equal. lra.
Qed.

Lemma set_steering_same (p : KeyboardProcessor) :
  set_steering_value (steering_value p * 1) p = p.
Proof. destruct p. unfold set_steering_value. cbn. f_equal. lra. Qed.

Lemma set_throttle_same (p : KeyboardProcessor) :
  set_throttle_value (throttle_value p * 1) p = p.
Proof. destruct p. unfold set_throttle_value. cbn. f_equal. lra. Qed.

(** The assist pass multiplies steering by [ks] and throttle by [kt]; each
    factor is 1 unless the assist is enabled and its condition holds, the
    condition of anti-spin being tested on the steering counter-steer has
    left. *)
Lemma apply_assists_factors (w : W) (asst : gmap string pyval) (cs sp : R) :
  dict_get (config (self w)) "assists" (PDict ∅) = PDict asst ->
  dict_get asst "counter_steer_strength" (PNum 0.5) = PNum cs ->
  dict_get asst "spin_prevention" (PNum 0.6) = PNum sp ->
  exists ks kt,
    _apply_assists w =
      (Ok tt,
       mkWorld
         (set_throttle_value (throttle_value (self w) * kt)
            (set_steering_value (steering_value (self w) * ks) (self w)))
         (reads w) (trace w))
    /\ ((ks = 1 - cs
         /\ truthy (dict_get asst "counter_steer_assist" (PBool true)) = true
         /\ Rabs (steering_value (self w)) > 0.8 /\ throttle_value (self w) > 0.7)
        \/ (ks = 1
            /\ ~ (truthy (dict_get asst "counter_steer_assist" (PBool true)) = true
                  /\ Rabs (steering_value (self w)) > 0.8
                  /\ throttle_value (self w) > 0.7)))
    /\ ((kt = 1 - sp
         /\ truthy (dict_get asst "anti_spin_assist" (PBool true)) = true
         /\ Rabs (steering_value (self w) * ks) > 0.6 /\ throttle_value (self w) > 0.8)
        \/ (kt = 1
            /\ ~ (truthy (dict_get asst "anti_spin_assist" (PBool true)) = true
                  /\ Rabs (steering_value (self w) * ks) > 0.6
                  /\ throttle_value (self w) > 0.8))).
Proof.
  intros Has Hcs Hsp.
  assert (Hfirst : exists ks,
            (if truthy (dict_get asst "counter_steer_assist" (PBool true))
             then _apply_counter_steer else ret tt) w
            = (Ok tt, mkWorld (set_steering_value (steering_value (self w) * ks) (self w))
                        (reads w) (trace w))
            /\ ((ks = 1 - cs
                 /\ truthy (dict_get asst "counter_steer_assist" (PBool true)) = true
                 /\ Rabs (steering_value (self w)) > 0.8
                 /\ throttle_value (self w) > 0.7)
                \/ (ks = 1
                    /\ ~ (truthy (dict_get asst "counter_steer_assist" (PBool true)) = true
                          /\ Rabs (steering_value (self w)) > 0.8
                          /\ throttle_value (self w) > 0.7)))).
  { destruct (truthy (dict_get asst "counter_steer_assist" (PBool true))) eqn:F1.
    - destruct (counter_steer_factor w asst cs Has Hcs) as (ks & E & Hks).
      exists ks. split; [exact E |].
      destruct Hks as [(-> & ? & ?) | (-> & Hn)]; [left; auto |].
      right. split; [reflexivity | intros (_ & ? & ?); apply Hn; auto].
    - exists 1. split.
      + unfold ret. rewrite set_steering_same. destruct w; reflexivity.
      + right. split; [reflexivity | intros (? & _); discriminate]. }
  destruct Hfirst as (ks & E1 & Hks).
  set (w1 := mkWorld (set_steering_value (steering_value (self w) * ks) (self w))
               (reads w) (trace w)) in *.
  assert (Has1 : dict_get (config (self w1)) "assists" (PDict ∅) = PDict asst)
    by exact Has.
  assert (Hsecond : exists kt,
            (if truthy (dict_get asst "anti_spin_assist" (PBool true))
             then _apply_anti_spin else ret tt) w1
            = (Ok tt, mkWorld (set_throttle_value (throttle_value (self w) * kt) (self w1))
                        (reads w) (trace w))
            /\ ((kt = 1 - sp
                 /\ truthy (dict_get asst "anti_spin_assist" (PBool true)) = true
                 /\ Rabs (steering_value (self w) * ks) > 0.6
                 /\ throttle_value (self w) > 0.8)
                \/ (kt = 1
                    /\ ~ (truthy (dict_get asst "anti_spin_assist" (PBool true)) = true
                          /\ Rabs (steering_value (self w) * ks) > 0.6
                          /\ throttle_value (self w) > 0.8)))).
  { destruct (truthy (dict_get asst "anti_spin_assist" (PBool true))) eqn:F2.
    - destruct (anti_spin_factor w1 asst sp Has1 Hsp) as (kt & E & Hkt).
      exists kt. split; [exact E |].
      destruct Hkt as [(-> & ? & ?) | (-> & Hn)]; [left; auto |].
      right. split; [reflexivity | intros (_ & ? & ?); apply Hn; auto].
    - exists 1. split.
      + unfold ret. f_equal. unfold w1. cbn [self reads trace]. f_equal.
        symmetry. apply (set_throttle_same (set_steering_value _ (self w))).
      + right. split; [reflexivity | intros (? & _); discriminate]. }
  destruct Hsecond as (kt & E2 & Hkt).
  exists ks, kt. split; [| split; assumption].
  unfold _apply_assists. unfold bind at 1, get_self at 1. cbv zeta.
  rewrite Has. cbn [py_get]. unfold bind at 1, lift at 1.
  rewrite (bind_ok _ _ _ _ _ E1). unfold bind at 1, lift at 1. exact E2.
Qed.

(** X5. The assist pass only damps: with strengths in [0,1] it never
    raises, never touches the brake, never grows the magnitude of the
    steering nor flips its sign, and never raises a non-negative throttle;
    with both assists switched off it changes nothing at all. *)
Theorem assists_only_damp (w : W) (asst : gmap string pyval) (cs sp : R) :
  dict_get (config (self w)) "assists" (PDict ∅) = PDict asst ->
  dict_get asst "counter_steer_strength" (PNum 0.5) = PNum cs ->
  dict_get asst "spin_prevention" (PNum 0.6) = PNum sp ->
  0 <= cs <= 1 ->
  0 <= sp <= 1 ->
  0 <= throttle_value (self w) ->
  exists w',
    _apply_assists w = (Ok tt, w')
    /\ brake_value (self w') = brake_value (self w)
    /\ Rabs (steering_value (self w')) <= Rabs (steering_value (self w))
    /\ 0 <= steering_value (self w') * steering_value (self w)
    /\ 0 <= throttle_value (self w') <= throttle_value (self w)
    /\ (truthy (dict_get asst "counter_steer_assist" (PBool true)) = false ->
        truthy (dict_get asst "anti_spin_assist" (PBool true)) = false ->
        w' = w).
Proof.
  intros Has Hcs Hsp Rcs Rsp Ht.
  destruct (apply_assists_factors w asst cs sp Has Hcs Hsp) as (ks & kt & E & Hks & Hkt).
  eexists. split; [exact E |]. cbn [self brake_value steering_value throttle_value
                                     set_throttle_value set_steering_value].
  assert (Rks : 0 <= ks <= 1) by (destruct Hks as [[-> _] | [-> _]]; lra).
  assert (Rkt : 0 <= kt <= 1) by (destruct Hkt as [[-> _] | [-> _]]; lra).
  split; [reflexivity |].
  split.
  { rewrite Rabs_mult, (Rabs_right ks) by lra.
    pose proof (Rabs_pos (steering_value (self w))). nra. }
  split; [nra |].
  split; [nra |].
  intros F1 F2.
  destruct Hks as [(_ & F1' & _) | [-> _]]; [congruence |].
  destruct Hkt as [(_ & F2' & _) | [-> _]]; [congruence |].
  rewrite set_steering_same, set_throttle_same. destruct w; reflexivity.
Qed.

(** X6. With a counter-steer strength of at least 0.4 (the default is 0.5)
    and steering within [-1,1], the two assists exclude each other: in a
    tick where counter-steer fires, the reduced steering is at most 0.6 in
    magnitude, so anti-spin does not fire and the throttle is unchanged. *)
Theorem counter_steer_excludes_anti_spin (w : W) (asst : gmap string pyval) (cs sp : R) :
  dict_get (config (self w)) "assists" (PDict ∅) = PDict asst ->
  dict_get asst "counter_steer_strength" (PNum 0.5) = PNum cs ->
  dict_get asst "spin_prevention" (PNum 0.6) = PNum sp ->
  truthy (dict_get asst "counter_steer_assist" (PBool true)) = true ->
  0.4 <= cs <= 1 ->
  -1 <= steering_value (self w) <= 1 ->
  Rabs (steering_value (self w)) > 0.8 ->
  throttle_value (self w) > 0.7 ->
  exists w',
    _apply_assists w = (Ok tt, w')
    /\ steering_value (self w') = steering_value (self w) * (1 - cs)
    /\ throttle_value (self w') = throttle_value (self w).
Proof.
  intros Has Hcs Hsp F1 Rcs Rs Hs Ht.
  destruct (apply_assists_factors w asst cs sp Has Hcs Hsp) as (ks & kt & E & Hks & Hkt).
  destruct Hks as [(-> & _) | (_ & Hn)]; [| exfalso; apply Hn; auto].
  eexists. split; [exact E |]. cbn.
  split; [reflexivity |].
  destruct Hkt as [(_ & _ & Hfire & _) | (-> & _)]; [| lra].
  exfalso.
  assert (Hle : Rabs (steering_value (self w) * (1 - cs)) <= 0.6).
  { rewrite Rabs_mult, (Rabs_right (1 - cs)) by lra.
    assert (Rabs (steering_value (self w)) <= 1) by (apply Rabs_le; lra).
    pose proof (Rabs_pos (steering_value (self w))). nra. }
  lra.
Qed.

End AssistsDamp.

Section AssistsDampExamples.

Import keyboard_processor scenario.

Lemma assists_only_damp_witness :
  exists w',
    _apply_assists committed_world = (Ok tt, w')
    /\ brake_value (self w') = brake_value (self committed_world)
    /\ Rabs (steering_value (self w')) <= Rabs (steering_value (self committed_world))
    /\ 0 <= steering_value (self w') * steering_value (self committed_world)
    /\ 0 <= throttle_value (self w') <= throttle_value (self committed_world)
    /\ (truthy (dict_get ∅ "counter_steer_assist" (PBool true)) = false ->
        truthy (dict_get ∅ "anti_spin_assist" (PBool true)) = false ->
        w' = committed_world).
Proof.
  apply (assists_only_damp committed_world ∅ 0.5 0.6);
    try reflexivity; simpl; lra.
Defined.

Lemma counter_steer_excludes_anti_spin_witness :
  exists w',
    _apply_assists committed_world = (Ok tt, w')
    /\ steering_value (self w') = steering_value (self committed_world) * (1 - 0.5)
    /\ throttle_value (self w') = throttle_value (self committed_world).
Proof.
  apply (counter_steer_excludes_anti_spin committed_world ∅ 0.5 0.6);
    try reflexivity; simpl; try lra.
  rewrite Rabs_right; lra.
Defined.

End AssistsDampExamples.

(** ** The smoothing step: composition and extremes *)

Section SmoothingSteps.

Import keyboard_processor scenario.



End SmoothingSteps.

Section SmoothingStepsExamples.

Import keyboard_processor scenario.


End SmoothingStepsExamples.

(** ** Return to center *)

Section ReturnToCenter.

Import keyboard_processor scenario processor_frames.

Variable clk : nat -> R.

Lemma calculate_key_value_idle (key : pyval) (w : W) :
  key_idle (self w) key -> _calculate_key_value clk key w = (Ok 0, w).
Proof.
  intros Hk. unfold _calculate_key_value, bind, get_self, lift, ret.
  destruct key as [| b | x | name | l | d]; cbn in *; try reflexivity;
    try contradiction.
  destruct (key_states (self w) !! name) as [state |]; [| reflexivity].
  rewrite Hk. reflexivity.
Qed.

Lemma steering_key_values_idle (steering : gmap string pyval) (w : W) :
  key_idle (self w) (dict_get steering "left_key" (PStr "a")) ->
  key_idle (self w) (dict_get steering "right_key" (PStr "d")) ->
  steering_key_values clk (PDict steering) w = (Ok (0, 0), w).
Proof.
  intros Hl Hr. unfold steering_key_values. cbn [py_get].
  unfold bind at 1, lift at 1. unfold bind at 1, lift at 1.
  rewrite (bind_ok _ _ _ _ _ (calculate_key_value_idle _ w Hl)).
  rewrite (bind_ok _ _ _ _ _ (calculate_key_value_idle _ w Hr)).
  reflexivity.
Qed.

(** One smoothing step toward 0 multiplies the value by a factor in
    [[0, smoothing^(dt*60)]], and by 0 once the value is within 0.001. *)
Lemma smooth_toward_zero (c s dt : R) :
  0 < s < 1 -> 0 <= dt ->
  exists k,
    _smooth_value c 0 (PNum s) dt = Ok (k * c)
    /\ 0 <= k <= Rpower s (dt * 60)
    /\ (Rabs c < 0.001 -> k = 0).
Proof.
  intros Hs Hdt.
  assert (Hq : 0 < Rpower s (dt * 60) <= 1) by (apply Rpower_unit_le; [assumption | lra]).
  rewrite smooth_value_unit by lra.
  destruct (Rlt_dec (Rabs (0 - c)) 0.001) as [Hn | Hf].
  - exists 0. split; [f_equal; lra |]. split; [lra | reflexivity].
  - exists (Rpower s (dt * 60)). split; [f_equal; lra |]. split; [lra |].
    intros Hc. exfalso. apply Hf.
    replace (0 - c) with (- c) by lra. now rewrite Rabs_Ropp.
Qed.

(** With neither steer key held, [_update_steering] reads no clock and
    multiplies steering by a factor in [[0, steering_smoothing^(dt*60)]]. *)
Lemma update_steering_idle (dt : R) (w : W) :
  0 <= dt ->
  config_in_range (config (self w)) ->
  smoothing_in_range (self w) ->
  steer_keys_idle (self w) ->
  exists k,
    _update_steering clk dt w =
      (Ok tt, mkWorld (set_steering_value (k * steering_value (self w)) (self w))
                (reads w) (trace w))
    /\ 0 <= k <= Rpower (steering_smoothing (self w)) (dt * 60)
    /\ (Rabs (steering_value (self w)) < 0.001 -> k = 0).
Proof.
  intros Hdt (st & acc & asst & c & cs & sp & Hst & _ & _ & _ & _ & _ & _ & Hc & Hcr & _)
    (Hss & _) Hidle.
  destruct (Hidle st Hst) as [Hl Hr].
  assert (Hq : 0 < Rpower (steering_smoothing (self w)) (dt * 60) <= 1)
    by (apply Rpower_unit_le; [assumption | lra]).
  set (s0 := steering_value (self w)).
  unfold _update_steering. unfold bind at 1, get_self at 1. cbv zeta. rewrite Hst.
  rewrite (bind_ok _ _ _ _ _ (steering_key_values_idle st w Hl Hr)). cbn [py_get].
  unfold bind at 1, lift at 1.
  replace (0 - 0) with 0 by lra.
  assert (Hfirst : exists k1,
    (if truthy (dict_get st "gradual_turn" (PBool true))
     then let! v := lift (_smooth_value (steering_value (self w)) 0
                            (PNum (steering_smoothing (self w))) dt)
          in set_self (set_steering_value v)
     else set_self (set_steering_value 0)) w
    = (Ok tt, mkWorld (set_steering_value (k1 * s0) (self w)) (reads w) (trace w))
    /\ 0 <= k1 <= Rpower (steering_smoothing (self w)) (dt * 60)
    /\ (Rabs s0 < 0.001 -> k1 = 0)).
  { destruct (truthy _).
    - destruct (smooth_toward_zero s0 (steering_smoothing (self w)) dt Hss Hdt)
        as (k1 & E1 & Hk1 & Hz).
      exists k1. split; [| split; assumption].
      unfold bind, lift. fold s0. rewrite E1. reflexivity.
    - exists 0. split; [| split; [lra | reflexivity]].
      unfold set_self, modify. do 3 f_equal. lra. }
  destruct Hfirst as (k1 & E1 & Hk1 & Hz1).
  rewrite (bind_ok _ _ _ _ _ E1).
  unfold bind at 1, lift at 1.
  destruct (Req_dec_T 0 0) as [_ | Hn]; [| exfalso; apply Hn; reflexivity].
  destruct (truthy (dict_get st "return_to_center" (PBool true))); cbn [andb].
  - unfold bind at 1, lift at 1. rewrite Hc.
    unfold bind at 1, get_self at 1. cbn [self steering_value set_steering_value].
    destruct (smooth_toward_zero (k1 * s0) c dt Hcr Hdt) as (k2 & E2 & Hk2 & Hz2).
    assert (Hc1 : 0 < Rpower c (dt * 60) <= 1) by (apply Rpower_unit_le; [assumption | lra]).
    exists (k2 * k1). split; [| split].
    + unfold bind, lift. rewrite E2. unfold set_self, modify. cbn [self reads trace].
      replace (k2 * k1 * s0) with (k2 * (k1 * s0)) by lra. reflexivity.
    + nra.
    + intros Hs0. rewrite (Hz1 Hs0). lra.
  - exists k1. split; [reflexivity | split; assumption].
Qed.

(** Computing a key value returns for every binding that can be looked
    up, and only reads the clock. *)
Lemma calculate_key_value_returns (key : pyval) (w : W) :
  hashable key ->
  exists v n,
    _calculate_key_value clk key w = (Ok v, mkWorld (self w) n (trace w)).
Proof.
  intros Hk. unfold _calculate_key_value.
  unfold bind at 1, get_self at 1.
  assert (Hzero : exists v n,
             ret (S := W) 0 w = (Ok v, mkWorld (self w) n (trace w))).
  { exists 0, (reads w). destruct w; reflexivity. }
  destruct key as [| b | x | name | l | d]; cbn [key_states_get];
    try contradiction; unfold bind at 1, lift at 1; try exact Hzero.
  destruct (key_states (self w) !! name) as [state |]; [| exact Hzero].
  destruct (pressed state); [| exact Hzero].
  unfold bind, time_time, ret. eexists. eexists. reflexivity.
Qed.

(** With a configuration in range the pedal update returns, whatever the
    key states and the clock are, and writes the two pedals only. *)
Lemma update_pedals_returns (dt : R) (w : W) :
  0 <= dt ->
  config_in_range (config (self w)) ->
  smoothing_in_range (self w) ->
  exists t b n,
    _update_pedals clk dt w =
      (Ok tt, mkWorld (set_brake_value b (set_throttle_value t (self w))) n (trace w)).
Proof.
  intros Hdt (st & acc & asst & c & cs & sp & _ & Hacc & _ & _ & _ & Ha & Hbk & _)
    (_ & Hps).
  unfold _update_pedals. unfold bind at 1, get_self at 1. cbv zeta. rewrite Hacc.
  cbn [py_get]. unfold bind at 1, lift at 1. unfold bind at 1, lift at 1.
  destruct (calculate_key_value_returns _ w Ha) as (tv & n1 & Et).
  destruct (calculate_key_value_returns _ (mkWorld (self w) n1 (trace w)) Hbk)
    as (bv & n2 & Eb).
  cbn [self trace] in Eb.
  rewrite (bind_ok _ _ _ _ _ Et). rewrite (bind_ok _ _ _ _ _ Eb).
  unfold bind at 1, lift at 1.
  destruct (truthy _).
  - pose proof (smooth_value_unit (throttle_value (self w)) tv
                  (pedal_smoothing (self w)) dt (proj1 Hps) Hdt) as E1.
    pose proof (smooth_value_unit (brake_value (self w)) bv
                  (pedal_smoothing (self w)) dt (proj1 Hps) Hdt) as E2.
    eexists. eexists. exists n2.
    unfold bind, lift, set_self, modify. rewrite E1, E2. reflexivity.
  - exists tv, bv, n2. reflexivity.
Qed.

Lemma released_steering_moves_toward_center_aux (dt : R) (w : W) :
  0 <= dt ->
  config_in_range (config (self w)) ->
  smoothing_in_range (self w) ->
  steer_keys_idle (self w) ->
  exists w' k,
    update clk dt w = (Ok tt, w')
    /\ steering_value (self w') = k * steering_value (self w)
    /\ 0 <= k <= Rpower (steering_smoothing (self w)) (dt * 60)
    /\ (Rabs (steering_value (self w)) < 0.001 -> steering_value (self w') = 0)
    /\ frame w w'.
Proof.
  intros Hdt Hcfg Hsm Hidle.
  destruct (update_steering_idle dt w Hdt Hcfg Hsm Hidle) as (k1 & E1 & Hk1 & Hz1).
  assert (Hq : 0 < Rpower (steering_smoothing (self w)) (dt * 60) <= 1)
    by (apply Rpower_unit_le; [apply Hsm | lra]).
  set (w1 := mkWorld (set_steering_value (k1 * steering_value (self w)) (self w))
               (reads w) (trace w)) in *.
  destruct (update_pedals_returns dt w1 Hdt Hcfg Hsm) as (t & b & n2 & E2).
  set (w2 := mkWorld (set_brake_value b (set_throttle_value t (self w1))) n2 (trace w1))
    in *.
  pose proof Hcfg as (st & acc & asst & c & cs & sp & _ & _ & Has & _ & _ & _ & _ & _ & _
                      & Hcs & Rcs & Hsp & Rsp).
  destruct (apply_assists_factors w2 asst cs sp Has Hcs Hsp)
    as (ks & kt & E3 & Hks & Hkt).
  assert (Rks : 0 <= ks <= 1) by (destruct Hks as [[-> _] | [-> _]]; lra).
  eexists. exists (k1 * ks). split.
  { unfold update. rewrite (bind_ok _ _ _ _ _ E1). rewrite (bind_ok _ _ _ _ _ E2).
    exact E3. }
  pose proof (preserves_update clk dt w) as Hfr.
  unfold update in Hfr. rewrite (bind_ok _ _ _ _ _ E1) in Hfr.
  rewrite (bind_ok _ _ _ _ _ E2) in Hfr. rewrite E3 in Hfr. cbn [snd] in Hfr.
  cbn [self steering_value throttle_value brake_value set_throttle_value
       set_steering_value set_brake_value w2 w1].
  split; [lra |].
  split; [nra |].
  split; [intros Hz; rewrite (Hz1 Hz); lra | exact Hfr].
Qed.


End ReturnToCenter.
Section ReturnToCenterConverges.

Import keyboard_processor scenario processor_frames.

Variable clk : nat -> R.

Lemma ready_tick (dt : R) (w : W) :
  0 <= dt -> ready w ->
  exists w' k,
    update clk dt w = (Ok tt, w')
    /\ ready w'
    /\ steering_smoothing (self w') = steering_smoothing (self w)
    /\ steering_value (self w') = k * steering_value (self w)
    /\ 0 <= k <= Rpower (steering_smoothing (self w)) (dt * 60)
    /\ (Rabs (steering_value (self w)) < 0.001 -> steering_value (self w') = 0).
Proof.
  intros Hdt (Hcfg & Hsm & Hidle).
  destruct (released_steering_moves_toward_center_aux clk dt w Hdt Hcfg Hsm Hidle)
    as (w' & k & E & Hs & Hk & Hz & (Fc & Fk & Fs & Fp & _)).
  exists w', k. split; [exact E |].
  split; [| auto].
  unfold ready. split; [rewrite Fc; exact Hcfg |].
  split; [unfold smoothing_in_range; rewrite Fs, Fp; exact Hsm |].
  unfold steer_keys_idle, key_idle. rewrite Fc, Fk. exact Hidle.
Qed.

Lemma updates_plus (n m : nat) (dt : R) (w : W) :
  updates clk (n + m) dt w = bind (updates clk n dt) (fun _ => updates clk m dt) w.
Proof.
  revert w. induction n as [| n IH]; intros w; [reflexivity |].
  cbn [Nat.add updates]. unfold bind.
  destruct (update clk dt w) as [[[] | e] w1]; [| reflexivity].
  rewrite IH. reflexivity.
Qed.

Lemma ready_ticks (n : nat) (dt : R) (w : W) :
  0 <= dt -> ready w ->
  exists w',
    updates clk n dt w = (Ok tt, w')
    /\ ready w'
    /\ steering_smoothing (self w') = steering_smoothing (self w)
    /\ Rabs (steering_value (self w'))
       <= Rpower (steering_smoothing (self w)) (dt * 60) ^ n
          * Rabs (steering_value (self w))
    /\ (steering_value (self w) = 0 -> steering_value (self w') = 0).
Proof.
  intros Hdt. revert w. induction n as [| n IH]; intros w Hw.
  - exists w. split; [reflexivity |]. split; [exact Hw |]. split; [reflexivity |].
    split; [simpl; lra | auto].
  - destruct (ready_tick dt w Hdt Hw) as (w1 & k & E1 & Hw1 & Hss & Hs & Hk & Hz).
    destruct (IH w1 Hw1) as (w' & E & Hw' & Hss' & Hle & Hz').
    exists w'. split.
    { cbn [updates]. rewrite (bind_ok _ _ _ _ _ E1). exact E. }
    split; [exact Hw' |]. split; [congruence |].
    rewrite Hss in Hle.
    assert (Hq : 0 < Rpower (steering_smoothing (self w)) (dt * 60) <= 1)
      by (apply Rpower_unit_le; [apply Hw | lra]).
    set (q := Rpower (steering_smoothing (self w)) (dt * 60)) in *.
    assert (Hqn : 0 <= q ^ n) by (apply pow_le; lra).
    split.
    + rewrite Hs, Rabs_mult, (Rabs_right k) in Hle by lra.
      pose proof (Rabs_pos (steering_value (self w))) as Ha.
      assert (H1 : k * Rabs (steering_value (self w))
                   <= q * Rabs (steering_value (self w))) by nra.
      assert (H2 : q ^ n * (k * Rabs (steering_value (self w)))
                   <= q ^ n * (q * Rabs (steering_value (self w))))
        by (apply Rmult_le_compat_l; assumption).
      simpl. lra.
    + intros H0. apply Hz'. rewrite Hs, H0. lra.
Qed.

(** A smoothing factor in (0,1) raised to a power that is not positive is
    at least 1. *)
Lemma Rpower_unit_nonpos (s e : R) : 0 < s < 1 -> e <= 0 -> 1 <= Rpower s e.
Proof.
  intros [Hs0 Hs1] He. unfold Rpower.
  assert (Hln : ln s < 0) by (rewrite <- ln_1; now apply ln_increasing).
  apply Rle_trans with (exp 0); [rewrite exp_0; lra |].
  apply exp_le_mono. nra.
Qed.


End ReturnToCenterConverges.

Section ReturnToCenterExamples.

Import keyboard_processor scenario processor_frames.

Lemma off_centre_steer_keys_idle : steer_keys_idle (self off_centre_world).
Proof.
  intros steering Hst. cbn in Hst. injection Hst as <-. split; reflexivity.
Qed.

Lemma off_centre_smoothing : smoothing_in_range (self off_centre_world).
Proof. unfold smoothing_in_range. cbn. lra. Qed.




End ReturnToCenterExamples.

(** ** An idle keyboard does not look at the clock *)

Section IdleKeyboard.

Import keyboard_processor scenario idle_keyboard.

Variables clk1 clk2 : nat -> R.
Variable n : nat.

Lemma idle_get_self :
  sim (idle_at n) idle_processor (get_self (O := KeyboardProcessor)) get_self.
Proof.
  intros w1 w2 (<- & Hr & Hall). unfold get_self.
  split; [split; [reflexivity | exact Hall] | repeat split; assumption].
Qed.

Lemma idle_set_self (f : KeyboardProcessor -> KeyboardProcessor) :
  (forall p, key_states (f p) = key_states p) ->
  sim (idle_at n) eq (set_self (Ev := log_entry) f) (set_self f).
Proof.
  intros Hf w1 w2 (<- & Hr & Hall). unfold set_self, modify.
  split; [reflexivity |]. split; [reflexivity |]. split; [exact Hr |].
  unfold all_released. cbn [self]. intros name state. rewrite Hf. apply Hall.
Qed.

Lemma idle_calculate_key_value (key : pyval) :
  sim (idle_at n) eq (_calculate_key_value clk1 key) (_calculate_key_value clk2 key).
Proof.
  intros w1 w2 (<- & Hr & Hall).
  assert (Hidle : idle_at n w1 w1) by (repeat split; assumption).
  unfold _calculate_key_value, bind, get_self, lift, ret.
  destruct key as [| b | x | name | l | d]; cbn [key_states_get]; auto.
  destruct (key_states (self w1) !! name) as [state |] eqn:Hst; auto.
  rewrite (Hall name state Hst). auto.
Qed.

Lemma idle_steering_key_values (steering : pyval) :
  sim (idle_at n) eq (steering_key_values clk1 steering)
    (steering_key_values clk2 steering).
Proof.
  unfold steering_key_values.
  eapply sim_bind; [apply sim_lift; reflexivity |]. intros lk ? <-.
  eapply sim_bind; [apply sim_lift; reflexivity |]. intros rk ? <-.
  eapply sim_bind; [apply idle_calculate_key_value |]. intros lv ? <-.
  eapply sim_bind; [apply idle_calculate_key_value |]. intros rv ? <-.
  apply sim_ret. reflexivity.
Qed.

Lemma idle_update_steering (dt : R) :
  sim (idle_at n) eq (_update_steering clk1 dt) (_update_steering clk2 dt).
Proof.
  unfold _update_steering.
  eapply sim_bind; [apply idle_get_self |]. intros p ? [<- _]. cbv zeta.
  eapply sim_bind; [apply idle_steering_key_values |]. intros [lv rv] ? <-.
  eapply sim_bind; [apply sim_lift; reflexivity |]. intros g ? <-.
  eapply sim_bind with (Q := eq).
  { destruct (truthy g).
    - eapply sim_bind; [apply sim_lift; reflexivity |]. intros v ? <-.
      apply idle_set_self. reflexivity.
    - apply idle_set_self. reflexivity. }
  intros _ _ _.
  eapply sim_bind; [apply sim_lift; reflexivity |]. intros rtc ? <-.
  destruct (truthy rtc && _); [| apply sim_ret; reflexivity].
  eapply sim_bind; [apply sim_lift; reflexivity |]. intros c ? <-.
  eapply sim_bind; [apply idle_get_self |]. intros p' ? [<- _].
  eapply sim_bind; [apply sim_lift; reflexivity |]. intros v ? <-.
  apply idle_set_self. reflexivity.
Qed.

Lemma idle_update_pedals (dt : R) :
  sim (idle_at n) eq (_update_pedals clk1 dt) (_update_pedals clk2 dt).
Proof.
  unfold _update_pedals.
  eapply sim_bind; [apply idle_get_self |]. intros p ? [<- _]. cbv zeta.
  eapply sim_bind; [apply sim_lift; reflexivity |]. intros ak ? <-.
  eapply sim_bind; [apply sim_lift; reflexivity |]. intros bk ? <-.
  eapply sim_bind; [apply idle_calculate_key_value |]. intros tv ? <-.
  eapply sim_bind; [apply idle_calculate_key_value |]. intros bv ? <-.
  eapply sim_bind; [apply sim_lift; reflexivity |]. intros g ? <-.
  destruct (truthy g).
  - eapply sim_bind; [apply sim_lift; reflexivity |]. intros t ? <-.
    eapply sim_bind; [apply idle_set_self; reflexivity |]. intros _ _ _.
    eapply sim_bind; [apply sim_lift; reflexivity |]. intros b ? <-.
    apply idle_set_self. reflexivity.
  - eapply sim_bind; [apply idle_set_self; reflexivity |]. intros _ _ _.
    apply idle_set_self. reflexivity.
Qed.

Lemma idle_apply_counter_steer :
  sim (idle_at n) eq _apply_counter_steer _apply_counter_steer.
Proof.
  unfold _apply_counter_steer.
  eapply sim_bind; [apply idle_get_self |]. intros p ? [<- _].
  destruct (Rlt_dec 0.8 _); [| apply sim_ret; reflexivity].
  destruct (Rlt_dec 0.7 _); [| apply sim_ret; reflexivity].
  eapply sim_bind; [apply sim_lift; reflexivity |]. intros st ? <-.
  eapply sim_bind; [apply sim_lift; reflexivity |]. intros s ? <-.
  apply idle_set_self. reflexivity.
Qed.

Lemma idle_apply_anti_spin :
  sim (idle_at n) eq _apply_anti_spin _apply_anti_spin.
Proof.
  unfold _apply_anti_spin.
  eapply sim_bind; [apply idle_get_self |]. intros p ? [<- _].
  destruct (Rlt_dec 0.6 _); [| apply sim_ret; reflexivity].
  destruct (Rlt_dec 0.8 _); [| apply sim_ret; reflexivity].
  eapply sim_bind; [apply sim_lift; reflexivity |]. intros st ? <-.
  eapply sim_bind; [apply sim_lift; reflexivity |]. intros s ? <-.
  apply idle_set_self. reflexivity.
Qed.

Lemma idle_apply_assists :
  sim (idle_at n) eq _apply_assists _apply_assists.
Proof.
  unfold _apply_assists.
  eapply sim_bind; [apply idle_get_self |]. intros p ? [<- _]. cbv zeta.
  eapply sim_bind; [apply sim_lift; reflexivity |]. intros f1 ? <-.
  eapply sim_bind with (Q := eq).
  { destruct (truthy f1); [apply idle_apply_counter_steer | apply sim_ret; reflexivity]. }
  intros _ _ _.
  eapply sim_bind; [apply sim_lift; reflexivity |]. intros f2 ? <-.
  destruct (truthy f2); [apply idle_apply_anti_spin | apply sim_ret; reflexivity].
Qed.

Lemma idle_update (dt : R) :
  sim (idle_at n) eq (update clk1 dt) (update clk2 dt).
Proof.
  unfold update.
  eapply sim_bind; [apply idle_update_steering |]. intros _ _ _.
  eapply sim_bind; [apply idle_update_pedals |]. intros _ _ _.
  apply idle_apply_assists.
Qed.

End IdleKeyboard.

Section IdleKeyboardClaim.

Import keyboard_processor scenario idle_keyboard.

(** X11. While no tracked key is held, [update] does not read the wall
    clock and its outcome does not depend on it: for every configuration,
    [dt] and pair of clocks, the update returns the same result (or raises
    the same exception) in the same state, and the count of clock reads is
    unchanged. *)
Theorem idle_update_ignores_the_clock (clk1 clk2 : nat -> R) (dt : R) (w : W) :
  all_released (self w) ->
  update clk1 dt w = update clk2 dt w
  /\ reads (snd (update clk1 dt w)) = reads w.
Proof.
  intros Hall.
  assert (Hw : idle_at (reads w) w w) by (repeat split; assumption).
  pose proof (idle_update clk1 clk2 (reads w) dt w w Hw) as H.
  destruct (update clk1 dt w) as [[[] | e1] w1], (update clk2 dt w) as [[[] | e2] w2];
    try contradiction.
  - destruct H as (_ & <- & Hr & _). auto.
  - destruct H as (<- & <- & Hr & _). auto.
Qed.

Lemma idle_update_ignores_the_clock_witness :
  update (clock_at 1) (1 / 60) fresh_world = update (clock_at 2) (1 / 60) fresh_world
  /\ reads (snd (update (clock_at 1) (1 / 60) fresh_world)) = reads fresh_world.
Proof.
  apply (idle_update_ignores_the_clock (clock_at 1) (clock_at 2) (1 / 60) fresh_world).
  intros name state Hlk. exact (default_key_states_unpressed name state Hlk).
Defined.

End IdleKeyboardClaim.

(** ** Construction of the processor *)

Section Construction.

Import keyboard_processor scenario.

(** X12. A processor built from a configuration whose [keyboard_controls]
    sections are dictionaries with string bindings keeps that
    [keyboard_controls] dictionary as its configuration and tracks exactly
    the four bound keys (fewer when two controls share a key), each in the
    released state of [KeyState()], with all axes at 0 and the smoothing
    factors 0.8 and 0.7. *)
Theorem init_tracks_the_bound_keys
  (config cfg steering acceleration : gmap string pyval) (n1 n2 n3 n4 : string) :
  dict_get config "keyboard_controls" (PDict ∅) = PDict cfg ->
  dict_get cfg "steering" (PDict ∅) = PDict steering ->
  dict_get cfg "acceleration" (PDict ∅) = PDict acceleration ->
  dict_get steering "left_key" (PStr "a") = PStr n1 ->
  dict_get steering "right_key" (PStr "d") = PStr n2 ->
  dict_get acceleration "accelerate_key" (PStr "w") = PStr n3 ->
  dict_get acceleration "brake_key" (PStr "s") = PStr n4 ->
  exists p,
    __init__ config = Ok p
    /\ keyboard_processor.config p = cfg
    /\ dom (key_states p) = ({[ n1; n2; n3; n4 ]} : gset string)
    /\ (forall name state, key_states p !! name = Some state -> state = KeyState0)
    /\ get_inputs p = (0, 0, 0)
    /\ steering_smoothing p = 0.8
    /\ pedal_smoothing p = 0.7.
Proof.
  intros Hc Hst Hacc H1 H2 H3 H4.
  unfold __init__. rewrite Hc. unfold _init_key_states. cbv zeta.
  rewrite Hst, Hacc. cbn [py_get]. rewrite H1, H2, H3, H4. cbn [key_name].
  eexists. split; [reflexivity |]. cbn.
  split; [reflexivity |].
  split; [rewrite !dom_insert_L, dom_empty_L; apply set_eq; intros x;
          rewrite !elem_of_union, !elem_of_singleton, elem_of_empty; tauto |].
  split; [| auto].
  intros name state H.
  repeat (apply lookup_insert_Some in H as [[_ <-] | [_ H]]; [reflexivity |]).
  rewrite lookup_empty in H. discriminate.
Qed.

(** X13. Construction fails, with [AttributeError], whenever
    [keyboard_controls], or the [steering] or the [acceleration] section
    inside it, is present but is not a dictionary: no processor is built. *)
Theorem init_rejects_non_dict_sections (config : gmap string pyval) :
  ((forall d, dict_get config "keyboard_controls" (PDict ∅) <> PDict d) ->
   __init__ config = Raise AttributeError)
  /\ (forall cfg,
        dict_get config "keyboard_controls" (PDict ∅) = PDict cfg ->
        (forall d, dict_get cfg "steering" (PDict ∅) <> PDict d) ->
        __init__ config = Raise AttributeError)
  /\ (forall cfg steering,
        dict_get config "keyboard_controls" (PDict ∅) = PDict cfg ->
        dict_get cfg "steering" (PDict ∅) = PDict steering ->
        (forall d, dict_get cfg "acceleration" (PDict ∅) <> PDict d) ->
        __init__ config = Raise AttributeError).
Proof.
  split; [| split].
  - intros Hn. unfold __init__.
    destruct (dict_get config "keyboard_controls" (PDict ∅)) eqn:E; try reflexivity.
    exfalso. exact (Hn d eq_refl).
  - intros cfg Hc Hn. unfold __init__. rewrite Hc. unfold _init_key_states. cbv zeta.
    destruct (dict_get cfg "steering" (PDict ∅)) eqn:E; try reflexivity.
    exfalso. exact (Hn d eq_refl).
  - intros cfg steering Hc Hst Hn. unfold __init__. rewrite Hc.
    unfold _init_key_states. cbv zeta. rewrite Hst. cbn [py_get].
    destruct (dict_get cfg "acceleration" (PDict ∅)) eqn:E; try reflexivity.
    exfalso. exact (Hn d eq_refl).
Qed.

End Construction.

Section ConstructionExamples.

Import keyboard_processor scenario construction_scenario.

Lemma init_tracks_the_bound_keys_witness :
  exists p,
    __init__ custom_controls_config = Ok p
    /\ keyboard_processor.config p =
         <["steering" :=
             PDict (<["left_key" := PStr "j"]> {[ "right_key" := PStr "l" ]})]>
           {[ "acceleration" := PDict {[ "accelerate_key" := PStr "i" ]} ]}
    /\ dom (key_states p) = ({[ "j"; "l"; "i"; "s" ]} : gset string)
    /\ (forall name state, key_states p !! name = Some state -> state = KeyState0)
    /\ get_inputs p = (0, 0, 0)
    /\ steering_smoothing p = 0.8
    /\ pedal_smoothing p = 0.7.
Proof.
  apply (init_tracks_the_bound_keys custom_controls_config _
           (<["left_key" := PStr "j"]> {[ "right_key" := PStr "l" ]})
           {[ "accelerate_key" := PStr "i" ]} "j" "l" "i" "s"); reflexivity.
Defined.

Lemma init_rejects_non_dict_sections_witness :
  __init__ broken_controls_config = Raise AttributeError.
Proof.
  apply (proj1 (init_rejects_non_dict_sections broken_controls_config)).
  intros d. discriminate.
Defined.

End ConstructionExamples.

(** ** The detection loop as a whole *)

Section DetectionLoop.

Import input_device_manager arbitration_scenario.

Variable clk : nat -> R.

Lemma detection_step_poll_failure (is_pressed : string -> res bool) (e : exn) (w : W) :
  any_pressed is_pressed monitored = Raise e ->
  detection_step clk is_pressed w =
    (Ok tt,
     mkWorld (self w) (reads w)
       (trace w ++ Log (LogError "Error in device detection loop" e) :: nil)).
Proof.
  intros Hany. unfold detection_step, try_except.
  unfold bind at 1. unfold lift at 1. rewrite Hany. reflexivity.
Qed.

(** What a sample leaves of the manager, whatever the poll answers. *)
Lemma detection_step_keeps (is_pressed : string -> res bool) (w : W) :
  exists w',
    detection_step clk is_pressed w = (Ok tt, w')
    /\ device_changed_callbacks (self w') = device_changed_callbacks (self w)
    /\ detection_threshold (self w') = detection_threshold (self w)
    /\ last_wheel_time (self w') = last_wheel_time (self w)
    /\ running (self w') = running (self w)
    /\ keyboard_config (self w') = keyboard_config (self w).
Proof.
  destruct (any_pressed is_pressed monitored) as [any_key | e] eqn:Hany.
  - rewrite (detection_step_eq clk is_pressed any_key w Hany).
    eexists. split; [reflexivity |].
    destruct (decide _); unfold sampled; destruct any_key; cbn; auto.
  - rewrite (detection_step_poll_failure is_pressed e w Hany).
    eexists. split; [reflexivity |]. cbn. auto.
Qed.

(** X14. The detection loop never stops on an error. Whatever the polls
    answer (a poll may raise) and whatever the listeners do (a listener may
    raise), the loop over any sequence of samples returns normally, and it
    never changes the list of listeners, the detection threshold, the
    recorded wheel time, the [running] flag or the keyboard configuration.
    A sample whose poll raises changes nothing but the log: the device, the
    recorded times and the count of clock reads stay as they were. *)
Theorem detection_loop_survives_errors :
  (forall (samples : list (string -> res bool)) (w : W),
     exists w',
       _device_detection_loop clk samples w = (Ok tt, w')
       /\ device_changed_callbacks (self w') = device_changed_callbacks (self w)
       /\ detection_threshold (self w') = detection_threshold (self w)
       /\ last_wheel_time (self w') = last_wheel_time (self w)
       /\ running (self w') = running (self w)
       /\ keyboard_config (self w') = keyboard_config (self w))
  /\ (forall (is_pressed : string -> res bool) (e : exn) (w : W),
        any_pressed is_pressed monitored = Raise e ->
        exists w',
          detection_step clk is_pressed w = (Ok tt, w')
          /\ self w' = self w
          /\ reads w' = reads w
          /\ trace w' =
               trace w ++ Log (LogError "Error in device detection loop" e) :: nil).
Proof.
  split.
  - intros samples. induction samples as [| is_pressed samples IH]; intros w.
    + exists w. split; [reflexivity | auto].
    + cbn [_device_detection_loop]. unfold bind at 1, get_self at 1.
      destruct (running (self w)) eqn:Hrun.
      * destruct (detection_step_keeps is_pressed w)
          as (w1 & E1 & H1 & H2 & H3 & H4 & H5).
        rewrite (bind_ok _ _ _ _ _ E1).
        destruct (IH w1) as (w' & E & G1 & G2 & G3 & G4 & G5).
        exists w'. split; [exact E |].
        repeat split; congruence.
      * exists w. split; [reflexivity | auto].
  - intros is_pressed e w Hany.
    rewrite (detection_step_poll_failure is_pressed e w Hany).
    eexists. split; [reflexivity |]. cbn. auto.
Qed.

(** A sample taken while the wheel is out of its activity window computes
    KEYBOARD or UNKNOWN. *)
Lemma device_of_not_wheel (any_key : bool) (w : W) :
  (forall n, last_wheel_time (self w) + detection_threshold (self w) <= clk n) ->
  device_of clk any_key w <> STEERING_WHEEL.
Proof.
  intros Hw. destruct (device_of_cases clk any_key w) as (_ & HS & _).
  cbv zeta in HS. intros Hd. apply HS in Hd as [Hact _].
  specialize (Hw (if any_key then S (reads w) else reads w)).
  unfold now_of in Hact. lra.
Qed.

Lemma invocations_no_wheel (d : InputDevice) (callbacks : list Callback) (name : string) :
  d <> STEERING_WHEEL ->
  ~ In (name, STEERING_WHEEL) (invocations (notifications d callbacks)).
Proof.
  intros Hd. rewrite invocations_notifications. intros Hin.
  apply in_map_iff in Hin as (callback & [= _ Heq] & _). congruence.
Qed.

Lemma detection_step_not_wheel (is_pressed : string -> res bool) (w : W) :
  (forall n, last_wheel_time (self w) + detection_threshold (self w) <= clk n) ->
  current_device (self w) <> STEERING_WHEEL ->
  exists w',
    detection_step clk is_pressed w = (Ok tt, w')
    /\ current_device (self w') <> STEERING_WHEEL
    /\ (forall name,
          In (name, STEERING_WHEEL) (invocations (trace w')) ->
          In (name, STEERING_WHEEL) (invocations (trace w))).
Proof.
  intros Hw Hcur.
  destruct (any_pressed is_pressed monitored) as [any_key | e] eqn:Hany.
  - rewrite (detection_step_eq clk is_pressed any_key w Hany).
    pose proof (device_of_not_wheel any_key w Hw) as Hd.
    eexists. split; [reflexivity |].
    destruct (decide _) as [He | Hne]; cbn [self trace].
    + split; [| auto]. unfold sampled. destruct any_key; exact Hcur.
    + split; [exact Hd |]. intros name.
      rewrite !invocations_app. cbn [invocations]. rewrite app_nil_r.
      intros Hin. apply in_app_or in Hin as [Hin | Hin]; [exact Hin |].
      exfalso. exact (invocations_no_wheel _ _ name Hd Hin).
  - rewrite (detection_step_poll_failure is_pressed e w Hany).
    eexists. split; [reflexivity |]. cbn [self trace]. split; [exact Hcur |].
    intros name. rewrite invocations_app. cbn [invocations]. now rewrite app_nil_r.
Qed.

(** X15. The arbitrator never selects the steering wheel. Wheel detection
    always answers "no activity", so the recorded wheel time stays where
    it was; once the clock is past that time by the threshold (for a fresh
    manager: any clock reading of at least 0.5), no sequence of samples
    makes the current device STEERING_WHEEL, and no listener is ever called
    with STEERING_WHEEL. *)
Theorem detection_never_selects_wheel (samples : list (string -> res bool)) (w : W) :
  (forall n, last_wheel_time (self w) + detection_threshold (self w) <= clk n) ->
  current_device (self w) <> STEERING_WHEEL ->
  exists w',
    _device_detection_loop clk samples w = (Ok tt, w')
    /\ current_device (self w') <> STEERING_WHEEL
    /\ (forall name,
          In (name, STEERING_WHEEL) (invocations (trace w')) ->
          In (name, STEERING_WHEEL) (invocations (trace w))).
Proof.
  revert w. induction samples as [| is_pressed samples IH]; intros w Hw Hcur.
  - exists w. split; [reflexivity | auto].
  - cbn [_device_detection_loop]. unfold bind at 1, get_self at 1.
    destruct (running (self w)) eqn:Hrun; [| exists w; split; [reflexivity | auto]].
    destruct (detection_step_not_wheel is_pressed w Hw Hcur) as (w1 & E1 & Hc1 & Hi1).
    destruct (detection_step_keeps is_pressed w) as (w1' & E1' & _ & Hth & Hwt & _).
    rewrite E1 in E1'. injection E1' as <-.
    rewrite (bind_ok _ _ _ _ _ E1).
    destruct (IH w1) as (w' & E & Hc & Hi); [rewrite Hth, Hwt; exact Hw | exact Hc1 |].
    exists w'. split; [exact E |]. split; [exact Hc |]. auto.
Qed.

(** X16. Listeners are called in registration order, once per
    registration: after registering a list of callbacks one after the
    other, a notification calls the previously registered listeners first
    and then the new ones in the order given; a callback registered twice
    is called twice. *)
Theorem listeners_called_in_registration_order (callbacks : list Callback) (w : W) :
  exists w1 w2,
    for_each callbacks register_device_changed_callback w = (Ok tt, w1)
    /\ _notify_device_changed w1 = (Ok tt, w2)
    /\ invocations (trace w2) =
         invocations (trace w) ++
         map (fun callback => (cb_name callback, current_device (self w)))
           (device_changed_callbacks (self w) ++ callbacks).
Proof.
  rewrite register_callbacks. eexists. eexists. split; [reflexivity |].
  rewrite notify_device_changed_eq. split; [reflexivity |].
  cbn [self trace current_device set_callbacks device_changed_callbacks].
  rewrite invocations_app, invocations_notifications. reflexivity.
Qed.

End DetectionLoop.

Section DetectionLoopExamples.

Import input_device_manager arbitration_scenario.

Lemma detection_never_selects_wheel_witness :
  exists w',
    _device_detection_loop (activity_clock 1) (w_down :: no_key :: no_key :: nil)
      (fresh_manager (quiet_listener :: nil)) = (Ok tt, w')
    /\ current_device (self w') <> STEERING_WHEEL
    /\ (forall name,
          In (name, STEERING_WHEEL) (invocations (trace w')) ->
          In (name, STEERING_WHEEL)
            (invocations (trace (fresh_manager (quiet_listener :: nil))))).
Proof.
  apply (detection_never_selects_wheel (activity_clock 1)).
  - intros n. cbn. destruct n as [| [| [| n]]]; cbn; lra.
  - discriminate.
Defined.

Lemma detection_loop_survives_errors_witness :
  exists w',
    detection_step (activity_clock 1) (fun _ => Raise (Exception "hook lost"))
      (fresh_manager (failing_listener :: nil)) = (Ok tt, w')
    /\ self w' = self (fresh_manager (failing_listener :: nil))
    /\ reads w' = reads (fresh_manager (failing_listener :: nil))
    /\ trace w' =
         trace (fresh_manager (failing_listener :: nil)) ++
         Log (LogError "Error in device detection loop" (Exception "hook lost")) :: nil.
Proof.
  apply (proj2 (detection_loop_survives_errors (activity_clock 1))).
  reflexivity.
Defined.

Lemma listeners_called_in_registration_order_witness :
  exists w1 w2,
    for_each (quiet_listener :: quiet_listener :: nil) register_device_changed_callback
      (fresh_manager (failing_listener :: nil)) = (Ok tt, w1)
    /\ _notify_device_changed w1 = (Ok tt, w2)
    /\ invocations (trace w2) =
         invocations (trace (fresh_manager (failing_listener :: nil))) ++
         map (fun callback => (cb_name callback, UNKNOWN))
           ((failing_listener :: nil) ++ quiet_listener :: quiet_listener :: nil).
Proof.
  exact (listeners_called_in_registration_order
           (quiet_listener :: quiet_listener :: nil)
           (fresh_manager (failing_listener :: nil))).
Defined.

End DetectionLoopExamples.

(** ** Axis values *)

Section AxisValues.

Import input_manager input_manager_axes.

Lemma Int_part_mono (x y : R) : x <= y -> (Int_part x <= Int_part y)%Z.
Proof.
  intros Hxy. destruct (base_Int_part x) as [Hx _], (base_Int_part y) as [_ Hy].
  apply Z.lt_succ_r, lt_IZR. rewrite succ_IZR. lra.
Qed.

Lemma Int_part_IZR (z : Z) : Int_part (IZR z) = z.
Proof. symmetry. apply Int_part_spec. lra. Qed.

Lemma py_int_nonneg (x : R) : 0 <= x -> py_int x = Int_part x.
Proof. intros H. unfold py_int. destruct (Rle_dec 0 x); [reflexivity | contradiction]. Qed.

Lemma py_int_IZR (z : Z) : py_int (IZR z) = z.
Proof.
  unfold py_int. destruct (Rle_dec 0 (IZR z)); [apply Int_part_IZR |].
  rewrite <- opp_IZR, Int_part_IZR. lia.
Qed.

Lemma py_int_mono (x y : R) : x <= y -> (py_int x <= py_int y)%Z.
Proof.
  intros Hxy. unfold py_int.
  destruct (Rle_dec 0 x) as [Hx | Hx], (Rle_dec 0 y) as [Hy | Hy]; try lra.
  - now apply Int_part_mono.
  - assert (Hn : (0 <= Int_part (- x))%Z).
    { rewrite <- (Int_part_IZR 0). apply Int_part_mono. lra. }
    assert (Hp : (0 <= Int_part y)%Z).
    { rewrite <- (Int_part_IZR 0). apply Int_part_mono. lra. }
    lia.
  - assert (H : (Int_part (- y) <= Int_part (- x))%Z) by (apply Int_part_mono; lra).
    lia.
Qed.

Lemma steering_axis_range (s : R) : (0 <= steering_axis s <= 32767)%Z.
Proof. unfold steering_axis, MAX_AXIS. lia. Qed.

Lemma pedal_axis_range (v : R) : 0 <= v <= 1 -> (0 <= pedal_axis v <= 32767)%Z.
Proof.
  intros Hv. unfold pedal_axis, MAX_AXIS.
  split.
  - rewrite <- (py_int_IZR 0). apply py_int_mono. lra.
  - rewrite <- (py_int_IZR 32767) at 2. apply py_int_mono. lra.
Qed.

Lemma convert_present (inputs : gmap string R) (s t b : R) (w : W) :
  inputs !! "steering" = Some s ->
  inputs !! "throttle" = Some t ->
  inputs !! "brake" = Some b ->
  _convert_to_axis_values inputs w =
    (Ok (axis_dict (steering_axis s) (pedal_axis t) (pedal_axis b)), w).
Proof.
  intros Hs Ht Hb. unfold _convert_to_axis_values, try_except, bind, lift, ret, get_item.
  rewrite Hs, Ht, Hb. reflexivity.
Qed.

(** X17. Conversion to axis values. For inputs that hold the three axes,
    [_convert_to_axis_values] logs nothing and returns a dictionary with
    exactly the keys steering, throttle and brake. The steering axis value
    is within [0, 32767] for every steering input, also one outside
    [-1, 1]; throttle and brake, which are not clamped, are within
    [0, 32767] whenever their input is within [0, 1]. *)
Theorem axis_values_in_range (inputs : gmap string R) (s t b : R) (w : W) :
  inputs !! "steering" = Some s ->
  inputs !! "throttle" = Some t ->
  inputs !! "brake" = Some b ->
  exists axis_values steering throttle brake,
    _convert_to_axis_values inputs w = (Ok axis_values, w)
    /\ dom axis_values = ({[ "steering"; "throttle"; "brake" ]} : gset string)
    /\ axis_values !! "steering" = Some steering
    /\ axis_values !! "throttle" = Some throttle
    /\ axis_values !! "brake" = Some brake
    /\ (0 <= steering <= 32767)%Z
    /\ (0 <= t <= 1 -> (0 <= throttle <= 32767)%Z)
    /\ (0 <= b <= 1 -> (0 <= brake <= 32767)%Z).
Proof.
  intros Hs Ht Hb. rewrite (convert_present inputs s t b w Hs Ht Hb).
  exists (axis_dict (steering_axis s) (pedal_axis t) (pedal_axis b)),
    (steering_axis s), (pedal_axis t), (pedal_axis b).
  split; [reflexivity |].
  split.
  { unfold axis_dict. rewrite !dom_insert_L, dom_singleton_L.
    apply set_eq; intros x.
    rewrite !elem_of_union, !elem_of_singleton. tauto. }
  split; [reflexivity |]. split; [reflexivity |]. split; [reflexivity |].
  split; [apply steering_axis_range |].
  split; apply pedal_axis_range.
Qed.

(** X18. The axis scale. The steering axis value grows with the steering
    input; full left (-1) is 0, centre (0) is 16384 and full right (1) is
    32767, the value 32768 being clamped. A pedal axis value grows with its
    input, from 0 at 0 to 32767 at 1, and is not clamped: an input above 1
    gives a value above 32767. *)
Theorem axis_scale :
  (forall s1 s2, s1 <= s2 -> (steering_axis s1 <= steering_axis s2)%Z)
  /\ steering_axis (-1) = 0%Z
  /\ steering_axis 0 = 16384%Z
  /\ steering_axis 1 = 32767%Z
  /\ (forall v1 v2, v1 <= v2 -> (pedal_axis v1 <= pedal_axis v2)%Z)
  /\ pedal_axis 0 = 0%Z
  /\ pedal_axis 1 = 32767%Z
  /\ pedal_axis 2 = 65534%Z.
Proof.
  assert (HC : IZR CENTER = 16384) by (unfold CENTER; reflexivity).
  assert (HM : IZR MAX_AXIS = 32767) by reflexivity.
  split.
  { intros s1 s2 H. unfold steering_axis.
    assert ((py_int (IZR CENTER + s1 * IZR CENTER)
             <= py_int (IZR CENTER + s2 * IZR CENTER))%Z)
      by (apply py_int_mono; rewrite HC; lra).
    lia. }
  split.
  { unfold steering_axis. rewrite HC.
    replace (16384 + -1 * 16384) with (IZR 0) by lra. rewrite py_int_IZR. reflexivity. }
  split.
  { unfold steering_axis. rewrite HC.
    replace (16384 + 0 * 16384) with (IZR 16384) by lra. rewrite py_int_IZR.
    reflexivity. }
  split.
  { unfold steering_axis. rewrite HC.
    replace (16384 + 1 * 16384) with (IZR 32768) by lra. rewrite py_int_IZR.
    reflexivity. }
  split.
  { intros v1 v2 H. unfold pedal_axis. apply py_int_mono. rewrite HM. lra. }
  split.
  { unfold pedal_axis. rewrite HM. replace (0 * 32767) with (IZR 0) by lra.
    apply py_int_IZR. }
  split.
  { unfold pedal_axis. rewrite HM. replace (1 * 32767) with (IZR 32767) by lra.
    apply py_int_IZR. }
  unfold pedal_axis. rewrite HM. replace (2 * 32767) with (IZR 65534) by lra.
  apply py_int_IZR.
Qed.

(** X19. A dictionary that lacks one of the three axes does not make the
    conversion raise: it logs the error and returns the fallback, steering
    at the centre 16384 with throttle and brake 0, and changes nothing
    else. *)
Theorem conversion_falls_back_on_missing_axis (inputs : gmap string R) (w : W) :
  inputs !! "steering" = None \/ inputs !! "throttle" = None \/ inputs !! "brake" = None ->
  exists e,
    _convert_to_axis_values inputs w =
      (Ok (axis_dict 16384 0 0),
       mkWorld (self w) (reads w)
         (trace w ++ LogError "Error converting input values" e :: nil)).
Proof.
  intros H. unfold _convert_to_axis_values, try_except, bind, lift, ret, get_item,
              emit, modify.
  destruct (inputs !! "steering") as [s |]; [| eexists; reflexivity].
  destruct (inputs !! "throttle") as [t |]; [| eexists; reflexivity].
  destruct (inputs !! "brake") as [b |]; [| eexists; reflexivity].
  destruct H as [H | [H | H]]; discriminate.
Qed.

End AxisValues.

(** ** One keyboard tick of the input manager *)

Section KeyboardTick.

Import input_manager input_manager_axes scenario.

Variable clk : nat -> R.

(** X20. A keyboard tick hands in-range axis values on. When the input
    manager's processor has its axes in bounds and a configuration in
    range, and no held key has a press time later than the clock readings
    the tick takes, the first half of [_process_keyboard_input] updates the
    processor in place exactly as [update(dt)] does, logs nothing, and
    computes, from the inputs of the updated processor, an axis dictionary
    whose steering, throttle and brake are all within [0, 32767]. *)
Theorem keyboard_tick_axis_values_in_range
  (dt : R) (w : W) (kp : keyboard_processor.KeyboardProcessor) :
  keyboard_processor (self w) = Some kp ->
  0 <= dt ->
  config_in_range (keyboard_processor.config kp) ->
  smoothing_in_range kp ->
  presses_before clk (mkWorld kp (reads w) (trace w)) ->
  axes_in_bounds kp ->
  exists kw steering throttle brake,
    keyboard_processor.update clk dt (mkWorld kp (reads w) (trace w)) = (Ok tt, kw)
    /\ keyboard_axis_values clk dt w =
         (Ok (get_inputs_dict (self kw), axis_dict steering throttle brake),
          mkWorld (set_keyboard_processor (Some (self kw)) (self w))
            (reads kw) (trace w))
    /\ steering = steering_axis (keyboard_processor.steering_value (self kw))
    /\ throttle = pedal_axis (keyboard_processor.throttle_value (self kw))
    /\ brake = pedal_axis (keyboard_processor.brake_value (self kw))
    /\ (0 <= steering <= 32767)%Z
    /\ (0 <= throttle <= 32767)%Z
    /\ (0 <= brake <= 32767)%Z.
Proof.
  intros Hkp Hdt Hcfg Hsm Hp Hb.
  destruct (update_preserves_axis_bounds clk dt (mkWorld kp (reads w) (trace w))
              Hdt Hcfg Hsm Hp Hb)
    as (kw & E & (Hs & Ht & Hbk) & _ & _ & Htr).
  cbn [trace] in Htr.
  exists kw, (steering_axis (keyboard_processor.steering_value (self kw))),
    (pedal_axis (keyboard_processor.throttle_value (self kw))),
    (pedal_axis (keyboard_processor.brake_value (self kw))).
  split; [exact E |].
  split.
  { unfold keyboard_axis_values. unfold bind at 1. unfold on_processor at 1.
    rewrite Hkp, E. unfold bind at 1. unfold on_processor at 1.
    cbn [self keyboard_processor set_keyboard_processor reads trace].
    unfold bind at 1, get_self at 1, ret at 1.
    cbn [self keyboard_processor set_keyboard_processor reads trace config running].
    unfold bind at 1.
    rewrite (convert_present _ (keyboard_processor.steering_value (self kw))
               (keyboard_processor.throttle_value (self kw))
               (keyboard_processor.brake_value (self kw))) by reflexivity.
    rewrite Htr. destruct w as [[c p r] rd tr]. reflexivity. }
  split; [reflexivity |]. split; [reflexivity |]. split; [reflexivity |].
  split; [apply steering_axis_range |].
  split; apply pedal_axis_range; assumption.
Qed.

(** X21. [_process_keyboard_input] never raises, whatever the processor,
    the configuration, the direct-input call and an attached visualizer
    do; with no processor (keyboard support failed to initialise) it only
    logs the [AttributeError]: the manager and the clock are untouched and
    neither the direct-input call nor the visualizer is reached. *)
Theorem process_keyboard_input_never_raises (move : Z -> res unit)
  (visualize : option (gmap string R -> res unit)) (dt : R) (w : W) :
  fst (_process_keyboard_input clk move visualize dt w) = Ok tt
  /\ (keyboard_processor (self w) = None ->
      _process_keyboard_input clk move visualize dt w =
        (Ok tt,
         mkWorld (self w) (reads w)
           (trace w ++ LogError "Error processing keyboard input" AttributeError :: nil))).
Proof.
  split.
  - unfold _process_keyboard_input, try_except.
    destruct (bind (keyboard_axis_values clk dt) _ w) as [[[] | e] w1] eqn:E;
      reflexivity.
  - intros Hnone. unfold _process_keyboard_input, try_except.
    unfold bind at 1. unfold keyboard_axis_values. unfold bind at 1.
    unfold on_processor at 1. rewrite Hnone. reflexivity.
Qed.

End KeyboardTick.

Section KeyboardTickExamples.

Import input_manager input_manager_axes scenario.

Lemma axis_values_in_range_witness :
  exists axis_values steering throttle brake,
    _convert_to_axis_values
      (get_inputs_dict (self committed_world)) driving_manager
      = (Ok axis_values, driving_manager)
    /\ dom axis_values = ({[ "steering"; "throttle"; "brake" ]} : gset string)
    /\ axis_values !! "steering" = Some steering
    /\ axis_values !! "throttle" = Some throttle
    /\ axis_values !! "brake" = Some brake
    /\ (0 <= steering <= 32767)%Z
    /\ (0 <= 0.85 <= 1 -> (0 <= throttle <= 32767)%Z)
    /\ (0 <= 0 <= 1 -> (0 <= brake <= 32767)%Z).
Proof.
  apply (axis_values_in_range (get_inputs_dict (self committed_world)) 0.9 0.85 0);
    reflexivity.
Defined.

Lemma conversion_falls_back_on_missing_axis_witness :
  exists e,
    _convert_to_axis_values {[ "steering" := 0.5 ]} driving_manager =
      (Ok (axis_dict 16384 0 0),
       mkWorld (self driving_manager) (reads driving_manager)
         (trace driving_manager ++ LogError "Error converting input values" e :: nil)).
Proof.
  apply (conversion_falls_back_on_missing_axis {[ "steering" := 0.5 ]} driving_manager).
  right. left. reflexivity.
Defined.

Lemma keyboard_tick_axis_values_in_range_witness :
  exists kw steering throttle brake,
    keyboard_processor.update (clock_at 1) (1 / 60)
      (mkWorld (self throttle_held_world) (reads driving_manager) (trace driving_manager))
      = (Ok tt, kw)
    /\ keyboard_axis_values (clock_at 1) (1 / 60) driving_manager =
         (Ok (get_inputs_dict (self kw), axis_dict steering throttle brake),
          mkWorld (set_keyboard_processor (Some (self kw)) (self driving_manager))
            (reads kw) (trace driving_manager))
    /\ steering = steering_axis (keyboard_processor.steering_value (self kw))
    /\ throttle = pedal_axis (keyboard_processor.throttle_value (self kw))
    /\ brake = pedal_axis (keyboard_processor.brake_value (self kw))
    /\ (0 <= steering <= 32767)%Z
    /\ (0 <= throttle <= 32767)%Z
    /\ (0 <= brake <= 32767)%Z.
Proof.
  apply (keyboard_tick_axis_values_in_range (clock_at 1) (1 / 60) driving_manager
           (self throttle_held_world)).
  - reflexivity.
  - lra.
  - exact default_config_in_range.
  - unfold smoothing_in_range. cbn. lra.
  - intros key state n Hlk Hpr _. cbn in Hlk.
    apply lookup_insert_Some in Hlk as [[_ <-] | [_ Hlk]].
    + cbn. unfold clock_at. lra.
    + rewrite (default_key_states_unpressed key state Hlk) in Hpr. discriminate.
  - unfold axes_in_bounds. cbn. lra.
Defined.

Lemma process_keyboard_input_never_raises_witness :
  _process_keyboard_input (clock_at 1) (fun _ => Raise (Exception "failsafe")) None
    (1 / 60) (mkWorld (mkInputManager ∅ None true) 0 nil) =
  (Ok tt,
   mkWorld (mkInputManager ∅ None true) 0
     (nil ++ LogError "Error processing keyboard input" AttributeError :: nil)).
Proof.
  apply (proj2 (process_keyboard_input_never_raises (clock_at 1)
                  (fun _ => Raise (Exception "failsafe")) None (1 / 60)
                  (mkWorld (mkInputManager ∅ None true) 0 nil))).
  reflexivity.
Defined.

End KeyboardTickExamples.

(** ** The input controller *)

Section Controller.

Import input_device_manager input_controller.

(** X22. The input controller builds its processor from the keyboard
    configuration file. When the device manager's configuration is a
    dictionary from which a processor can be constructed and the GUI has no
    notebook, or one whose tab is built without error,
    [_init_keyboard_support] installs exactly that processor, so the
    bindings of the file take effect; with no file, the processor built
    from the default configuration tracks a, d, w, s. When construction
    fails with [AttributeError] (the configuration, its [keyboard_controls]
    or a section is not a dictionary), the error is logged and raised
    again and nothing is installed. When attaching the tab raises, the
    error is logged and raised again with the processor and the visualizer
    already installed. *)
Theorem controller_builds_processor_from_file (g : gui) (w : W) :
  (forall d p,
     g = NoNotebook \/ g = Notebook (Ok tt) (Ok tt) ->
     keyboard_config (device_manager (self w)) = PDict d ->
     keyboard_processor.__init__ d = Ok p ->
     exists w',
       _init_keyboard_support g w = (Ok tt, w')
       /\ keyboard_processor (self w') = Some p
       /\ device_manager (self w') = device_manager (self w)
       /\ keyboard_visualizer (self w') =
            match g with
            | NoNotebook => keyboard_visualizer (self w)
            | Notebook _ _ => true
            end)
  /\ (KeyboardProcessor (keyboard_config (device_manager (self w)))
        = Raise AttributeError ->
      _init_keyboard_support g w =
        (Raise AttributeError,
         mkWorld (self w) (reads w)
           (trace w
            ++ LogError "Error initializing keyboard support" AttributeError :: nil)))
  /\ (forall d p e,
        g = Notebook (Ok tt) (Raise e) ->
        keyboard_config (device_manager (self w)) = PDict d ->
        keyboard_processor.__init__ d = Ok p ->
        exists w',
          _init_keyboard_support g w = (Raise e, w')
          /\ keyboard_processor (self w') = Some p
          /\ keyboard_visualizer (self w') = true
          /\ trace w' =
               trace w ++ LogError "Error initializing keyboard support" e :: nil)
  /\ KeyboardProcessor _get_default_keyboard_config = Ok default_controls_processor
  /\ dom (keyboard_processor.key_states default_controls_processor)
       = ({[ "a"; "d"; "w"; "s" ]} : gset string).
Proof.
  split; [| split; [| split; [| split]]].
  - intros d p Hg Hcfg Hp.
    unfold _init_keyboard_support, try_except.
    unfold bind at 1, get_self at 1. rewrite Hcfg. cbn [KeyboardProcessor].
    unfold bind at 1, lift at 1. rewrite Hp.
    destruct Hg as [-> | ->]; eexists; (split; [reflexivity |]); auto.
  - intros He. unfold _init_keyboard_support, try_except.
    unfold bind at 1, get_self at 1. unfold bind at 1, lift at 1. rewrite He.
    reflexivity.
  - intros d p e -> Hcfg Hp.
    unfold _init_keyboard_support, try_except.
    unfold bind at 1, get_self at 1. rewrite Hcfg. cbn [KeyboardProcessor].
    unfold bind at 1, lift at 1. rewrite Hp.
    eexists. split; [reflexivity |]. auto.
  - reflexivity.
  - unfold default_controls_processor, scenario.default_key_states. cbn.
    rewrite !dom_insert_L, dom_empty_L. apply set_eq; intros x.
    rewrite !elem_of_union, !elem_of_singleton, elem_of_empty. tauto.
Qed.

Variable clk : nat -> R.

(** X23. One pass of the controller's update loop never raises and always
    moves [last_update_time] to the clock reading it takes. The processor
    is updated only when the current device is KEYBOARD, and then with
    [dt] = the reading minus the previous [last_update_time], that is the
    time since the previous pass whether or not that pass updated the
    processor; in any other mode the processor is left untouched. *)
Theorem update_iteration_gates_on_keyboard (visualize : res unit) (w : W) :
  let now := clk (reads w) in
  let dt := now - last_update_time (self w) in
  exists w',
    update_iteration clk visualize w = (Ok tt, w')
    /\ last_update_time (self w') = now
    /\ device_manager (self w') = device_manager (self w)
    /\ (current_device (device_manager (self w)) <> KEYBOARD ->
        keyboard_processor (self w') = keyboard_processor (self w)
        /\ reads w' = S (reads w) /\ trace w' = trace w)
    /\ (forall kp,
          current_device (device_manager (self w)) = KEYBOARD ->
          keyboard_processor (self w) = Some kp ->
          keyboard_processor (self w') =
            Some (self (snd (keyboard_processor.update clk dt
                               (mkWorld kp (S (reads w)) (trace w)))))).
Proof.
  cbv zeta. unfold update_iteration, try_except.
  unfold bind at 1, time_time at 1. unfold bind at 1, get_self at 1.
  cbn [self reads trace]. unfold bind at 1, set_self at 1, modify at 1.
  cbn [self reads trace set_last_update_time device_manager keyboard_processor
       keyboard_visualizer].
  destruct (decide (current_device (device_manager (self w)) = KEYBOARD)) as [Hk | Hk].
  - destruct (keyboard_processor (self w)) as [kp |] eqn:Hkp.
    + unfold bind at 1, on_processor at 1.
      cbn [self reads trace keyboard_processor set_last_update_time]. rewrite Hkp.
      destruct (keyboard_processor.update clk
                  (clk (reads w) - last_update_time (self w))
                  (mkWorld kp (S (reads w)) (trace w))) as [[[] | e] kw] eqn:E.
      * destruct (keyboard_visualizer (self w)); [destruct visualize as [[] | e] |];
          cbn; eexists; (split; [reflexivity |]); cbn;
          (split; [reflexivity |]); (split; [reflexivity |]);
          (split; [intros Hn; contradiction |]);
          intros kp' _ [= <-]; rewrite E; reflexivity.
      * cbn. eexists. split; [reflexivity |]. cbn.
        split; [reflexivity |]. split; [reflexivity |].
        split; [intros Hn; contradiction |].
        intros kp' _ [= <-]. rewrite E. reflexivity.
    + eexists. split; [reflexivity |]. cbn. rewrite Hkp.
      split; [reflexivity |]. split; [reflexivity |].
      split; [intros Hn; contradiction |]. intros kp' _ [=].
  - eexists. split; [reflexivity |]. cbn.
    split; [reflexivity |]. split; [reflexivity |].
    split; [auto |]. intros kp' Hk'. contradiction.
Qed.

End Controller.

Section ControllerExamples.

Import input_device_manager input_controller.

Lemma controller_builds_processor_from_file_witness :
  exists w',
    _init_keyboard_support (Notebook (Ok tt) (Ok tt)) (bare_controller UNKNOWN)
      = (Ok tt, w')
    /\ keyboard_processor (self w') = Some default_controls_processor
    /\ device_manager (self w') = device_manager (self (bare_controller UNKNOWN))
    /\ keyboard_visualizer (self w') = true.
Proof.
  destruct (controller_builds_processor_from_file (Notebook (Ok tt) (Ok tt))
              (bare_controller UNKNOWN)) as (Hok & _).
  eapply Hok; [right; reflexivity | reflexivity | reflexivity].
Defined.

End ControllerExamples.

(** ** Both steering keys held *)

Section BothSteerKeys.

Import keyboard_processor.

Variable clk : nat -> R.


End BothSteerKeys.

Section BothSteerKeysExamples.

Import keyboard_processor scenario.


End BothSteerKeysExamples.

(** ** The axes stay in bounds along a run *)

Section BoundedRuns.

Import keyboard_processor scenario processor_frames bounded_runs.

Variable clk : nat -> R.
Hypothesis clock_nondecreasing : nondecreasing clk.

Lemma bounded_key_pressed (key : string) (w : W) :
  bounded clk w -> bounded clk (snd (_key_pressed clk key w)).
Proof.
  intros (Hcfg & Hsm & Hp & Hb).
  destruct (key_states (self w) !! key) as [state |] eqn:Hk.
  2:{ rewrite (key_pressed_untracked clk w key Hk).
      exact (conj Hcfg (conj Hsm (conj Hp Hb))). }
  rewrite (key_pressed_eq clk w key state Hk).
  destruct (pressed state) eqn:Hpr; cbn [snd].
  - split; [exact Hcfg |]. split; [exact Hsm |]. split; [| exact Hb].
    apply (presses_before_later clk w); [exact Hp | reflexivity | cbn; lia].
  - split; [exact Hcfg |]. split; [exact Hsm |]. split; [| exact Hb].
    intros key' state' n Hlk Hpr' Hn. cbn in Hlk, Hn.
    apply lookup_insert_Some in Hlk as [[_ <-] | [_ Hlk]].
    + cbn. apply clock_nondecreasing. lia.
    + apply (Hp key' state' n Hlk Hpr'). lia.
Qed.

Lemma bounded_key_released (key : string) (w : W) :
  bounded clk w -> bounded clk (snd (_key_released clk key w)).
Proof.
  intros (Hcfg & Hsm & Hp & Hb).
  destruct (key_states (self w) !! key) as [state |] eqn:Hk.
  2:{ rewrite (key_released_untracked clk w key Hk).
      exact (conj Hcfg (conj Hsm (conj Hp Hb))). }
  rewrite (key_released_eq clk w key state Hk). cbn [snd].
  split; [exact Hcfg |]. split; [exact Hsm |]. split; [| exact Hb].
  intros key' state' n Hlk Hpr' Hn. cbn in Hlk, Hn.
  apply lookup_insert_Some in Hlk as [[_ <-] | [_ Hlk]].
  - cbn in Hpr'. discriminate.
  - apply (Hp key' state' n Hlk Hpr'). lia.
Qed.

Lemma bounded_update (dt : R) (w : W) :
  0 <= dt -> bounded clk w ->
  exists w', update clk dt w = (Ok tt, w') /\ bounded clk w'.
Proof.
  intros Hdt (Hcfg & Hsm & Hp & Hb).
  destruct (update_preserves_axis_bounds clk dt w Hdt Hcfg Hsm Hp Hb)
    as (w' & E & Hb' & _).
  pose proof (preserves_update clk dt w) as Hfr. rewrite E in Hfr.
  destruct Hfr as (Fc & Fk & Fs & Fp & _ & Fr).
  exists w'. split; [exact E |].
  split; [cbn [snd] in Fc; rewrite Fc; exact Hcfg |].
  split; [unfold smoothing_in_range; cbn [snd] in Fs, Fp; rewrite Fs, Fp; exact Hsm |].
  split; [| exact Hb'].
  apply (presses_before_later clk w); assumption.
Qed.

(** X25. The axes stay within their bounds along every run under a clock
    that never goes back. From a processor with a configuration in range,
    axes within their bounds and no held key pressed later than the
    readings to come (a freshly built processor in particular), over any
    sequence of key events and ticks with [dt >= 0], every tick returns,
    every (steering, throttle, brake) it reports has steering in [-1, 1]
    and throttle and brake in [0, 1], and the same holds of the processor
    at the end. *)
Theorem run_keeps_axes_in_bounds (inputs : list input) (w : W) :
  ticks_nonneg inputs ->
  bounded clk w ->
  Forall in_bounds (fst (run clk inputs w))
  /\ length (fst (run clk inputs w)) = ticks inputs
  /\ bounded clk (snd (run clk inputs w)).
Proof.
  revert w. induction inputs as [| [key | key | dt] rest IH]; intros w Hdt Hw.
  - cbn. split; [constructor | split; [reflexivity | exact Hw]].
  - cbn [run ticks]. apply IH.
    + intros dt Hin. apply Hdt. now right.
    + now apply bounded_key_pressed.
  - cbn [run ticks]. apply IH.
    + intros dt Hin. apply Hdt. now right.
    + now apply bounded_key_released.
  - assert (H0 : 0 <= dt) by (apply Hdt; now left).
    destruct (bounded_update dt w H0 Hw) as (w' & E & Hw').
    cbn [run ticks]. rewrite E.
    destruct (IH w') as (Hall & Hlen & Hend);
      [intros dt' Hin; apply Hdt; now right | exact Hw' |].
    destruct (run clk rest w') as [outputs w'']. cbn [fst snd] in *.
    split; [| split; [cbn; now rewrite Hlen | exact Hend]].
    constructor; [| exact Hall].
    destruct Hw' as (_ & _ & _ & Hb). exact Hb.
Qed.

End BoundedRuns.

Section BoundedRunsExamples.

Import keyboard_processor scenario bounded_runs.

Lemma run_keeps_axes_in_bounds_witness :
  Forall in_bounds (fst (run (fun n => INR n) short_drive fresh_world))
  /\ length (fst (run (fun n => INR n) short_drive fresh_world)) = ticks short_drive
  /\ bounded (fun n => INR n) (snd (run (fun n => INR n) short_drive fresh_world)).
Proof.
  apply (run_keeps_axes_in_bounds (fun n => INR n)).
  - intros m n Hmn. now apply le_INR.
  - intros dt Hin. cbn in Hin.
    repeat (destruct Hin as [Hin | Hin]; [try discriminate; injection Hin as <-; lra |]).
    contradiction.
  - split; [exact default_config_in_range |].
    split; [unfold smoothing_in_range; cbn; lra |].
    split; [| unfold axes_in_bounds; cbn; lra].
    intros key state n Hlk Hpr _. cbn in Hlk.
    rewrite (default_key_states_unpressed key state Hlk) in Hpr. discriminate.
Defined.

End BoundedRunsExamples.
